(** * dxtbx: image sets and detector panels

    A shallow embedding of [src/model/panel.h] and [src/imageset.h]:
    the detector-panel geometry (pixel/millimetre scaling, lab coordinates,
    resolution estimators, the mask list) and the image-collection model
    (ImageSetData, ImageSet, ImageGrid, ImageSweep) with the correction
    pipeline.

    Conventions.
    - [std::size_t] is [nat]; [int] is [Z], with the conversions between the
      two written out ([int_of_size_t], [size_t_of_int]).
    - [double] is a parameter of the panel geometry (class [Scalar]); the code
      runs at the binary64 instance [double_Scalar] (Rocq's primitive floats).
    - A failed [DXTBX_ASSERT] throws: outcome [Fatal].  [DXTBX_ERROR(msg)] is
      the error object; written as a statement, without [throw], it throws
      nothing.  An unchecked out-of-range subscript or a null dereference is
      [Undefined].
    - [scitbx::af::shared<T>] is a reference-counted handle: copies of an
      ImageSetData share the four slot arrays, which therefore live in a
      [Heap]; every other member is copied by value. *)

From Stdlib Require Import ZArith List Bool String Lia.
From Stdlib Require Import Floats Uint63.
Import ListNotations.

Set Implicit Arguments.

Local Open Scope string_scope.
Local Open Scope list_scope.
Local Open Scope nat_scope.

(* ------------------------------------------------------------------ *)
(** ** Outcomes of a call *)

Inductive outcome (A : Type) : Type :=
| Ok (a : A)
| Fatal (what : string)
| Undefined.

Arguments Ok {A} a.
Arguments Fatal {A} what.
Arguments Undefined {A}.

Definition obind {A B : Type} (m : outcome A) (k : A -> outcome B) : outcome B :=
  match m with
  | Ok a => k a
  | Fatal w => Fatal w
  | Undefined => Undefined
  end.

Notation "'do' x <- m ; k" := (obind m (fun x => k))
  (at level 10, x name, m at level 100, k at level 200).

(** [DXTBX_ASSERT(cond)]: throws when the condition is false; [text] is the
    asserted expression. *)
Definition DXTBX_ASSERT (cond : bool) (text : string) : outcome unit :=
  if cond then Ok tt else Fatal text.

Definition is_fatal {A : Type} (o : outcome A) : bool :=
  match o with Fatal _ => true | _ => false end.

(** [DXTBX_ERROR(msg)] (dxtbx/error.h, which is not under src/) is an
    expression: the error object for [msg].  The macro that throws is
    [DXTBX_ASSERT]; an error object is thrown only where the source writes
    [throw] before it.  Every [DXTBX_ERROR] of src/imageset.h is a statement
    of its own, with no [throw]: the object is built and dropped, and the
    function goes on with its next statement. *)
Record error : Type := mkerror { error_what : string }.

Definition DXTBX_ERROR (msg : string) : error := mkerror msg.

(** An expression statement: the value is computed and dropped. *)
Definition discarded {A : Type} (value : A) : outcome unit := Ok tt.

(* ------------------------------------------------------------------ *)
(** ** Machine integers *)

(** [std::size_t] to [int]: the low 32 bits, read as a signed number. *)
Definition int_of_size_t (n : nat) : Z :=
  ((Z.of_nat n + 2 ^ 31) mod 2 ^ 32 - 2 ^ 31)%Z.

(** [int] to [std::size_t] (the usual arithmetic conversion in a comparison
    of the two): reduction modulo 2^64. *)
Definition size_t_of_int (i : Z) : Z := (i mod 2 ^ 64)%Z.

(** [int * int]: the low 32 bits of the product, read as a signed number
    (an overflowing signed product is formally undefined; the compiled code
    wraps around). *)
Definition int_mul (a b : Z) : Z :=
  ((a * b + 2 ^ 31) mod 2 ^ 32 - 2 ^ 31)%Z.

(* ------------------------------------------------------------------ *)
(** ** The arithmetic of [double] *)

Class Scalar (T : Type) : Type := {
  s_zero : T;
  s_one : T;
  s_two : T;
  s_half : T;
  s_add : T -> T -> T;
  s_sub : T -> T -> T;
  s_mul : T -> T -> T;
  s_div : T -> T -> T;
  s_ltb : T -> T -> bool;
  s_leb : T -> T -> bool;
  s_eqb : T -> T -> bool;
  s_of_int : Z -> T
}.

Declare Scope scalar_scope.
Delimit Scope scalar_scope with sc.
Notation "x + y" := (s_add x y) : scalar_scope.
Notation "x - y" := (s_sub x y) : scalar_scope.
Notation "x * y" := (s_mul x y) : scalar_scope.
Notation "x / y" := (s_div x y) : scalar_scope.
Notation "x <? y" := (s_ltb x y) : scalar_scope.
Notation "x <=? y" := (s_leb x y) : scalar_scope.
Notation "x =? y" := (s_eqb x y) : scalar_scope.

(** binary64, as the compiled code computes. *)
Definition double : Type := float.

Definition double_of_int (z : Z) : double :=
  match z with
  | Z0 => 0%float
  | Zpos _ => PrimFloat.of_uint63 (Uint63.of_Z z)
  | Zneg p => PrimFloat.opp (PrimFloat.of_uint63 (Uint63.of_Z (Zpos p)))
  end.

#[export] Instance double_Scalar : Scalar double := {|
  s_zero := 0%float;
  s_one := 1%float;
  s_two := 2%float;
  s_half := 0.5%float;
  s_add := PrimFloat.add;
  s_sub := PrimFloat.sub;
  s_mul := PrimFloat.mul;
  s_div := PrimFloat.div;
  s_ltb := PrimFloat.ltb;
  s_leb := PrimFloat.leb;
  s_eqb := PrimFloat.eqb;
  s_of_int := double_of_int
|}.

(* ------------------------------------------------------------------ *)
(** ** scitbx small vectors and matrices *)

Record vec2 (T : Type) : Type := mkvec2 { v2_0 : T; v2_1 : T }.
Record vec3 (T : Type) : Type := mkvec3 { v3_0 : T; v3_1 : T; v3_2 : T }.

(** [mat3], row-major: element [3*r + c]. *)
Record mat3 (T : Type) : Type := mkmat3 {
  m_0 : T; m_1 : T; m_2 : T;
  m_3 : T; m_4 : T; m_5 : T;
  m_6 : T; m_7 : T; m_8 : T
}.

(** [af::int4]: four ints, read by position. *)
Record int4 : Type := mkint4 { i4_0 : Z; i4_1 : Z; i4_2 : Z; i4_3 : Z }.

Section VecOps.
Context {T : Type} {ST : Scalar T}.
Local Open Scope scalar_scope.

(** [vec3 * vec3]: the dot product. *)
Definition vec3_dot (a b : vec3 T) : T :=
  v3_0 a * v3_0 b + v3_1 a * v3_1 b + v3_2 a * v3_2 b.

Definition vec3_cross (a b : vec3 T) : vec3 T :=
  mkvec3 (v3_1 a * v3_2 b - v3_1 b * v3_2 a)
         (v3_2 a * v3_0 b - v3_2 b * v3_0 a)
         (v3_0 a * v3_1 b - v3_0 b * v3_1 a).

Definition vec3_scale (a : vec3 T) (k : T) : vec3 T :=
  mkvec3 (v3_0 a * k) (v3_1 a * k) (v3_2 a * k).

Definition vec3_div (a : vec3 T) (k : T) : vec3 T :=
  mkvec3 (v3_0 a / k) (v3_1 a / k) (v3_2 a / k).

(** [mat3 * vec3]. *)
Definition mat3_mul_vec3 (m : mat3 T) (v : vec3 T) : vec3 T :=
  mkvec3 (m_0 m * v3_0 v + m_1 m * v3_1 v + m_2 m * v3_2 v)
         (m_3 m * v3_0 v + m_4 m * v3_1 v + m_5 m * v3_2 v)
         (m_6 m * v3_0 v + m_7 m * v3_1 v + m_8 m * v3_2 v).

(** [operator==] on [vec2<double>]: componentwise. *)
Definition vec2_eqb (a b : vec2 T) : bool :=
  (v2_0 a =? v2_0 b) && (v2_1 a =? v2_1 b).

Definition vec3_eqb (a b : vec3 T) : bool :=
  (v3_0 a =? v3_0 b) && (v3_1 a =? v3_1 b) && (v3_2 a =? v3_2 b).

(** [scitbx::af::min] over a [double4]: keeps the first element and
    replaces it by each later one that compares less. *)
Definition af_min4 (a b c d : T) : T :=
  let r := a in
  let r := if b <? r then b else r in
  let r := if c <? r then c else r in
  if d <? r then d else r.

(** [scitbx::af::max] over a [double4]. *)
Definition af_max4 (a b c d : T) : T :=
  let r := a in
  let r := if r <? b then b else r in
  let r := if r <? c then c else r in
  if r <? d then d else r.
End VecOps.

(* ------------------------------------------------------------------ *)
(** ** Panel (src/model/panel.h) *)

Record Panel (T : Type) : Type := mkPanel {
  type_ : string;
  d_ : mat3 T;
  D_ : mat3 T;
  pixel_size_ : vec2 T;
  image_size_ : vec2 nat;
  trusted_range_ : vec2 T;
  mask_ : list int4
}.

Section PanelOps.
Context {T : Type} {ST : Scalar T}.
Local Open Scope scalar_scope.

Definition get_fast_axis (p : Panel T) : vec3 T :=
  mkvec3 (m_0 (d_ p)) (m_3 (d_ p)) (m_6 (d_ p)).

Definition get_slow_axis (p : Panel T) : vec3 T :=
  mkvec3 (m_1 (d_ p)) (m_4 (d_ p)) (m_7 (d_ p)).

Definition get_origin (p : Panel T) : vec3 T :=
  mkvec3 (m_2 (d_ p)) (m_5 (d_ p)) (m_8 (d_ p)).

Definition get_normal (p : Panel T) : vec3 T :=
  vec3_cross (get_fast_axis p) (get_slow_axis p).

Definition get_pixel_size (p : Panel T) : vec2 T := pixel_size_ p.

Definition set_pixel_size (p : Panel T) (pixel_size : vec2 T) : Panel T :=
  mkPanel (type_ p) (d_ p) (D_ p) pixel_size (image_size_ p)
          (trusted_range_ p) (mask_ p).

Definition get_image_size (p : Panel T) : vec2 nat := image_size_ p.

Definition get_trusted_range (p : Panel T) : vec2 T := trusted_range_ p.

Definition get_mask (p : Panel T) : list int4 := mask_ p.

Definition set_mask (p : Panel T) (mask : list int4) : Panel T :=
  mkPanel (type_ p) (d_ p) (D_ p) (pixel_size_ p) (image_size_ p)
          (trusted_range_ p) mask.

(** [mask_.push_back(int4(f0, f1, s0, s1))]. *)
Definition add_mask (p : Panel T) (f0 s0 f1 s1 : Z) : Panel T :=
  mkPanel (type_ p) (d_ p) (D_ p) (pixel_size_ p) (image_size_ p)
          (trusted_range_ p) (mask_ p ++ [mkint4 f0 f1 s0 s1]).

Definition get_distance (p : Panel T) : T :=
  vec3_dot (get_origin p) (get_normal p).

Definition is_value_in_trusted_range (p : Panel T) (value : T) : bool :=
  (v2_0 (trusted_range_ p) <=? value) && (value <? v2_1 (trusted_range_ p)).

Definition millimeter_to_pixel (p : Panel T) (xy : vec2 T) : vec2 T :=
  mkvec2 (v2_0 xy / v2_0 (pixel_size_ p)) (v2_1 xy / v2_1 (pixel_size_ p)).

Definition pixel_to_millimeter (p : Panel T) (xy : vec2 T) : vec2 T :=
  mkvec2 (v2_0 xy * v2_0 (pixel_size_ p)) (v2_1 xy * v2_1 (pixel_size_ p)).

Definition get_lab_coord (p : Panel T) (xy : vec2 T) : vec3 T :=
  mat3_mul_vec3 (d_ p) (mkvec3 (v2_0 xy) (v2_1 xy) s_one).

Definition get_pixel_lab_coord (p : Panel T) (xy : vec2 T) : vec3 T :=
  let xy_mm := pixel_to_millimeter p xy in
  get_lab_coord p xy_mm.

Definition get_ray_intersection (p : Panel T) (s1 : vec3 T) : outcome (vec2 T) :=
  let v := mat3_mul_vec3 (D_ p) s1 in
  do _ <- DXTBX_ASSERT (s_zero <? v3_2 v) "v[2] > 0";
  Ok (mkvec2 (v3_0 v / v3_2 v) (v3_1 v / v3_2 v)).

Definition get_beam_centre (p : Panel T) (s0 : vec3 T) : outcome (vec2 T) :=
  get_ray_intersection p s0.

Definition get_beam_centre_lab (p : Panel T) (s0 : vec3 T) : outcome (vec3 T) :=
  let s0dotd3 := vec3_dot s0 (get_normal p) in
  do _ <- DXTBX_ASSERT (s_zero <? s0dotd3) "s0dotd3 > 0";
  Ok (vec3_div (vec3_scale s0 (get_distance p)) s0dotd3).

(** The resolution estimators call [sin] (libm) and [vec3::angle]
    (scitbx); both are parameters. *)
Section Resolution.
Variable sin : T -> T.
Variable angle : vec3 T -> vec3 T -> T.

(** [sin(0.5 * beam_centre.angle(xyz))] at a pixel. *)
Definition pixel_sintheta (p : Panel T) (beam_centre : vec3 T) (xy : vec2 T) : T :=
  let xyz := get_pixel_lab_coord p xy in
  sin (s_half * angle beam_centre xyz).

Definition get_resolution_at_pixel
    (p : Panel T) (s0 : vec3 T) (wavelength : T) (xy : vec2 T) : outcome T :=
  do beam_centre <- get_beam_centre_lab p s0;
  let sintheta := pixel_sintheta p beam_centre xy in
  do _ <- DXTBX_ASSERT (negb (sintheta =? s_zero)) "sintheta != 0";
  Ok (wavelength / (s_two * sintheta)).

(** Half the maximum angle to the four corners, through [sin]. *)
Definition corners_sintheta (p : Panel T) (beam_centre : vec3 T) : T :=
  let fast := s_of_int (int_of_size_t (v2_0 (image_size_ p))) in
  let slow := s_of_int (int_of_size_t (v2_1 (image_size_ p))) in
  let xyz00 := get_origin p in
  let xyz01 := get_pixel_lab_coord p (mkvec2 (s_of_int 0) slow) in
  let xyz10 := get_pixel_lab_coord p (mkvec2 fast (s_of_int 0)) in
  let xyz11 := get_pixel_lab_coord p (mkvec2 fast slow) in
  sin (s_half * af_max4 (angle beam_centre xyz00) (angle beam_centre xyz01)
                        (angle beam_centre xyz10) (angle beam_centre xyz11)).

Definition get_max_resolution_at_corners
    (p : Panel T) (s0 : vec3 T) (wavelength : T) : outcome T :=
  do beam_centre <- get_beam_centre_lab p s0;
  let sintheta := corners_sintheta p beam_centre in
  do _ <- DXTBX_ASSERT (negb (sintheta =? s_zero)) "sintheta != 0";
  Ok (wavelength / (s_two * sintheta)).

(** Half the minimum angle to the four crosshair points, through [sin]. *)
Definition elipse_sintheta (p : Panel T) (c : vec2 T) (beam_centre : vec3 T) : T :=
  let fast := s_of_int (int_of_size_t (v2_0 (image_size_ p))) in
  let slow := s_of_int (int_of_size_t (v2_1 (image_size_ p))) in
  let xyz0c := get_pixel_lab_coord p (mkvec2 s_zero (v2_1 c)) in
  let xyz1c := get_pixel_lab_coord p (mkvec2 fast (v2_1 c)) in
  let xyzc0 := get_pixel_lab_coord p (mkvec2 (v2_0 c) s_zero) in
  let xyzc1 := get_pixel_lab_coord p (mkvec2 (v2_0 c) slow) in
  sin (s_half * af_min4 (angle beam_centre xyz0c) (angle beam_centre xyzc0)
                        (angle beam_centre xyz1c) (angle beam_centre xyzc1)).

Definition get_max_resolution_elipse
    (p : Panel T) (s0 : vec3 T) (wavelength : T) : outcome T :=
  do c_mm <- get_beam_centre p s0;
  let c := millimeter_to_pixel p c_mm in
  do beam_centre <- get_beam_centre_lab p s0;
  let sintheta := elipse_sintheta p c beam_centre in
  Ok (wavelength / (s_two * sintheta)).
End Resolution.
End PanelOps.

(* ------------------------------------------------------------------ *)
(** ** State passing *)

(** A call that may change a state [St]; a throw keeps the state reached. *)
Definition M (St A : Type) : Type := St -> outcome A * St.

Definition ret {St A : Type} (a : A) : M St A := fun s => (Ok a, s).

Definition bind {St A B : Type} (m : M St A) (k : A -> M St B) : M St B :=
  fun s =>
    match m s with
    | (Ok a, s') => k a s'
    | (Fatal w, s') => (Fatal w, s')
    | (Undefined, s') => (Undefined, s')
    end.

Definition lift {St A : Type} (o : outcome A) : M St A := fun s => (o, s).
Definition get {St : Type} : M St St := fun s => (Ok s, s).
Definition modify {St : Type} (f : St -> St) : M St unit := fun s => (Ok tt, f s).

Declare Scope call_scope.
Delimit Scope call_scope with call.
Notation "x <- m ;; k" := (bind m (fun x => k))
  (at level 61, m at next level, right associativity) : call_scope.
Notation "m ;; k" := (bind m (fun _ => k))
  (at level 61, right associativity) : call_scope.

(** [for (i = lo; i < lo + count; ++i) body(i)] on a state. *)
Fixpoint for_loop {St : Type} (lo count : nat) (body : nat -> M St unit) : M St unit :=
  match count with
  | 0 => ret tt
  | S count' => bind (body lo) (fun _ => for_loop (S lo) count' body)
  end.

(** The same loop threading a local variable through a body that may throw. *)
Fixpoint for_acc {A : Type} (lo count : nat) (body : nat -> A -> outcome A) (acc : A)
  : outcome A :=
  match count with
  | 0 => Ok acc
  | S count' => obind (body lo acc) (for_acc (S lo) count' body)
  end.

(** [l[i] = v] on an array; the caller has checked the subscript. *)
Fixpoint update {A : Type} (i : nat) (v : A) (l : list A) : list A :=
  match l, i with
  | [], _ => []
  | _ :: r, 0 => v :: r
  | x :: r, S i' => x :: update i' v r
  end.

(** An unchecked subscript. *)
Definition subscript {A : Type} (l : list A) (i : nat) : outcome A :=
  match nth_error l i with
  | Some x => Ok x
  | None => Undefined
  end.

(* ------------------------------------------------------------------ *)
(** ** Tiled images *)

(** Modelled from the spec: the tile containers of dxtbx/format/image.h are
    not under src/.  A [versa] over a [c_grid<2>] is its grid (rows, columns)
    and its elements in row-major order, [rows * columns] of them; a
    TiledImage is an ordered sequence of tiles, empty when it has none. *)
Record versa (T : Type) : Type := mkversa {
  accessor : nat * nat;
  elems : list T
}.

Definition versa_size {T : Type} (v : versa T) : nat :=
  fst (accessor v) * snd (accessor v).

(** [versa(grid, value)]: every element is [value]. *)
Definition versa_fill {T : Type} (grid : nat * nat) (value : T) : versa T :=
  mkversa grid (repeat value (fst grid * snd grid)).

Definition all_eq (a b : nat * nat) : bool :=
  (fst a =? fst b) && (snd a =? snd b).

Record ImageTile (T : Type) : Type := mkImageTile { tile_data : versa T }.

Definition Image (T : Type) : Type := list (ImageTile T).

Definition n_tiles {T : Type} (im : Image T) : nat := List.length im.
Definition Image_empty {T : Type} (im : Image T) : bool := n_tiles im =? 0.
Definition Image_push_back {T : Type} (im : Image T) (t : ImageTile T) : Image T :=
  im ++ [t].

Definition Image_tile {T : Type} (im : Image T) (i : nat) : outcome (ImageTile T) :=
  do _ <- DXTBX_ASSERT (i <? n_tiles im) "index < n_tiles()";
  subscript im i.

(** Modelled from the spec: ImageBuffer (dxtbx/format/image.h) holds the raw
    image as the reader decoded it, in integer or double samples;
    [as_double] promotes every sample to double. *)
Inductive ImageBuffer : Type :=
| EmptyBuffer
| IntBuffer (im : Image Z)
| DoubleBuffer (im : Image double).

Definition versa_map {A B : Type} (f : A -> B) (v : versa A) : versa B :=
  mkversa (accessor v) (map f (elems v)).

Definition as_double (b : ImageBuffer) : Image double :=
  match b with
  | EmptyBuffer => []
  | IntBuffer im => map (fun t => mkImageTile (versa_map double_of_int (tile_data t))) im
  | DoubleBuffer im => im
  end.

(* ------------------------------------------------------------------ *)
(** ** Instrument models *)

(** Modelled from the spec: Detector (dxtbx/model/detector.h is not under
    src/) is an ordered, index-addressable collection of panels; each panel
    carries the scalar gain that imageset.h reads through [get_gain()],
    which panel.h under src/ does not declare. *)
Record DetectorPanel : Type := mkDetectorPanel {
  dp_panel : Panel double;
  dp_gain : double
}.

Definition Detector : Type := list DetectorPanel.

(** Modelled from the spec: Scan (dxtbx/model/scan.h is not under src/) is
    used through [get_num_images()] and slicing by image index [scan[i]]; it
    is the inclusive image range it covers.  [scan[i]] checks its index and
    is the one-image scan of image [first + i]. *)
Record Scan : Type := mkScan { image_range_ : Z * Z }.

Definition Scan_get_num_images (s : Scan) : Z :=
  (1 + snd (image_range_ s) - fst (image_range_ s))%Z.

Definition Scan_getitem (s : Scan) (index : Z) : outcome Scan :=
  do _ <- DXTBX_ASSERT ((0 <=? index)%Z && (index <? Scan_get_num_images s)%Z)
            "(index >= 0) && (index < get_num_images())";
  let image_index := (fst (image_range_ s) + index)%Z in
  Ok (mkScan (image_index, image_index)).

(** The external reader/masker capability ([boost::python::object]): its
    length and its per-index queries. *)
Record Reader : Type := mkReader {
  rd_len : nat;
  rd_read : nat -> ImageBuffer;
  rd_mask : nat -> Image bool;
  rd_is_single_file_reader : bool;
  rd_path : nat -> string;
  rd_identifier : nat -> string
}.

(* ------------------------------------------------------------------ *)
(** ** ExternalLookup *)

Record ExternalLookupItem (T : Type) : Type := mkExternalLookupItem {
  eli_filename_ : string;
  eli_data_ : Image T
}.

Definition get_filename {T : Type} (it : ExternalLookupItem T) : string :=
  eli_filename_ it.
Definition set_filename {T : Type} (it : ExternalLookupItem T) (filename : string)
  : ExternalLookupItem T :=
  mkExternalLookupItem filename (eli_data_ it).
Definition get_data {T : Type} (it : ExternalLookupItem T) : Image T := eli_data_ it.
Definition set_data {T : Type} (it : ExternalLookupItem T) (data : Image T)
  : ExternalLookupItem T :=
  mkExternalLookupItem (eli_filename_ it) data.

Record ExternalLookup : Type := mkExternalLookup {
  el_mask_ : ExternalLookupItem bool;
  el_gain_ : ExternalLookupItem double;
  el_pedestal_ : ExternalLookupItem double
}.

Definition ExternalLookup_default : ExternalLookup :=
  mkExternalLookup (mkExternalLookupItem EmptyString []) (mkExternalLookupItem EmptyString [])
                   (mkExternalLookupItem EmptyString []).

(** Writing through the references [mask()], [gain()], [pedestal()]. *)
Definition with_mask (f : ExternalLookupItem bool -> ExternalLookupItem bool)
    (el : ExternalLookup) : ExternalLookup :=
  mkExternalLookup (f (el_mask_ el)) (el_gain_ el) (el_pedestal_ el).
Definition with_gain (f : ExternalLookupItem double -> ExternalLookupItem double)
    (el : ExternalLookup) : ExternalLookup :=
  mkExternalLookup (el_mask_ el) (f (el_gain_ el)) (el_pedestal_ el).
Definition with_pedestal (f : ExternalLookupItem double -> ExternalLookupItem double)
    (el : ExternalLookup) : ExternalLookup :=
  mkExternalLookup (el_mask_ el) (el_gain_ el) (f (el_pedestal_ el)).

(* ------------------------------------------------------------------ *)
(** ** The image collection (src/imageset.h) *)

Section Collection.
(** Beam and Goniometer are external value types; the collection only
    stores and returns them. *)
Variables Beam Goniometer : Type.

(** A [boost::shared_ptr<X>] slot holds either NULL or a model; no code
    here writes through the pointer, so the slot is the model it points to. *)
Definition beam_ptr : Type := option Beam.
Definition detector_ptr : Type := option Detector.
Definition goniometer_ptr : Type := option Goniometer.
Definition scan_ptr : Type := option Scan.

(** [detail::safe_dereference] asserts; a plain [*ptr] does not. *)
Definition safe_dereference {X : Type} (ptr : option X) : outcome X :=
  match ptr with
  | Some item => Ok item
  | None => Fatal "item != NULL"
  end.

Definition dereference {X : Type} (ptr : option X) : outcome X :=
  match ptr with
  | Some item => Ok item
  | None => Undefined
  end.

(** The storage behind the [scitbx::af::shared] slot arrays: a handle is a
    position in the store of its kind. *)
Record Heap : Type := mkHeap {
  beam_arrays : list (list beam_ptr);
  detector_arrays : list (list detector_ptr);
  goniometer_arrays : list (list goniometer_ptr);
  scan_arrays : list (list scan_ptr)
}.

Definition empty_heap : Heap := mkHeap [] [] [] [].

Definition slot_get {X : Type} (store : list (list (option X)))
    (handle index : nat) (text : string) : outcome (option X) :=
  do arr <- subscript store handle;
  do _ <- DXTBX_ASSERT (index <? List.length arr) text;
  subscript arr index.

Definition slot_set {X : Type} (store : list (list (option X)))
    (handle index : nat) (v : option X) (text : string)
    : outcome (list (list (option X))) :=
  do arr <- subscript store handle;
  do _ <- DXTBX_ASSERT (index <? List.length arr) text;
  Ok (update handle (update index v arr) store).

(** Commit a store computed by [slot_set]. *)
Definition commit {X : Type} (o : outcome X) (put : X -> Heap -> Heap) : M Heap unit :=
  fun h =>
    match o with
    | Ok x => (Ok tt, put x h)
    | Fatal w => (Fatal w, h)
    | Undefined => (Undefined, h)
    end.

Definition put_beams (a : list (list beam_ptr)) (h : Heap) : Heap :=
  mkHeap a (detector_arrays h) (goniometer_arrays h) (scan_arrays h).
Definition put_detectors (a : list (list detector_ptr)) (h : Heap) : Heap :=
  mkHeap (beam_arrays h) a (goniometer_arrays h) (scan_arrays h).
Definition put_goniometers (a : list (list goniometer_ptr)) (h : Heap) : Heap :=
  mkHeap (beam_arrays h) (detector_arrays h) a (scan_arrays h).
Definition put_scans (a : list (list scan_ptr)) (h : Heap) : Heap :=
  mkHeap (beam_arrays h) (detector_arrays h) (goniometer_arrays h) a.

(** *** ImageSetData *)

Record ImageSetData : Type := mkImageSetData {
  sd_data_ : Reader;
  sd_beams_ : nat;
  sd_detectors_ : nat;
  sd_goniometers_ : nat;
  sd_scans_ : nat;
  sd_properties_ : list (string * string);
  sd_external_lookup_ : ExternalLookup
}.

(** [ImageSetData(reader, masker)]: four arrays of [len(reader)] null
    slots, then the length check. *)
Definition ImageSetData_new (reader masker : Reader) : M Heap ImageSetData :=
  fun h =>
    let n := rd_len reader in
    let h' := mkHeap (beam_arrays h ++ [repeat None n])
                     (detector_arrays h ++ [repeat None n])
                     (goniometer_arrays h ++ [repeat None n])
                     (scan_arrays h ++ [repeat None n]) in
    let this := mkImageSetData reader
                  (List.length (beam_arrays h)) (List.length (detector_arrays h))
                  (List.length (goniometer_arrays h)) (List.length (scan_arrays h))
                  [] ExternalLookup_default in
    match DXTBX_ASSERT (rd_len reader =? rd_len masker)
            "boost::python::len(reader) == boost::python::len(masker)" with
    | Ok _ => (Ok this, h')
    | Fatal w => (Fatal w, h')
    | Undefined => (Undefined, h')
    end.

(** [boost::python::object()]: the None object, which a default-constructed
    ImageSetData holds as its reader.  Python raises on [len(None)] and on
    every call through it; a [Reader] cannot raise, so this one has no image
    and serves nothing, and nothing below reads through it. *)
Definition none_reader : Reader :=
  mkReader 0 (fun _ => EmptyBuffer) (fun _ => []) false
           (fun _ => EmptyString) (fun _ => EmptyString).

(** [ImageSetData()]: the None reader and four empty arrays of its own. *)
Definition ImageSetData_default : M Heap ImageSetData :=
  fun h =>
    (Ok (mkImageSetData none_reader
           (List.length (beam_arrays h)) (List.length (detector_arrays h))
           (List.length (goniometer_arrays h)) (List.length (scan_arrays h))
           [] ExternalLookup_default),
     mkHeap (beam_arrays h ++ [[]]) (detector_arrays h ++ [[]])
            (goniometer_arrays h ++ [[]]) (scan_arrays h ++ [[]])).

Definition ImageSetData_get_data (this : ImageSetData) (index : nat) : ImageBuffer :=
  rd_read (sd_data_ this) index.
Definition ImageSetData_get_mask (this : ImageSetData) (index : nat) : Image bool :=
  rd_mask (sd_data_ this) index.
Definition ImageSetData_has_single_file_reader (this : ImageSetData) : bool :=
  rd_is_single_file_reader (sd_data_ this).
Definition ImageSetData_get_path (this : ImageSetData) (index : nat) : string :=
  rd_path (sd_data_ this) index.
Definition ImageSetData_get_master_path (this : ImageSetData) : string :=
  rd_path (sd_data_ this) 0.
Definition ImageSetData_get_image_identifier (this : ImageSetData) (index : nat)
  : string :=
  rd_identifier (sd_data_ this) index.
Definition ImageSetData_size (this : ImageSetData) : nat := rd_len (sd_data_ this).





Definition ImageSetData_get_beam (this : ImageSetData) (h : Heap) (index : nat)
  : outcome beam_ptr :=
  slot_get (beam_arrays h) (sd_beams_ this) index "index < beams_.size()".
Definition ImageSetData_set_beam (this : ImageSetData) (index : nat) (beam : beam_ptr)
  : M Heap unit :=
  fun h => commit (slot_set (beam_arrays h) (sd_beams_ this) index beam
                     "index < beams_.size()") put_beams h.

Definition ImageSetData_get_detector (this : ImageSetData) (h : Heap) (index : nat)
  : outcome detector_ptr :=
  slot_get (detector_arrays h) (sd_detectors_ this) index "index < detectors_.size()".
Definition ImageSetData_set_detector (this : ImageSetData) (index : nat)
    (detector : detector_ptr) : M Heap unit :=
  fun h => commit (slot_set (detector_arrays h) (sd_detectors_ this) index detector
                     "index < detectors_.size()") put_detectors h.

Definition ImageSetData_get_goniometer (this : ImageSetData) (h : Heap) (index : nat)
  : outcome goniometer_ptr :=
  slot_get (goniometer_arrays h) (sd_goniometers_ this) index
           "index < goniometers_.size()".
Definition ImageSetData_set_goniometer (this : ImageSetData) (index : nat)
    (goniometer : goniometer_ptr) : M Heap unit :=
  fun h => commit (slot_set (goniometer_arrays h) (sd_goniometers_ this) index goniometer
                     "index < goniometers_.size()") put_goniometers h.

Definition ImageSetData_get_scan (this : ImageSetData) (h : Heap) (index : nat)
  : outcome scan_ptr :=
  slot_get (scan_arrays h) (sd_scans_ this) index "index < scans_.size()".
Definition ImageSetData_set_scan (this : ImageSetData) (index : nat) (scan : scan_ptr)
  : M Heap unit :=
  fun h => commit (slot_set (scan_arrays h) (sd_scans_ this) index scan
                     "index < scans_.size()") put_scans h.

Definition ImageSetData_external_lookup (this : ImageSetData) : ExternalLookup :=
  sd_external_lookup_ this.

(** A write through the reference [external_lookup()]. *)
Definition ImageSetData_with_external_lookup (f : ExternalLookup -> ExternalLookup)
    (this : ImageSetData) : ImageSetData :=
  mkImageSetData (sd_data_ this) (sd_beams_ this) (sd_detectors_ this)
                 (sd_goniometers_ this) (sd_scans_ this) (sd_properties_ this)
                 (f (sd_external_lookup_ this)).

(** *** ImageSet *)

Record DataCache : Type := mkDataCache {
  dc_image : ImageBuffer;
  dc_index : Z
}.

Definition DataCache_default : DataCache := mkDataCache EmptyBuffer (-1).

Record ImageSet : Type := mkImageSet {
  is_data_ : ImageSetData;
  is_indices_ : list nat;
  is_data_cache_ : DataCache
}.

(** [ImageSet(data)]: the indices 0 .. data.size()-1. *)
Definition ImageSet_new (data : ImageSetData) : ImageSet :=
  mkImageSet data (seq 0 (ImageSetData_size data)) DataCache_default.

(** [scitbx::af::max] of an index array; it throws on an empty one. *)
Definition af_max (a : list nat) : outcome nat :=
  match a with
  | [] => Fatal "max() argument is an empty array"
  | x :: r => Ok (fold_left (fun result y => if result <? y then y else result) r x)
  end.

(** [ImageSet(data, indices)]. *)
Definition ImageSet_new_indices (data : ImageSetData) (indices : list nat)
  : outcome ImageSet :=
  do m <- af_max indices;
  do _ <- DXTBX_ASSERT (m <? ImageSetData_size data)
            "scitbx::af::max(indices) < data.size()";
  Ok (mkImageSet data indices DataCache_default).

Definition ImageSet_data (this : ImageSet) : ImageSetData := is_data_ this.
Definition ImageSet_indices (this : ImageSet) : list nat := is_indices_ this.
Definition ImageSet_size (this : ImageSet) : nat := List.length (is_indices_ this).

Definition ImageSet_external_lookup (this : ImageSet) : ExternalLookup :=
  ImageSetData_external_lookup (is_data_ this).

(** A write through [external_lookup()]: it reaches the [data_] member of
    this ImageSet. *)
Definition ImageSet_with_external_lookup (f : ExternalLookup -> ExternalLookup)
    (this : ImageSet) : ImageSet :=
  mkImageSet (ImageSetData_with_external_lookup f (is_data_ this))
             (is_indices_ this) (is_data_cache_ this).



Definition ImageSet_get_raw_data (index : nat) : M ImageSet ImageBuffer :=
  fun this =>
    if (size_t_of_int (dc_index (is_data_cache_ this)) =? Z.of_nat index)%Z
    then (Ok (dc_image (is_data_cache_ this)), this)
    else
      match subscript (is_indices_ this) index with
      | Ok phys =>
          let image := ImageSetData_get_data (is_data_ this) phys in
          (Ok image,
           mkImageSet (is_data_ this) (is_indices_ this)
                      (mkDataCache image (int_of_size_t index)))
      | Fatal w => (Fatal w, this)
      | Undefined => (Undefined, this)
      end.

Definition ImageSet_get_beam_for_image (this : ImageSet) (h : Heap) (index : nat)
  : outcome beam_ptr :=
  do _ <- DXTBX_ASSERT (index <? ImageSet_size this) "index < indices_.size()";
  do phys <- subscript (is_indices_ this) index;
  ImageSetData_get_beam (is_data_ this) h phys.

Definition ImageSet_get_detector_for_image (this : ImageSet) (h : Heap) (index : nat)
  : outcome detector_ptr :=
  do _ <- DXTBX_ASSERT (index <? ImageSet_size this) "index < indices_.size()";
  do phys <- subscript (is_indices_ this) index;
  ImageSetData_get_detector (is_data_ this) h phys.

Definition ImageSet_get_goniometer_for_image (this : ImageSet) (h : Heap) (index : nat)
  : outcome goniometer_ptr :=
  do _ <- DXTBX_ASSERT (index <? ImageSet_size this) "index < indices_.size()";
  do phys <- subscript (is_indices_ this) index;
  ImageSetData_get_goniometer (is_data_ this) h phys.

Definition ImageSet_get_scan_for_image (this : ImageSet) (h : Heap) (index : nat)
  : outcome scan_ptr :=
  do _ <- DXTBX_ASSERT (index <? ImageSet_size this) "index < indices_.size()";
  do phys <- subscript (is_indices_ this) index;
  ImageSetData_get_scan (is_data_ this) h phys.

Local Open Scope call_scope.

Definition ImageSet_set_beam_for_image (this : ImageSet) (index : nat)
    (beam : beam_ptr) : M Heap unit :=
  lift (DXTBX_ASSERT (index <? ImageSet_size this) "index < indices_.size()") ;;
  phys <- lift (subscript (is_indices_ this) index) ;;
  ImageSetData_set_beam (is_data_ this) phys beam.

Definition ImageSet_set_detector_for_image (this : ImageSet) (index : nat)
    (detector : detector_ptr) : M Heap unit :=
  lift (DXTBX_ASSERT (index <? ImageSet_size this) "index < indices_.size()") ;;
  phys <- lift (subscript (is_indices_ this) index) ;;
  ImageSetData_set_detector (is_data_ this) phys detector.

Definition ImageSet_set_goniometer_for_image (this : ImageSet) (index : nat)
    (goniometer : goniometer_ptr) : M Heap unit :=
  lift (DXTBX_ASSERT (index <? ImageSet_size this) "index < indices_.size()") ;;
  phys <- lift (subscript (is_indices_ this) index) ;;
  ImageSetData_set_goniometer (is_data_ this) phys goniometer.

(** [scan == NULL || scan->get_num_images() == 1]. *)
Definition scan_is_null_or_single (scan : scan_ptr) : bool :=
  match scan with
  | None => true
  | Some s => (Scan_get_num_images s =? 1)%Z
  end.

Definition ImageSet_set_scan_for_image (this : ImageSet) (index : nat)
    (scan : scan_ptr) : M Heap unit :=
  lift (DXTBX_ASSERT (scan_is_null_or_single scan)
          "scan == NULL || scan->get_num_images() == 1") ;;
  lift (DXTBX_ASSERT (index <? ImageSet_size this) "index < indices_.size()") ;;
  phys <- lift (subscript (is_indices_ this) index) ;;
  ImageSetData_set_scan (is_data_ this) phys scan.

(** The first loop of [get_gain]: [gain[i] = detector[i].get_gain()],
    leaving with [use_detector_gain = false] at the first [gain[i] <= 0]. *)
Fixpoint gain_loop (detector : Detector) (i count : nat) (gain : list double)
  : outcome (bool * list double) :=
  match count with
  | 0 => Ok (true, gain)
  | S count' =>
      do p <- subscript detector i;
      let gain := update i (dp_gain p) gain in
      do gi <- subscript gain i;
      if PrimFloat.leb gi 0 then Ok (false, gain)
      else gain_loop detector (S i) count' gain
  end.

(** The body of the second loop: one tile per panel,
    [c_grid<2>(ysize, xsize)] filled with [gain[i]]. *)
Definition gain_tile (detector : Detector) (gain : list double) (i : nat)
    (result : Image double) : outcome (Image double) :=
  do p <- subscript detector i;
  let xsize := v2_0 (get_image_size (dp_panel p)) in
  let ysize := v2_1 (get_image_size (dp_panel p)) in
  do gi <- subscript gain i;
  Ok (Image_push_back result (mkImageTile (versa_fill (ysize, xsize) gi))).

Definition gain_map (detector : Detector) (gain : list double)
  : outcome (Image double) :=
  for_acc 0 (List.length detector) (gain_tile detector gain) [].

Definition ImageSet_get_gain (h : Heap) (index : nat) : M ImageSet (Image double) :=
  this <- get ;;
  (if Image_empty (get_data (el_gain_ (ImageSet_external_lookup this))) then
     ptr <- lift (ImageSet_get_detector_for_image this h index) ;;
     detector <- lift (dereference ptr) ;;
     ug <- lift (gain_loop detector 0 (List.length detector)
                   (repeat 0%float (List.length detector))) ;;
     if fst ug then
       result <- lift (gain_map detector (snd ug)) ;;
       modify (ImageSet_with_external_lookup (with_gain (fun g => set_filename g EmptyString))) ;;
       modify (ImageSet_with_external_lookup (with_gain (fun g => set_data g result)))
     else ret tt
   else ret tt) ;;
  this <- get ;;
  ret (get_data (el_gain_ (ImageSet_external_lookup this))).

Definition ImageSet_get_pedestal (index : nat) : M ImageSet (Image double) :=
  this <- get ;;
  ret (get_data (el_pedestal_ (ImageSet_external_lookup this))).

(** One pass of the pedestal loop body, [c[i] = c[i] - p[i]], where [i] is
    the tile index of the enclosing loop and [j] the loop variable. *)
Definition pedestal_step (i : nat) (p : list double) (j : nat) (c : list double)
  : outcome (list double) :=
  do ci <- subscript c i;
  do pi <- subscript p i;
  Ok (update i (PrimFloat.sub ci pi) c).

(** One pass of the gain loop body: [DXTBX_ASSERT(g[i] > 0)] then
    [c[i] = c[i] / g[i]]. *)
Definition gain_step (i : nat) (g : list double) (j : nat) (c : list double)
  : outcome (list double) :=
  do gi <- subscript g i;
  do _ <- DXTBX_ASSERT (PrimFloat.ltb 0 gi) "g[i] > 0";
  do ci <- subscript c i;
  Ok (update i (PrimFloat.div ci gi) c).

(** The body of the tile loop of [get_corrected_data]. *)
Definition correct_tile (data gain pedestal : Image double) (i : nat)
    (result : Image double) : outcome (Image double) :=
  do rt <- Image_tile data i;
  do gt <- Image_tile gain i;
  do pt <- Image_tile pedestal i;
  let r := tile_data rt in
  let g := tile_data gt in
  let p := tile_data pt in
  do _ <- DXTBX_ASSERT ((versa_size g =? 0) || all_eq (accessor r) (accessor g))
            "g.size() == 0 || r.accessor().all_eq(g.accessor())";
  do _ <- DXTBX_ASSERT ((versa_size p =? 0) || all_eq (accessor r) (accessor p))
            "p.size() == 0 || r.accessor().all_eq(p.accessor())";
  let c := elems r in
  do c <- (if 0 <? versa_size p
           then for_acc 0 (versa_size r) (pedestal_step i (elems p)) c
           else Ok c);
  do c <- (if 0 <? versa_size g
           then for_acc 0 (versa_size r) (gain_step i (elems g)) c
           else Ok c);
  Ok (Image_push_back result (mkImageTile (mkversa (accessor r) c))).

Definition ImageSet_get_corrected_data (h : Heap) (index : nat)
  : M ImageSet (Image double) :=
  raw <- ImageSet_get_raw_data index ;;
  let data := as_double raw in
  gain <- ImageSet_get_gain h index ;;
  pedestal <- ImageSet_get_pedestal index ;;
  lift (DXTBX_ASSERT (n_tiles data =? n_tiles gain)
          "data.n_tiles() == gain.n_tiles()") ;;
  lift (DXTBX_ASSERT (n_tiles data =? n_tiles pedestal)
          "data.n_tiles() == pedestal.n_tiles()") ;;
  lift (for_acc 0 (n_tiles data) (correct_tile data gain pedestal) []).

Definition ImageSet_get_path (this : ImageSet) (index : nat) : outcome string :=
  do _ <- DXTBX_ASSERT (index <? ImageSet_size this) "index < indices_.size()";
  if ImageSetData_has_single_file_reader (is_data_ this)
  then Ok (ImageSetData_get_master_path (is_data_ this))
  else do phys <- subscript (is_indices_ this) index;
       Ok (ImageSetData_get_path (is_data_ this) phys).

Definition ImageSet_as_imageset (this : ImageSet) : outcome ImageSet := Ok this.

Definition ImageSet_complete_set (this : ImageSet) : outcome ImageSet :=
  Ok (ImageSet_new (is_data_ this)).

(** [const_ref(&indices_[first], last - first)]: an unchecked window. *)
Definition window (indices : list nat) (first count : nat) : outcome (list nat) :=
  if first + count <=? List.length indices
  then Ok (firstn count (skipn first indices))
  else Undefined.

Definition ImageSet_partial_set (this : ImageSet) (first last : nat)
  : outcome ImageSet :=
  do _ <- DXTBX_ASSERT (first <? last) "last > first";
  do w <- window (is_indices_ this) first (last - first);
  ImageSet_new_indices (is_data_ this) w.

(** [ImageSet()]: its members are default-constructed (no data, no index,
    an empty cache) and its body is the statement
    [DXTBX_ERROR("ImageSet needs imageset data")]. *)
Definition ImageSet_default : M Heap ImageSet :=
  data <- ImageSetData_default ;;
  lift (discarded (DXTBX_ERROR "ImageSet needs imageset data")) ;;
  ret (mkImageSet data [] DataCache_default).

(** *** ImageGrid *)

Record ImageGrid : Type := mkImageGrid {
  grid_base : ImageSet;
  grid_size_ : Z * Z
}.

Definition grid_checks (base : ImageSet) (grid_size : Z * Z) : outcome unit :=
  do _ <- DXTBX_ASSERT ((0 <? fst grid_size)%Z && (0 <? snd grid_size)%Z)
            "grid_size.all_gt(0)";
  DXTBX_ASSERT (size_t_of_int (int_mul (fst grid_size) (snd grid_size))
                  =? Z.of_nat (ImageSet_size base))%Z
    "grid_size[0] * grid_size[1] == size()".

Definition ImageGrid_new (data : ImageSetData) (grid_size : Z * Z)
  : outcome ImageGrid :=
  let base := ImageSet_new data in
  do _ <- grid_checks base grid_size;
  Ok (mkImageGrid base grid_size).

Definition ImageGrid_new_indices (data : ImageSetData) (indices : list nat)
    (grid_size : Z * Z) : outcome ImageGrid :=
  do base <- ImageSet_new_indices data indices;
  do _ <- grid_checks base grid_size;
  Ok (mkImageGrid base grid_size).

Definition ImageGrid_as_imageset (this : ImageGrid) : outcome ImageSet :=
  ImageSet_new_indices (is_data_ (grid_base this)) (is_indices_ (grid_base this)).

(** [DXTBX_ERROR("..."); return ImageSet();]. *)
Definition ImageGrid_complete_set (this : ImageGrid) : M Heap ImageSet :=
  lift (discarded (DXTBX_ERROR "Cannot get complete set from image grid")) ;;
  ImageSet_default.

Definition ImageGrid_partial_set (this : ImageGrid) (first last : nat)
  : M Heap ImageSet :=
  lift (discarded (DXTBX_ERROR "Cannot get partial set from image grid")) ;;
  ImageSet_default.

(** *** ImageSweep *)

Record ImageSweep : Type := mkImageSweep {
  sweep_base : ImageSet;
  sw_beam_ : beam_ptr;
  sw_detector_ : detector_ptr;
  sw_goniometer_ : goniometer_ptr;
  sw_scan_ : scan_ptr
}.

(** "Set the models for each image": the body of the loop both
    constructors end with, and the loop. *)
Definition sweep_set_models_at (base : ImageSet) (beam : beam_ptr)
    (detector : detector_ptr) (goniometer : goniometer_ptr) (scan : Scan)
    (i : nat) : M Heap unit :=
  ImageSet_set_beam_for_image base i beam ;;
  ImageSet_set_detector_for_image base i detector ;;
  ImageSet_set_goniometer_for_image base i goniometer ;;
  s <- lift (Scan_getitem scan (int_of_size_t i)) ;;
  ImageSet_set_scan_for_image base i (Some s).

Definition sweep_set_models (base : ImageSet) (beam : beam_ptr)
    (detector : detector_ptr) (goniometer : goniometer_ptr) (scan : Scan)
  : M Heap unit :=
  for_loop 0 (ImageSet_size base)
    (sweep_set_models_at base beam detector goniometer scan).

Definition ImageSweep_new (data : ImageSetData) (beam : Beam) (detector : Detector)
    (goniometer : Goniometer) (scan : Scan) : M Heap ImageSweep :=
  let base := ImageSet_new data in
  lift (DXTBX_ASSERT
          (Z.of_nat (ImageSetData_size data)
             =? size_t_of_int (Scan_get_num_images scan))%Z
          "data.size() == scan.get_num_images()") ;;
  sweep_set_models base (Some beam) (Some detector) (Some goniometer) scan ;;
  ret (mkImageSweep base (Some beam) (Some detector) (Some goniometer) (Some scan)).

(** "Check indices are sequential". *)
Definition indices_sequential (indices : list nat) : outcome unit :=
  for_acc 1 (List.length indices - 1)
    (fun i _ =>
       do a <- subscript indices i;
       do b <- subscript indices (i - 1);
       DXTBX_ASSERT (a =? b + 1) "indices[i] == indices[i-1]+1")
    tt.

Definition ImageSweep_new_indices (data : ImageSetData) (indices : list nat)
    (beam : Beam) (detector : Detector) (goniometer : Goniometer) (scan : Scan)
  : M Heap ImageSweep :=
  base <- lift (ImageSet_new_indices data indices) ;;
  lift (DXTBX_ASSERT
          (Z.of_nat (List.length indices)
             =? size_t_of_int (Scan_get_num_images scan))%Z
          "indices.size() == scan.get_num_images()") ;;
  lift (indices_sequential indices) ;;
  sweep_set_models base (Some beam) (Some detector) (Some goniometer) scan ;;
  ret (mkImageSweep base (Some beam) (Some detector) (Some goniometer) (Some scan)).

Definition ImageSweep_get_beam (this : ImageSweep) : beam_ptr := sw_beam_ this.
Definition ImageSweep_get_detector (this : ImageSweep) : detector_ptr :=
  sw_detector_ this.
Definition ImageSweep_get_goniometer (this : ImageSweep) : goniometer_ptr :=
  sw_goniometer_ this.
Definition ImageSweep_get_scan (this : ImageSweep) : scan_ptr := sw_scan_ this.

(** The collection-wide setters: the member, then every slot of the view. *)
Definition ImageSweep_set_beam (beam : Beam) : M (ImageSweep * Heap) unit :=
  fun st =>
    let this := mkImageSweep (sweep_base (fst st)) (Some beam) (sw_detector_ (fst st))
                             (sw_goniometer_ (fst st)) (sw_scan_ (fst st)) in
    let r := for_loop 0 (ImageSet_size (sweep_base this))
               (fun i => ImageSet_set_beam_for_image (sweep_base this) i (Some beam))
               (snd st) in
    (fst r, (this, snd r)).

Definition ImageSweep_set_detector (detector : Detector) : M (ImageSweep * Heap) unit :=
  fun st =>
    let this := mkImageSweep (sweep_base (fst st)) (sw_beam_ (fst st)) (Some detector)
                             (sw_goniometer_ (fst st)) (sw_scan_ (fst st)) in
    let r := for_loop 0 (ImageSet_size (sweep_base this))
               (fun i => ImageSet_set_detector_for_image (sweep_base this) i
                           (Some detector))
               (snd st) in
    (fst r, (this, snd r)).

Definition ImageSweep_set_goniometer (goniometer : Goniometer)
  : M (ImageSweep * Heap) unit :=
  fun st =>
    let this := mkImageSweep (sweep_base (fst st)) (sw_beam_ (fst st))
                             (sw_detector_ (fst st)) (Some goniometer)
                             (sw_scan_ (fst st)) in
    let r := for_loop 0 (ImageSet_size (sweep_base this))
               (fun i => ImageSet_set_goniometer_for_image (sweep_base this) i
                           (Some goniometer))
               (snd st) in
    (fst r, (this, snd r)).

Definition ImageSweep_set_scan (scan : Scan) : M (ImageSweep * Heap) unit :=
  fun st =>
    match DXTBX_ASSERT
            (size_t_of_int (Scan_get_num_images scan)
               =? Z.of_nat (ImageSet_size (sweep_base (fst st))))%Z
            "scan.get_num_images() == size()" with
    | Ok _ =>
        let this := mkImageSweep (sweep_base (fst st)) (sw_beam_ (fst st))
                                 (sw_detector_ (fst st)) (sw_goniometer_ (fst st))
                                 (Some scan) in
        let r := for_loop 0 (ImageSet_size (sweep_base this))
                   (fun i =>
                      s <- lift (Scan_getitem scan (int_of_size_t i)) ;;
                      ImageSet_set_scan_for_image (sweep_base this) i (Some s))
                   (snd st) in
        (fst r, (this, snd r))
    | Fatal w => (Fatal w, st)
    | Undefined => (Undefined, st)
    end.

(** "Override per-image model": the whole body is the statement
    [DXTBX_ERROR("Cannot set per-image model in sweep")]. *)
Definition ImageSweep_set_beam_for_image (this : ImageSweep) (index : nat)
    (beam : beam_ptr) : M Heap unit :=
  lift (discarded (DXTBX_ERROR "Cannot set per-image model in sweep")).

Definition ImageSweep_set_detector_for_image (this : ImageSweep) (index : nat)
    (detector : detector_ptr) : M Heap unit :=
  lift (discarded (DXTBX_ERROR "Cannot set per-image model in sweep")).

Definition ImageSweep_set_goniometer_for_image (this : ImageSweep) (index : nat)
    (goniometer : goniometer_ptr) : M Heap unit :=
  lift (discarded (DXTBX_ERROR "Cannot set per-image model in sweep")).

Definition ImageSweep_set_scan_for_image (this : ImageSweep) (index : nat)
    (scan : scan_ptr) : M Heap unit :=
  lift (discarded (DXTBX_ERROR "Cannot set per-image model in sweep")).

Definition ImageSweep_as_imageset (this : ImageSweep) : outcome ImageSet :=
  ImageSet_new_indices (is_data_ (sweep_base this)) (is_indices_ (sweep_base this)).

(** [DXTBX_ERROR("..."); return ImageSet();]. *)
Definition ImageSweep_complete_set (this : ImageSweep) : M Heap ImageSet :=
  lift (discarded (DXTBX_ERROR "Cannot get complete set from image sweep")) ;;
  ImageSet_default.

Definition ImageSweep_partial_set (this : ImageSweep) (first last : nat)
  : M Heap ImageSet :=
  lift (discarded (DXTBX_ERROR "Cannot get partial set from image sweep")) ;;
  ImageSet_default.

(** *** The virtual operations

    [as_imageset], [complete_set], [partial_set] and the per-image setters
    are virtual in ImageSet; a call goes to the override of the object's
    class. *)
Inductive AnyImageSet : Type :=
| Plain (s : ImageSet)
| Grid (g : ImageGrid)
| Sweep (w : ImageSweep).

Definition base_of (v : AnyImageSet) : ImageSet :=
  match v with
  | Plain s => s
  | Grid g => grid_base g
  | Sweep w => sweep_base w
  end.

Definition complete_set (v : AnyImageSet) : M Heap ImageSet :=
  match v with
  | Plain s => lift (ImageSet_complete_set s)
  | Grid g => ImageGrid_complete_set g
  | Sweep w => ImageSweep_complete_set w
  end.

Definition partial_set (v : AnyImageSet) (first last : nat) : M Heap ImageSet :=
  match v with
  | Plain s => lift (ImageSet_partial_set s first last)
  | Grid g => ImageGrid_partial_set g first last
  | Sweep w => ImageSweep_partial_set w first last
  end.

Definition set_beam_for_image (v : AnyImageSet) (index : nat) (beam : beam_ptr)
  : M Heap unit :=
  match v with
  | Sweep w => ImageSweep_set_beam_for_image w index beam
  | _ => ImageSet_set_beam_for_image (base_of v) index beam
  end.

Definition set_detector_for_image (v : AnyImageSet) (index : nat)
    (detector : detector_ptr) : M Heap unit :=
  match v with
  | Sweep w => ImageSweep_set_detector_for_image w index detector
  | _ => ImageSet_set_detector_for_image (base_of v) index detector
  end.

Definition set_goniometer_for_image (v : AnyImageSet) (index : nat)
    (goniometer : goniometer_ptr) : M Heap unit :=
  match v with
  | Sweep w => ImageSweep_set_goniometer_for_image w index goniometer
  | _ => ImageSet_set_goniometer_for_image (base_of v) index goniometer
  end.

Definition set_scan_for_image (v : AnyImageSet) (index : nat) (scan : scan_ptr)
  : M Heap unit :=
  match v with
  | Sweep w => ImageSweep_set_scan_for_image w index scan
  | _ => ImageSet_set_scan_for_image (base_of v) index scan
  end.

(** *** Equality of image sets *)

(** The loop of [operator==]: leave with [false] at the first pair of
    paths that differ. *)
Fixpoint same_paths_from (this other : ImageSet) (i count : nat) : outcome bool :=
  match count with
  | 0 => Ok true
  | S count' =>
      do a <- ImageSet_get_path this i;
      do b <- ImageSet_get_path other i;
      if negb (String.eqb a b) then Ok false
      else same_paths_from this other (S i) count'
  end.

Definition ImageSet_eq (this other : ImageSet) : outcome bool :=
  if ImageSet_size this =? ImageSet_size other
  then same_paths_from this other 0 (ImageSet_size this)
  else Ok false.

Definition ImageSet_neq (this other : ImageSet) : outcome bool :=
  do b <- ImageSet_eq this other;
  Ok (negb b).

Definition ImageSet_get_image_identifier (this : ImageSet) (index : nat)
  : outcome string :=
  do _ <- DXTBX_ASSERT (index <? ImageSet_size this) "index < indices_.size()";
  do phys <- subscript (is_indices_ this) index;
  Ok (ImageSetData_get_image_identifier (is_data_ this) phys).

(** [ImageGrid::from_imageset(imageset, grid_size)]. *)
Definition ImageGrid_get_grid_size (this : ImageGrid) : Z * Z := grid_size_ this.

Definition ImageGrid_from_imageset (imageset : ImageSet) (grid_size : Z * Z)
  : outcome ImageGrid :=
  ImageGrid_new_indices (ImageSet_data imageset) (ImageSet_indices imageset) grid_size.

(** *** The mask of an image *)

Section Mask.
(** [Panel::get_trusted_range_mask] is called by [get_mask] but is not
    declared by panel.h under src/: it is a parameter, and may throw. *)
Variable get_trusted_range_mask : DetectorPanel -> versa double -> outcome (versa bool).

(** The body of the first loop: push the trusted-range mask of panel [i]. *)
Definition trusted_tile (detector : Detector) (data : Image double) (i : nat)
    (mask : Image bool) : outcome (Image bool) :=
  do panel <- subscript detector i;
  do t <- Image_tile data i;
  do m <- get_trusted_range_mask panel (tile_data t);
  Ok (Image_push_back mask (mkImageTile m)).

(** [m1[j] = m1[j] && m2[j]]: [m2[j]] is read only when [m1[j]] is true. *)
Definition and_step (m2 : list bool) (j : nat) (m1 : list bool) : outcome (list bool) :=
  do a <- subscript m1 j;
  if a then do b <- subscript m2 j; Ok (update j b m1)
  else Ok (update j false m1).

(** The body of a combining loop: tile [i] of [mask] is and-ed in place
    with tile [i] of [other]. *)
Definition combine_tile (other : Image bool) (i : nat) (mask : Image bool)
  : outcome (Image bool) :=
  do t1 <- Image_tile mask i;
  do t2 <- Image_tile other i;
  let m1 := tile_data t1 in
  let m2 := tile_data t2 in
  do _ <- DXTBX_ASSERT (versa_size m1 =? versa_size m2) "m1.size() == m2.size()";
  do e <- for_acc 0 (versa_size m1) (and_step (elems m2)) (elems m1);
  Ok (update i (mkImageTile (mkversa (accessor m1) e)) mask).

(** "Combine with the dynamic mask" / "with the external lookup mask":
    skipped when [other] is empty. *)
Definition combine_mask (detector_size : nat) (other : Image bool) (text : string)
    (mask : Image bool) : outcome (Image bool) :=
  if negb (Image_empty other) then
    do _ <- DXTBX_ASSERT (n_tiles other =? detector_size) text;
    for_acc 0 detector_size (combine_tile other) mask
  else Ok mask.

Definition ImageSet_get_mask (h : Heap) (index : nat) : M ImageSet (Image bool) :=
  raw <- ImageSet_get_raw_data index ;;
  let data := as_double raw in
  this <- get ;;
  ptr <- lift (ImageSet_get_detector_for_image this h index) ;;
  detector <- lift (dereference ptr) ;;
  lift (DXTBX_ASSERT (n_tiles data =? List.length detector)
          "data.n_tiles() == detector.size()") ;;
  mask <- lift (for_acc 0 (List.length detector) (trusted_tile detector data) []) ;;
  phys <- lift (subscript (is_indices_ this) index) ;;
  let dyn_mask := ImageSetData_get_mask (is_data_ this) phys in
  mask <- lift (combine_mask (List.length detector) dyn_mask
                  "dyn_mask.n_tiles() == detector.size()" mask) ;;
  let ext_mask := get_data (el_mask_ (ImageSet_external_lookup this)) in
  lift (combine_mask (List.length detector) ext_mask
          "ext_mask.n_tiles() == detector.size()" mask).
End Mask.

End Collection.

Arguments Plain {Beam Goniometer} s.
Arguments Grid {Beam Goniometer} g.
Arguments empty_heap {Beam Goniometer}.

(* ------------------------------------------------------------------ *)
(** ** MultiPanelDetector (src/model/multi_panel_detector.h) *)

Section MultiPanel.
(** The panel class of this container ([Detector] of detector.h, which is
    not under src/) is a parameter, with the operations the container
    calls on it. *)
Variable panel_type : Type.
Variable panel_eq : panel_type -> panel_type -> bool.
Variable panel_is_value_in_trusted_range : panel_type -> double -> bool.
Variable panel_is_coord_valid : panel_type -> vec2 double -> bool.
Variable panel_millimeter_to_pixel : panel_type -> vec2 double -> vec2 double.
Variable panel_pixel_to_millimeter : panel_type -> vec2 double -> vec2 double.

Record MultiPanelDetector : Type := mkMultiPanelDetector {
  mpd_type_ : string;
  panel_list_ : list panel_type
}.

Definition MultiPanelDetector_default : MultiPanelDetector :=
  mkMultiPanelDetector "Unknown" [].

Definition MultiPanelDetector_add_panel (this : MultiPanelDetector)
    (panel : panel_type) : MultiPanelDetector :=
  mkMultiPanelDetector (mpd_type_ this) (panel_list_ this ++ [panel]).

Definition MultiPanelDetector_remove_panels (this : MultiPanelDetector)
  : MultiPanelDetector :=
  mkMultiPanelDetector (mpd_type_ this) [].

(** [panel_list_.erase(panel_list_.begin() + i)]: nothing checks [i]. *)
Definition MultiPanelDetector_remove_panel (this : MultiPanelDetector) (i : nat)
  : outcome MultiPanelDetector :=
  if i <? List.length (panel_list_ this)
  then Ok (mkMultiPanelDetector (mpd_type_ this)
             (firstn i (panel_list_ this) ++ skipn (S i) (panel_list_ this)))
  else Undefined.

Definition MultiPanelDetector_num_panels (this : MultiPanelDetector) : nat :=
  List.length (panel_list_ this).

(** [operator[]]: an unchecked subscript. *)
Definition MultiPanelDetector_at (this : MultiPanelDetector) (index : nat)
  : outcome panel_type :=
  subscript (panel_list_ this) index.

(** [operator==]: the sizes, then every pair of panels. *)
Definition MultiPanelDetector_eq (this detector : MultiPanelDetector) : outcome bool :=
  let same := List.length (panel_list_ this) =? List.length (panel_list_ detector) in
  if same then
    for_acc 0 (List.length (panel_list_ this))
      (fun (i : nat) (same : bool) =>
         if same then
           do a <- subscript (panel_list_ this) i;
           do b <- subscript (panel_list_ detector) i;
           Ok (panel_eq a b)
         else Ok false)
      same
  else Ok same.

(** An [int] panel number used as a subscript. *)
Definition panel_subscript (this : MultiPanelDetector) (panel : Z)
  : outcome panel_type :=
  subscript (panel_list_ this) (Z.to_nat (size_t_of_int panel)).

(** [0 <= panel && panel < panel_list_.size() && ...]. *)
Definition MultiPanelDetector_is_value_in_trusted_range (this : MultiPanelDetector)
    (panel : Z) (value : double) : outcome bool :=
  if (0 <=? panel)%Z then
    if (size_t_of_int panel <? Z.of_nat (List.length (panel_list_ this)))%Z then
      do p <- panel_subscript this panel;
      Ok (panel_is_value_in_trusted_range p value)
    else Ok false
  else Ok false.

Definition MultiPanelDetector_is_coord_valid (this : MultiPanelDetector)
    (pxy : Z * vec2 double) : outcome bool :=
  if (0 <=? fst pxy)%Z then
    if (size_t_of_int (fst pxy) <? Z.of_nat (List.length (panel_list_ this)))%Z then
      do p <- panel_subscript this (fst pxy);
      Ok (panel_is_coord_valid p (snd pxy))
    else Ok false
  else Ok false.

Definition MultiPanelDetector_millimeter_to_pixel (this : MultiPanelDetector)
    (pxy : Z * vec2 double) : outcome (vec2 double) :=
  do p <- panel_subscript this (fst pxy);
  Ok (panel_millimeter_to_pixel p (snd pxy)).

Definition MultiPanelDetector_pixel_to_millimeter (this : MultiPanelDetector)
    (pxy : Z * vec2 double) : outcome (vec2 double) :=
  do p <- panel_subscript this (fst pxy);
  Ok (panel_pixel_to_millimeter p (snd pxy)).
End MultiPanel.

(* ------------------------------------------------------------------ *)
(** ** Properties stated about the collection *)

(** The one-entry cache of a view holds the image of the index it names. *)
Definition cache_consistent (this : ImageSet) : Prop :=
  forall i phys,
    size_t_of_int (dc_index (is_data_cache_ this)) = Z.of_nat i ->
    nth_error (is_indices_ this) i = Some phys ->
    dc_image (is_data_cache_ this) = ImageSetData_get_data (is_data_ this) phys.

(** Every physical index of a view is below the data size. *)
Definition view_in_range (this : ImageSet) : Prop :=
  forall phys, In phys (is_indices_ this) -> phys < ImageSetData_size (is_data_ this).

(** The paths a view presents, in order. *)
Definition view_paths (this : ImageSet) : list string :=
  if ImageSetData_has_single_file_reader (is_data_ this)
  then map (fun _ => ImageSetData_get_master_path (is_data_ this)) (is_indices_ this)
  else map (ImageSetData_get_path (is_data_ this)) (is_indices_ this).

Fixpoint strings_eqb (a b : list string) : bool :=
  match a, b with
  | [], [] => true
  | x :: a', y :: b' => String.eqb x y && strings_eqb a' b'
  | _, _ => false
  end.

(** Two sample arrays that differ at position [i] at most. *)
Definition agree_except {A : Type} (i : nat) (a b : list A) : Prop :=
  List.length a = List.length b
  /\ forall k, k <> i -> nth_error a k = nth_error b k.

(** The elementwise conjunction of two masks, tile by tile, in the shape
    of the first. *)
Fixpoint and_elems (a b : list bool) : list bool :=
  match a, b with
  | x :: a', y :: b' => (x && y) :: and_elems a' b'
  | _, _ => a
  end.

Definition and_tile (a b : ImageTile bool) : ImageTile bool :=
  mkImageTile (mkversa (accessor (tile_data a))
                       (and_elems (elems (tile_data a)) (elems (tile_data b)))).

Fixpoint and_images (a b : Image bool) : Image bool :=
  match a, b with
  | x :: a', y :: b' => and_tile x y :: and_images a' b'
  | _, _ => a
  end.

(** Tiles of the same number of samples, each holding as many samples as
    its grid says. *)
Definition tile_compatible (a b : ImageTile bool) : Prop :=
  versa_size (tile_data a) = versa_size (tile_data b)
  /\ List.length (elems (tile_data a)) = versa_size (tile_data a)
  /\ List.length (elems (tile_data b)) = versa_size (tile_data b).

(* ------------------------------------------------------------------ *)
(** ** Sweeps of sweeps *)

Section SweepSlices.
Variables Beam Goniometer : Type.
(** [Scan::operator+=] is called by [complete_sweep] and [partial_sweep]
    but scan.h is not under src/: it is a parameter, and may throw. *)
Variable scan_append : Scan -> Scan -> outcome Scan.

(** The body of the merging loops:
    [scan += detail::safe_dereference(get_scan(i))]. *)
Definition merge_scan (get_scan : nat -> outcome scan_ptr) (i : nat) (scan : Scan)
  : outcome Scan :=
  do ptr <- get_scan i;
  do s <- safe_dereference ptr;
  scan_append scan s.

(** [complete_sweep]: the scans of every physical index of the data,
    merged, and a sweep over the whole data. *)
Definition ImageSweep_complete_sweep (this : ImageSweep Beam Goniometer)
  : M (Heap Beam Goniometer) (ImageSweep Beam Goniometer) :=
  fun h =>
    let data := is_data_ (sweep_base this) in
    (scan <- lift (do ptr <- ImageSetData_get_scan data h 0;
                   do scan <- safe_dereference ptr;
                   for_acc 1 (ImageSetData_size data - 1)
                     (merge_scan (ImageSetData_get_scan data h)) scan) ;;
     beam <- lift (safe_dereference (ImageSweep_get_beam this)) ;;
     detector <- lift (safe_dereference (ImageSweep_get_detector this)) ;;
     goniometer <- lift (safe_dereference (ImageSweep_get_goniometer this)) ;;
     ImageSweep_new data beam detector goniometer scan)%call h.

(** [partial_sweep(first, last)]: the scans of the images first .. last-1
    of the view, merged, and a sweep over that window of the indices. *)
Definition ImageSweep_partial_sweep (this : ImageSweep Beam Goniometer)
    (first last : nat)
  : M (Heap Beam Goniometer) (ImageSweep Beam Goniometer) :=
  fun h =>
    let base := sweep_base this in
    (lift (DXTBX_ASSERT (first <? last) "last > first") ;;
     scan <- lift (do ptr <- ImageSet_get_scan_for_image base h first;
                   do scan <- safe_dereference ptr;
                   for_acc (first + 1) (last - (first + 1))
                     (merge_scan (ImageSet_get_scan_for_image base h)) scan) ;;
     indices <- lift (window (is_indices_ base) first (last - first)) ;;
     beam <- lift (safe_dereference (ImageSweep_get_beam this)) ;;
     detector <- lift (safe_dereference (ImageSweep_get_detector this)) ;;
     goniometer <- lift (safe_dereference (ImageSweep_get_goniometer this)) ;;
     ImageSweep_new_indices (is_data_ base) indices beam detector goniometer scan)%call
      h.
End SweepSlices.

(* ------------------------------------------------------------------ *)
(** ** Concrete inputs *)

(** The double nearest to 0.1. *)
Definition tenth : double := 0x1.999999999999ap-4%float.

(** A panel facing the sample: fast = x, slow = y, origin (0, 0, 128);
    [D_] is the inverse of [d_]. *)
Definition example_panel (image_size : vec2 nat) : Panel double :=
  mkPanel "Unknown"
    (mkmat3 1 0 0 0 1 0 0 0 128)%float
    (mkmat3 1 0 0 0 1 0 0 0 0.0078125)%float
    (mkvec2 tenth tenth)
    image_size
    (mkvec2 0 65535)%float
    [].

(** Stand-ins for libm [sin] and [vec3::angle], used only to run the
    estimators on an input: they agree with the real functions where the
    angle is zero (the angle of a vector with itself, and [sin 0]). *)
Definition sin_near_zero (x : double) : double := x.
Definition angle_zero_on_equal (a b : vec3 double) : double :=
  if vec3_eqb a b then 0%float else 1%float.

(** What the documentation of [get_corrected_data] asks of one tile,
    "(raw - pedestal) / gain": every element, by position. *)
Fixpoint elementwise (f : double -> double -> double) (a b : list double)
  : list double :=
  match a, b with
  | x :: a', y :: b' => f x y :: elementwise f a' b'
  | _, _ => []
  end.

Definition corrected_tile_spec (r g p : versa double) : versa double :=
  let c := elems r in
  let c := if 0 <? versa_size p then elementwise PrimFloat.sub c (elems p) else c in
  let c := if 0 <? versa_size g then elementwise PrimFloat.div c (elems g) else c in
  mkversa (accessor r) c.

Fixpoint corrected_data_spec (data gain pedestal : Image double) : Image double :=
  match data, gain, pedestal with
  | rt :: data', gt :: gain', pt :: pedestal' =>
      mkImageTile (corrected_tile_spec (tile_data rt) (tile_data gt) (tile_data pt))
        :: corrected_data_spec data' gain' pedestal'
  | _, _, _ => []
  end.

(** What the spec says [get_gain] synthesises: one uniform tile per panel,
    value the panel's gain, shape the panel's image size. *)
Definition uniform_gain_map (detector : Detector) : Image double :=
  map (fun p => mkImageTile
                  (versa_fill (v2_1 (get_image_size (dp_panel p)),
                               v2_0 (get_image_size (dp_panel p)))
                              (dp_gain p)))
      detector.

(** "Contiguous and strictly increasing by 1": every index is its
    predecessor plus one. *)
Fixpoint increasing_from (a : nat) (rest : list nat) : bool :=
  match rest with
  | [] => true
  | b :: rest' => (b =? a + 1) && increasing_from b rest'
  end.

Definition increasing_by_one (indices : list nat) : bool :=
  match indices with
  | [] => true
  | a :: rest => increasing_from a rest
  end.

(** A one-row tile of two samples. *)
Definition tile_1x2 (a b : double) : ImageTile double :=
  mkImageTile (mkversa (1, 2) [a; b]).

(** A reader of [n] images, each one tile with the samples 10 and 20. *)
Definition example_reader (n : nat) : Reader :=
  mkReader n (fun _ => DoubleBuffer [tile_1x2 10 20]%float) (fun _ => [])
           false (fun _ => "image") (fun _ => "id").

(** The ImageSetData of [example_reader n] built on the empty heap, and the
    heap after its construction. *)
Definition example_data (n : nat) : ImageSetData :=
  mkImageSetData (example_reader n) 0 0 0 0 [] ExternalLookup_default.

Definition example_heap (n : nat) : Heap unit unit :=
  mkHeap [repeat None n] [repeat None n] [repeat None n] [repeat None n].

(** A detector of one 2x1 panel with the given scalar gain. *)
Definition example_detector (gain : double) : Detector :=
  [mkDetectorPanel (example_panel (mkvec2 2 1)) gain].

(** One image of two tiles, each a single sample, with gain and pedestal
    maps of the same shape in the lookup. *)
Definition tile_1x1 (a : double) : ImageTile double :=
  mkImageTile (mkversa (1, 1) [a]).

Definition example_data_two_tiles : ImageSetData :=
  mkImageSetData
    (mkReader 1 (fun _ => DoubleBuffer [tile_1x1 10; tile_1x1 20]%float)
              (fun _ => []) false (fun _ => "image") (fun _ => "id"))
    0 0 0 0 []
    (mkExternalLookup (mkExternalLookupItem EmptyString [])
                      (mkExternalLookupItem EmptyString [tile_1x1 2; tile_1x1 4]%float)
                      (mkExternalLookupItem EmptyString [tile_1x1 1; tile_1x1 2]%float)).

(** [example_data 1] with gain (2, 4) and pedestal (1, 2) in its lookup. *)
Definition example_data_with_lookups : ImageSetData :=
  ImageSetData_with_external_lookup
    (fun el =>
       with_pedestal (fun it => set_data it [tile_1x2 1 2]%float)
         (with_gain (fun it => set_data it [tile_1x2 2 4]%float) el))
    (example_data 1).

(** A view constructed from an ImageSetData, by either constructor. *)
Inductive view_of (data : ImageSetData) : ImageSet -> Prop :=
| view_all : view_of data (ImageSet_new data)
| view_indices (indices : list nat) (v : ImageSet) :
    ImageSet_new_indices data indices = Ok v -> view_of data v.

(** The slot arrays of an ImageSetData as its constructor leaves them:
    present in the heap, one slot per image of the reader. *)
Definition array_length {X : Type} (store : list (list X)) (handle : nat)
  : option nat :=
  option_map (@List.length X) (nth_error store handle).

Definition data_allocated {Beam Goniometer : Type}
    (h : Heap Beam Goniometer) (data : ImageSetData) : Prop :=
  array_length (beam_arrays h) (sd_beams_ data) = Some (ImageSetData_size data)
  /\ array_length (detector_arrays h) (sd_detectors_ data)
     = Some (ImageSetData_size data)
  /\ array_length (goniometer_arrays h) (sd_goniometers_ data)
     = Some (ImageSetData_size data)
  /\ array_length (scan_arrays h) (sd_scans_ data) = Some (ImageSetData_size data).

(** The four models of one physical slot. *)
Definition models_at {Beam Goniometer : Type}
    (h : Heap Beam Goniometer) (data : ImageSetData) (phys : nat)
  : outcome (beam_ptr Beam * detector_ptr * goniometer_ptr Goniometer * scan_ptr) :=
  do b <- ImageSetData_get_beam data h phys;
  do d <- ImageSetData_get_detector data h phys;
  do g <- ImageSetData_get_goniometer data h phys;
  do s <- ImageSetData_get_scan data h phys;
  Ok (b, d, g, s).

(** The store after [arr[phys] = v] on the array behind [handle]. *)
Definition write_slot {X : Type} (store : list (list (option X)))
    (handle phys : nat) (v : option X) : list (list (option X)) :=
  update handle (update phys v (nth handle store [])) store.

(** The heap after the four models of one physical slot are set. *)
Definition store_models {Beam Goniometer : Type}
    (h : Heap Beam Goniometer) (data : ImageSetData) (phys : nat)
    (b : beam_ptr Beam) (d : detector_ptr) (g : goniometer_ptr Goniometer)
    (s : scan_ptr) : Heap Beam Goniometer :=
  mkHeap (write_slot (beam_arrays h) (sd_beams_ data) phys b)
         (write_slot (detector_arrays h) (sd_detectors_ data) phys d)
         (write_slot (goniometer_arrays h) (sd_goniometers_ data) phys g)
         (write_slot (scan_arrays h) (sd_scans_ data) phys s).

(** What a constructed sweep promises: its members are the models it was
    given, and every image of the view reads the shared beam, detector and
    goniometer and the one-image slice of the scan at its own position. *)
Definition sweep_broadcast {Beam Goniometer : Type}
    (h : Heap Beam Goniometer) (sweep : ImageSweep Beam Goniometer)
    (beam : Beam) (detector : Detector) (goniometer : Goniometer) (scan : Scan)
  : Prop :=
  sw_beam_ sweep = Some beam
  /\ sw_detector_ sweep = Some detector
  /\ sw_goniometer_ sweep = Some goniometer
  /\ sw_scan_ sweep = Some scan
  /\ forall k, k < ImageSet_size (sweep_base sweep) ->
       ImageSet_get_beam_for_image (sweep_base sweep) h k = Ok (Some beam)
       /\ ImageSet_get_detector_for_image (sweep_base sweep) h k = Ok (Some detector)
       /\ ImageSet_get_goniometer_for_image (sweep_base sweep) h k
          = Ok (Some goniometer)
       /\ exists s,
            Scan_getitem scan (Z.of_nat k) = Ok s
            /\ Scan_get_num_images s = 1%Z
            /\ ImageSet_get_scan_for_image (sweep_base sweep) h k = Ok (Some s).

(** A collection of [n] images in one file: the reader reports a single
    file, whose path is what [path(0)] returns. *)
Definition example_single_file_data (n : nat) : ImageSetData :=
  mkImageSetData
    (mkReader n (fun _ => DoubleBuffer [tile_1x2 10 20]%float) (fun _ => [])
              true (fun i => if i =? 0 then "master.h5" else "frame")
              (fun _ => "id"))
    0 0 0 0 [] ExternalLookup_default.

(** A sweep as its constructors leave it: slot arrays allocated, and a
    view of the contiguous physical indices start .. start+len-1. *)
Definition sweep_contiguous {Beam Goniometer : Type}
    (h : Heap Beam Goniometer) (base : ImageSet) (start len : nat) : Prop :=
  data_allocated h (is_data_ base)
  /\ is_indices_ base = seq start len
  /\ start + len <= ImageSetData_size (is_data_ base).

(** A sweep over images 1 and 2 of a three-image collection, before any
    model is stored. *)
Definition example_sweep : ImageSweep unit unit :=
  mkImageSweep (mkImageSet (example_data 3) [1; 2] DataCache_default)
               None None None None.

(** The trusted-range masks of the panels over the tiles of an image, in
    panel order, ending at the first tile the panel function fails on. *)
Fixpoint trusted_masks
    (get_trusted_range_mask : DetectorPanel -> versa double -> outcome (versa bool))
    (detector : Detector) (data : Image double) : outcome (Image bool) :=
  match detector, data with
  | panel :: detector', t :: data' =>
      do m <- get_trusted_range_mask panel (tile_data t);
      do rest <- trusted_masks get_trusted_range_mask detector' data';
      Ok (mkImageTile m :: rest)
  | _, _ => Ok []
  end.

(** Two masks that can be combined: tile by tile of equal size, or the
    second one absent. *)
Definition masks_compatible (mask other : Image bool) : Prop :=
  other = [] \/ Forall2 tile_compatible mask other.

(** A stand-in for [Panel::get_trusted_range_mask], used only to run
    [get_mask] on an input: the samples the panel's
    [is_value_in_trusted_range] accepts. *)
Definition example_trusted_range_mask (panel : DetectorPanel) (data : versa double)
  : outcome (versa bool) :=
  Ok (versa_map (is_value_in_trusted_range (dp_panel panel)) data).

(** One image of one 1x3 tile (10, 20, 70000) whose reader supplies the
    dynamic mask (true, false, true), with an all-true mask in the lookup;
    and a heap holding a one-panel detector in its slot. *)
Definition example_masked_data : ImageSetData :=
  mkImageSetData
    (mkReader 1
       (fun _ => DoubleBuffer [mkImageTile (mkversa (1, 3) [10; 20; 70000]%float)])
       (fun _ => [mkImageTile (mkversa (1, 3) [true; false; true])])
       false (fun _ => "image") (fun _ => "id"))
    0 0 0 0 []
    (mkExternalLookup
       (mkExternalLookupItem "mask.pickle"
          [mkImageTile (mkversa (1, 3) [true; true; true])])
       (mkExternalLookupItem EmptyString [])
       (mkExternalLookupItem EmptyString [])).

Definition example_masked_heap : Heap unit unit :=
  mkHeap [[None]] [[Some (example_detector 1%float)]] [[None]] [[None]].

(** [Panel()], the default constructor: every matrix entry, both pixel
    sizes, both image sizes and both ends of the trusted range are zero. *)
Definition Panel_default : Panel double :=
  mkPanel "Unknown"
    (mkmat3 0 0 0 0 0 0 0 0 0)%float
    (mkmat3 0 0 0 0 0 0 0 0 0)%float
    (mkvec2 0 0)%float
    (mkvec2 0 0)
    (mkvec2 0 0)%float
    [].

(** Two panel lists of the same length whose panels are pairwise equal. *)
Fixpoint panels_eqb {panel_type : Type} (panel_eq : panel_type -> panel_type -> bool)
    (a b : list panel_type) : bool :=
  match a, b with
  | [], [] => true
  | x :: a', y :: b' => panel_eq x y && panels_eqb panel_eq a' b'
  | _, _ => false
  end.

(** A stand-in for [Scan::operator+=], used only to run the merging loops
    on an input: a scan that starts where the first one ends is joined to
    it, any other one is refused. *)
Definition example_scan_append (a b : Scan) : outcome Scan :=
  do _ <- DXTBX_ASSERT (snd (image_range_ a) + 1 =? fst (image_range_ b))%Z
            "scans are not contiguous";
  Ok (mkScan (fst (image_range_ a), snd (image_range_ b))).

(** A sweep over images 1 and 2 of a three-image collection with a scan of
    the images 5 and 6, and the heap as its constructor leaves it. *)
Definition example_built_sweep : ImageSweep unit unit :=
  mkImageSweep (mkImageSet (example_data 3) [1; 2] DataCache_default)
               (Some tt) (Some (example_detector 2%float)) (Some tt)
               (Some (mkScan (5, 6)%Z)).

Definition example_built_heap : Heap unit unit :=
  mkHeap [[None; Some tt; Some tt]]
         [[None; Some (example_detector 2%float); Some (example_detector 2%float)]]
         [[None; Some tt; Some tt]]
         [[None; Some (mkScan (5, 5)%Z); Some (mkScan (6, 6)%Z)]].

(** The scans a sweep's constructor leaves in the slots of its view: image
    k holds the one-image scan of image [first_image + k]. *)
Definition scans_sliced {Beam Goniometer : Type}
    (h : Heap Beam Goniometer) (base : ImageSet) (first_image : Z) : Prop :=
  forall k, k < ImageSet_size base ->
    ImageSet_get_scan_for_image base h k
      = Ok (Some (mkScan ((first_image + Z.of_nat k)%Z,
                          (first_image + Z.of_nat k)%Z))).

(** 2^52, the mantissa of a normal power of two in binary64. *)
Definition two52 : positive := 4503599627370496%positive.

(** [x] is the normal binary64 number 2^k. *)
Definition power_of_two (x : double) (k : Z) : Prop :=
  Prim2SF x = S754_finite false two52 (k - 52).

(** Scaling [x] by 2^k or by 2^-k stays within the normal binary64 numbers:
    [x] is a zero, an infinity, or a normal number (a mantissa of 53 bits)
    whose exponent plus [k] is a normal exponent.  NaN is left out: it is
    not [==] to itself. *)
Definition scales_in_range (x : double) (k : Z) : Prop :=
  match Prim2SF x with
  | S754_zero _ | S754_infinity _ => True
  | S754_nan => False
  | S754_finite _ m e =>
      digits2_pos m = 53%positive /\ (-1074 <= e + k <= 971)%Z
  end.

(** The example panel with pixels of 1/8 mm. *)
Definition example_panel_eighth : Panel double :=
  set_pixel_size (example_panel (mkvec2 100 100)) (mkvec2 0.125 0.125)%float.

(* ------------------------------------------------------------------ *)
(** ** Panel: scaling, resolution, mask *)

(** Multiplying and dividing a normal binary64 number by a normal power
    of two, on the specification of the two operations: the mantissa is
    kept and the exponent moves, as long as it stays a normal exponent. *)
Lemma digits_shifted (m : positive) :
  digits2_pos m = 53%positive ->
  Zdigits2 (Z.pos (two52 * m)) = 105%Z.
Proof.
  intros H. unfold two52. cbn [Pos.mul Zdigits2 digits2_pos]. rewrite H. reflexivity.
Qed.

Lemma shr_52 (m : positive) (e : Z) :
  shr (shr_record_of_loc (Z.pos (two52 * m)) loc_Exact) e 52
  = ({| shr_m := Z.pos m; shr_r := false; shr_s := false |}, (e + 52)%Z).
Proof. unfold two52, shr. cbn. reflexivity. Qed.

Lemma fexp_normal (d e : Z) :
  (-1074 <= d + e - 53)%Z -> fexp prec emax (d + e) = (d + e - 53)%Z.
Proof.
  intros H. unfold fexp, SpecFloat.emin, prec, emax. lia.
Qed.

Lemma round_exact (s : bool) (m : positive) (e : Z) :
  digits2_pos m = 53%positive ->
  (-1074 <= e <= 971)%Z ->
  (let '(mrs'', e'') :=
     shr_fexp prec emax (round_nearest_even (Z.pos m) loc_Exact) e loc_Exact in
   match shr_m mrs'' with
   | 0%Z => S754_zero s
   | Z.pos m =>
       if (e'' <=? emax - prec)%Z then S754_finite s m e'' else S754_infinity s
   | Z.neg _ => S754_nan
   end) = S754_finite s m e.
Proof.
  intros Hd He. unfold shr_fexp, round_nearest_even.
  cbn [Zdigits2]. rewrite Hd.
  rewrite (fexp_normal 53 e) by lia.
  replace (53 + e - 53 - e)%Z with 0%Z by lia.
  cbn [shr shr_record_of_loc shr_m].
  unfold emax, prec.
  destruct (e <=? 1024 - 53)%Z eqn:E; [reflexivity |].
  apply Z.leb_gt in E. lia.
Qed.

Lemma SFmul_power_of_two (s : bool) (m : positive) (e k : Z) :
  digits2_pos m = 53%positive ->
  (-1074 <= e + k <= 971)%Z ->
  SFmul prec emax (S754_finite s m e) (S754_finite false two52 (k - 52))
    = S754_finite s m (e + k).
Proof.
  intros Hd Hr. unfold SFmul. rewrite xorb_false_r, Pos.mul_comm.
  unfold binary_round_aux. unfold shr_fexp at 1.
  rewrite (digits_shifted m Hd).
  rewrite (fexp_normal 105 (e + (k - 52))) by lia.
  replace (105 + (e + (k - 52)) - 53 - (e + (k - 52)))%Z with 52%Z by lia.
  rewrite shr_52. cbn [shr_m loc_of_shr_record].
  replace (e + (k - 52) + 52)%Z with (e + k)%Z by lia.
  apply round_exact; assumption.
Qed.

Lemma div_eucl_exact (a b : Z) :
  (0 < b)%Z -> Z.div_eucl (a * b) b = (a, 0%Z).
Proof.
  intros Hb.
  pose proof (Z.div_mul a b ltac:(lia)) as Hq.
  pose proof (Z.mod_mul a b ltac:(lia)) as Hr.
  unfold Z.div, Z.modulo in Hq, Hr.
  destruct (Z.div_eucl (a * b) b) as [q r]. now subst.
Qed.

Lemma SFdiv_power_of_two (s : bool) (m : positive) (e k : Z) :
  digits2_pos m = 53%positive ->
  (-1074 <= e <= 971)%Z ->
  SFdiv prec emax (S754_finite s m (e + k)) (S754_finite false two52 (k - 52))
    = S754_finite s m e.
Proof.
  intros Hd Hr. unfold SFdiv, SFdiv_core_binary. rewrite xorb_false_r.
  cbn [Zdigits2]. rewrite Hd.
  change (digits2_pos two52) with 53%positive.
  replace (53 + (e + k) - (53 + (k - 52)))%Z with (e + 52)%Z by lia.
  replace (e + k - (k - 52))%Z with (e + 52)%Z by lia.
  assert (Hf : fexp prec emax (e + 52) = Z.max (e - 1) (-1074))
    by (unfold fexp, SpecFloat.emin, prec, emax; lia).
  rewrite Hf.
  destruct (Z.eq_dec e (-1074)) as [-> | Hne].
  - change (IntDef.Z.min (Z.max (-1074 - 1) (-1074)) (-1074 + 52))%Z with (-1074)%Z.
    change (-1074 + 52 - -1074)%Z with 52%Z. cbv iota.
    change (IntDef.Z.shiftl (Z.pos m) 52) with (Z.shiftl (Z.pos m) 52).
    rewrite Z.shiftl_mul_pow2 by lia.
    change (IntDef.Z.div_eucl) with Z.div_eucl.
    change (2 ^ 52)%Z with (Z.pos two52).
    rewrite div_eucl_exact by reflexivity.
    change (new_location (Z.pos two52) 0) with loc_Exact.
    unfold binary_round_aux. unfold shr_fexp at 1.
    cbn [Zdigits2]. rewrite Hd.
    change (fexp prec emax (53 + -1074) - -1074)%Z with 0%Z.
    cbn [shr shr_record_of_loc shr_m loc_of_shr_record].
    apply round_exact; [assumption | lia].
  - replace (IntDef.Z.min (Z.max (e - 1) (-1074)) (e + 52)) with (e - 1)%Z
      by (change IntDef.Z.min with Z.min; lia).
    replace (e + 52 - (e - 1))%Z with 53%Z by lia. cbv iota.
    change (IntDef.Z.shiftl (Z.pos m) 53) with (Z.shiftl (Z.pos m) 53).
    rewrite Z.shiftl_mul_pow2 by lia.
    change (IntDef.Z.div_eucl) with Z.div_eucl.
    replace (Z.pos m * 2 ^ 53)%Z with (Z.pos m~0 * Z.pos two52)%Z
      by (unfold two52; lia).
    rewrite div_eucl_exact by reflexivity.
    change (new_location (Z.pos two52) 0) with loc_Exact.
    unfold binary_round_aux. unfold shr_fexp at 1.
    cbn [Zdigits2 digits2_pos]. rewrite Hd.
    change (Z.pos (Pos.succ 53)) with 54%Z.
    rewrite (fexp_normal 54 (e - 1)) by lia.
    replace (54 + (e - 1) - 53 - (e - 1))%Z with 1%Z by lia.
    cbn [shr iter_pos shr_1 shr_record_of_loc shr_m shr_r shr_s orb
         loc_of_shr_record].
    replace (e - 1 + 1)%Z with e by lia.
    apply round_exact; [assumption | lia].
Qed.

(** One coordinate: scaled by a power of two and back, in binary64. *)
Lemma scale_and_back (x size : double) (k : Z) :
  power_of_two size k ->
  scales_in_range x k ->
  PrimFloat.div (PrimFloat.mul x size) size = x
  /\ PrimFloat.eqb (PrimFloat.div (PrimFloat.mul x size) size) x = true.
Proof.
  unfold power_of_two, scales_in_range. intros Hsize Hx.
  assert (Hback : Prim2SF (PrimFloat.div (PrimFloat.mul x size) size) = Prim2SF x).
  { rewrite FloatAxioms.div_spec, FloatAxioms.mul_spec, Hsize.
    pose proof (Prim2SF_valid x) as Hvalid.
    destruct (Prim2SF x) as [s|s| |s m e]; try contradiction.
    - cbn. now rewrite !xorb_false_r.
    - cbn. now rewrite !xorb_false_r.
    - destruct Hx as [Hd Hr].
      assert (He : (-1074 <= e <= 971)%Z).
      { cbn in Hvalid. unfold bounded, canonical_mantissa in Hvalid.
        apply andb_prop in Hvalid as [Hc Hle].
        apply Z.eqb_eq in Hc. apply Z.leb_le in Hle.
        rewrite Hd in Hc. unfold fexp, SpecFloat.emin, prec, emax in *. lia. }
      unfold SF64div, SF64mul.
      rewrite (@SFmul_power_of_two s m e k Hd Hr).
      apply SFdiv_power_of_two; assumption. }
  split; [now apply Prim2SF_inj |].
  rewrite FloatAxioms.eqb_spec, Hback. unfold SFeqb.
  destruct (Prim2SF x) as [s|s| |s m e]; try contradiction.
  - reflexivity.
  - destruct s; reflexivity.
  - cbn. rewrite Z.compare_refl, Pos.compare_cont_refl. destruct s; reflexivity.
Qed.

(** C7, as amended: in binary64, for a panel whose two pixel sizes are
    normal powers of two, 2^k0 and 2^k1, and every point p whose
    coordinates stay within the normal numbers under the two scalings
    (each one a zero, an infinity, or a normal number whose exponent plus
    k is a normal exponent), millimeter_to_pixel (pixel_to_millimeter p)
    is p, bit for bit, and [==] holds. *)
Theorem millimeter_pixel_roundtrip_exact (p : Panel double) (xy : vec2 double)
    (k0 k1 : Z) :
  power_of_two (v2_0 (pixel_size_ p)) k0 ->
  power_of_two (v2_1 (pixel_size_ p)) k1 ->
  scales_in_range (v2_0 xy) k0 ->
  scales_in_range (v2_1 xy) k1 ->
  millimeter_to_pixel p (pixel_to_millimeter p xy) = xy
  /\ vec2_eqb (millimeter_to_pixel p (pixel_to_millimeter p xy)) xy = true.
Proof.
  intros Hs0 Hs1 Hx Hy. destruct xy as [x y].
  unfold millimeter_to_pixel, pixel_to_millimeter, vec2_eqb.
  cbn [v2_0 v2_1 s_mul s_div s_eqb double_Scalar] in *.
  destruct (@scale_and_back x (v2_0 (pixel_size_ p)) k0 Hs0 Hx) as [Ex Bx].
  destruct (@scale_and_back y (v2_1 (pixel_size_ p)) k1 Hs1 Hy) as [Ey By].
  split; [now rewrite Ex, Ey | now rewrite Bx, By].
Qed.

Lemma millimeter_pixel_roundtrip_exact_witness :
  let p := example_panel_eighth in
  let xy := (mkvec2 3 0x1p-1000)%float in
  power_of_two (v2_0 (pixel_size_ p)) (-3)
  /\ power_of_two (v2_1 (pixel_size_ p)) (-3)
  /\ scales_in_range (v2_0 xy) (-3)
  /\ scales_in_range (v2_1 xy) (-3)
  /\ millimeter_to_pixel p (pixel_to_millimeter p xy) = xy
  /\ vec2_eqb (millimeter_to_pixel p (pixel_to_millimeter p xy)) xy = true.
Proof.
  cbv zeta.
  assert (Hs : power_of_two 0.125%float (-3)) by reflexivity.
  assert (Hx : scales_in_range 3%float (-3))
    by (unfold scales_in_range; vm_compute; split; [reflexivity | split; discriminate]).
  assert (Hy : scales_in_range 0x1p-1000%float (-3))
    by (unfold scales_in_range; vm_compute; split; [reflexivity | split; discriminate]).
  split; [exact Hs | split; [exact Hs | split; [exact Hx | split; [exact Hy |]]]].
  exact (@millimeter_pixel_roundtrip_exact example_panel_eighth
           (mkvec2 3 0x1p-1000)%float (-3) (-3) Hs Hs Hx Hy).
Defined.

(** C7 as stated fails in binary64: with pixel size 0.1 (positive) the
    point (3, 3) comes back as (3.0000000000000004, 3.0000000000000004),
    which [==] tells apart from (3, 3). *)
Lemma millimeter_pixel_roundtrip_binary64_inexact :
  let p := example_panel (mkvec2 100 100) in
  let xy := (mkvec2 3 3)%float in
  PrimFloat.ltb 0 (v2_0 (pixel_size_ p)) = true
  /\ PrimFloat.ltb 0 (v2_1 (pixel_size_ p)) = true
  /\ millimeter_to_pixel p (pixel_to_millimeter p xy)
     = (mkvec2 0x1.8000000000001p+1 0x1.8000000000001p+1)%float
  /\ vec2_eqb (millimeter_to_pixel p (pixel_to_millimeter p xy)) xy = false.
Proof. repeat split; reflexivity. Qed.

(** Outside that range the two scalings overflow and underflow: with the
    pixel sizes 4 and 0.5, both powers of two, the point (2^1023, 2^-1074)
    comes back as (infinity, 0). *)
Example millimeter_pixel_roundtrip_out_of_range :
  let p := set_pixel_size (example_panel (mkvec2 100 100)) (mkvec2 4 0.5)%float in
  let xy := (mkvec2 0x1p1023 0x1p-1074)%float in
  power_of_two (v2_0 (pixel_size_ p)) 2
  /\ power_of_two (v2_1 (pixel_size_ p)) (-1)
  /\ millimeter_to_pixel p (pixel_to_millimeter p xy) = (mkvec2 infinity 0)%float
  /\ vec2_eqb (millimeter_to_pixel p (pixel_to_millimeter p xy)) xy = false.
Proof. repeat split; reflexivity. Qed.

(** The scenario of the spec does round-trip in binary64. *)
Example millimeter_pixel_roundtrip_scenario :
  let p := example_panel (mkvec2 100 100) in
  pixel_to_millimeter p (mkvec2 10 10)%float = (mkvec2 1 1)%float
  /\ millimeter_to_pixel p (pixel_to_millimeter p (mkvec2 10 10)%float)
     = (mkvec2 10 10)%float.
Proof. split; reflexivity. Qed.

Section ResolutionFacts.
Context {T : Type} {ST : Scalar T}.
Variable sin : T -> T.
Variable angle : vec3 T -> vec3 T -> T.

(** C9: once the beam centre is found, get_max_resolution_elipse returns
    wavelength / (2 * sintheta) whatever sintheta is, so also when it
    compares equal to zero: the division is not guarded.
    get_resolution_at_pixel and get_max_resolution_at_corners return that
    quotient only for a non-zero sintheta and fail fatally on a zero one. *)
Theorem get_max_resolution_elipse_unguarded
    (p : Panel T) (s0 : vec3 T) (wavelength : T) (c_mm : vec2 T) (bc : vec3 T) :
  get_beam_centre p s0 = Ok c_mm ->
  get_beam_centre_lab p s0 = Ok bc ->
  let sintheta := elipse_sintheta sin angle p (millimeter_to_pixel p c_mm) bc in
  get_max_resolution_elipse sin angle p s0 wavelength
    = Ok (s_div wavelength (s_mul s_two sintheta))
  /\ (forall xy,
        get_resolution_at_pixel sin angle p s0 wavelength xy
          = if s_eqb (pixel_sintheta sin angle p bc xy) s_zero
            then Fatal "sintheta != 0"
            else Ok (s_div wavelength
                       (s_mul s_two (pixel_sintheta sin angle p bc xy))))
  /\ get_max_resolution_at_corners sin angle p s0 wavelength
     = if s_eqb (corners_sintheta sin angle p bc) s_zero
       then Fatal "sintheta != 0"
       else Ok (s_div wavelength (s_mul s_two (corners_sintheta sin angle p bc))).
Proof.
  intros Hc Hbc sintheta. split; [| split].
  - unfold get_max_resolution_elipse. rewrite Hc, Hbc. reflexivity.
  - intros xy. unfold get_resolution_at_pixel. rewrite Hbc. cbn [obind].
    destruct (s_eqb (pixel_sintheta sin angle p bc xy) s_zero); reflexivity.
  - unfold get_max_resolution_at_corners. rewrite Hbc. cbn [obind].
    destruct (s_eqb (corners_sintheta sin angle p bc) s_zero); reflexivity.
Qed.
End ResolutionFacts.

(** A beam along the panel normal meets the 100 x 100 panel at its origin
    corner: the crosshair point (0, c1) is the beam centre itself, the
    minimum angle is zero, and the estimator returns 1 / 0 = infinity, where
    the per-pixel estimator at that corner throws. *)
Lemma get_max_resolution_elipse_unguarded_witness :
  let p := example_panel (mkvec2 100 100) in
  let s0 := (mkvec3 0 0 1)%float in
  get_beam_centre p s0 = Ok (mkvec2 0 0)%float
  /\ get_beam_centre_lab p s0 = Ok (mkvec3 0 0 128)%float
  /\ elipse_sintheta sin_near_zero angle_zero_on_equal p
       (millimeter_to_pixel p (mkvec2 0 0)%float) (mkvec3 0 0 128)%float = 0%float
  /\ get_max_resolution_elipse sin_near_zero angle_zero_on_equal p s0 1%float
     = Ok infinity
  /\ get_resolution_at_pixel sin_near_zero angle_zero_on_equal p s0 1%float
       (mkvec2 0 0)%float = Fatal "sintheta != 0".
Proof.
  cbv zeta.
  pose proof (@get_max_resolution_elipse_unguarded double double_Scalar
                sin_near_zero angle_zero_on_equal
                (example_panel (mkvec2 100 100)) (mkvec3 0 0 1)%float 1%float
                (mkvec2 0 0)%float (mkvec3 0 0 128)%float
                eq_refl eq_refl) as [He [Hp _]].
  split; [reflexivity | split; [reflexivity | split; [reflexivity | split]]].
  - rewrite He. reflexivity.
  - rewrite Hp. reflexivity.
Defined.

(** C10: add_mask (f0, s0, f1, s1) appends one region whose components, in
    stored order, are f0, f1, s0, s1; the regions already there are kept,
    and get_mask returns the new one in that permuted order. *)
Theorem add_mask_component_order
    {T : Type} (p : Panel T) (f0 s0 f1 s1 : Z) :
  let m := get_mask (add_mask p f0 s0 f1 s1) in
  m = get_mask p ++ [mkint4 f0 f1 s0 s1]
  /\ firstn (List.length (get_mask p)) m = get_mask p
  /\ exists r,
       nth_error m (List.length (get_mask p)) = Some r
       /\ i4_0 r = f0 /\ i4_1 r = f1 /\ i4_2 r = s0 /\ i4_3 r = s1.
Proof.
  cbv zeta. unfold get_mask, add_mask; cbn [mask_].
  split; [reflexivity | split].
  - rewrite firstn_app, Nat.sub_diag, firstn_all. cbn. apply app_nil_r.
  - exists (mkint4 f0 f1 s0 s1). split.
    + rewrite nth_error_app2 by lia. rewrite Nat.sub_diag. reflexivity.
    + repeat split.
Qed.

(** A region stored by set_mask keeps the order it was given in, so the two
    writers disagree whenever s0 and f1 differ. *)
Lemma add_mask_differs_from_set_mask
    {T : Type} (p : Panel T) (f0 s0 f1 s1 : Z) :
  s0 <> f1 ->
  get_mask (add_mask p f0 s0 f1 s1)
    <> get_mask (set_mask p (get_mask p ++ [mkint4 f0 s0 f1 s1])).
Proof.
  intros Hne Heq. unfold get_mask, add_mask, set_mask in Heq; cbn [mask_] in Heq.
  apply app_inv_head in Heq. inversion Heq. congruence.
Qed.

(* ------------------------------------------------------------------ *)
(** ** Arrays, slots and views *)

(** Reduce the plumbing of a call and nothing else. *)
Ltac osimpl := cbn [obind DXTBX_ASSERT fst snd].
Ltac osimpl_in H := cbn [obind DXTBX_ASSERT fst snd] in H.

Lemma update_length {A : Type} (i : nat) (v : A) (l : list A) :
  List.length (update i v l) = List.length l.
Proof.
  revert i; induction l as [|x l IH]; intros [|i]; cbn; auto.
Qed.

Lemma nth_error_update_eq {A : Type} (i : nat) (v : A) (l : list A) :
  i < List.length l -> nth_error (update i v l) i = Some v.
Proof.
  revert i; induction l as [|x l IH]; intros [|i] Hlt; cbn in *; try lia; auto.
  apply IH; lia.
Qed.

Lemma nth_error_update_neq {A : Type} (i j : nat) (v : A) (l : list A) :
  i <> j -> nth_error (update i v l) j = nth_error l j.
Proof.
  revert i j; induction l as [|x l IH]; intros [|i] [|j] Hne; cbn; auto; try lia.
Qed.

Lemma update_app_middle {A : Type} (pre : list A) (x v : A) (suf : list A) :
  update (List.length pre) v (pre ++ x :: suf) = pre ++ v :: suf.
Proof.
  induction pre as [|y pre IH]; cbn; [reflexivity | now rewrite IH].
Qed.

Lemma subscript_Some {A : Type} (l : list A) (i : nat) (x : A) :
  nth_error l i = Some x -> subscript l i = Ok x.
Proof. intros H; unfold subscript; now rewrite H. Qed.

Lemma subscript_middle {A : Type} (pre : list A) (x : A) (suf : list A) :
  subscript (pre ++ x :: suf) (List.length pre) = Ok x.
Proof.
  apply subscript_Some. rewrite nth_error_app2 by lia.
  now rewrite Nat.sub_diag.
Qed.

Lemma index_in_view {A : Type} (l : list A) (i : nat) (x : A) :
  nth_error l i = Some x ->
  (i <? List.length l) = true /\ subscript l i = Ok x.
Proof.
  intros H; split.
  - apply Nat.ltb_lt, nth_error_Some; congruence.
  - now apply subscript_Some.
Qed.

Lemma slot_set_inv {X : Type} (store store' : list (list (option X)))
    (handle index : nat) (v : option X) (text : string) :
  slot_set store handle index v text = Ok store' ->
  exists arr,
    nth_error store handle = Some arr
    /\ index < List.length arr
    /\ store' = update handle (update index v arr) store.
Proof.
  unfold slot_set, subscript.
  destruct (nth_error store handle) as [arr|] eqn:Harr; osimpl; [|discriminate].
  destruct (index <? List.length arr) eqn:Hlt; osimpl; [|discriminate].
  intros H; inversion H; subst. exists arr; repeat split.
  now apply Nat.ltb_lt.
Qed.

Lemma slot_set_ok {X : Type} (store : list (list (option X)))
    (handle index : nat) (v : option X) (text : string) (arr : list (option X)) :
  nth_error store handle = Some arr ->
  index < List.length arr ->
  slot_set store handle index v text = Ok (update handle (update index v arr) store).
Proof.
  intros Harr Hlt. unfold slot_set, subscript. rewrite Harr; osimpl.
  apply Nat.ltb_lt in Hlt. now rewrite Hlt.
Qed.

Lemma slot_get_ok {X : Type} (store : list (list (option X)))
    (handle index : nat) (text : string) (arr : list (option X)) (v : option X) :
  nth_error store handle = Some arr ->
  nth_error arr index = Some v ->
  slot_get store handle index text = Ok v.
Proof.
  intros Harr Hv. unfold slot_get, subscript. rewrite Harr; osimpl.
  assert (Hlt : (index <? List.length arr) = true)
    by (apply Nat.ltb_lt, nth_error_Some; congruence).
  rewrite Hlt; osimpl. now rewrite Hv.
Qed.

(** Reading a slot back from the store [slot_set] produced. *)
Lemma slot_get_after_set {X : Type} (store store' : list (list (option X)))
    (handle index : nat) (v : option X) (text text' : string) :
  slot_set store handle index v text = Ok store' ->
  slot_get store' handle index text' = Ok v.
Proof.
  intros H. apply slot_set_inv in H as (arr & Harr & Hlt & ->).
  apply slot_get_ok with (arr := update index v arr).
  - apply nth_error_update_eq, nth_error_Some; congruence.
  - now apply nth_error_update_eq.
Qed.

Lemma slot_get_after_set_other {X : Type} (store store' : list (list (option X)))
    (handle index other : nat) (v : option X) (text text' : string) :
  slot_set store handle index v text = Ok store' ->
  other <> index ->
  slot_get store' handle other text' = slot_get store handle other text'.
Proof.
  intros H Hne. apply slot_set_inv in H as (arr & Harr & Hlt & ->).
  unfold slot_get, subscript.
  rewrite nth_error_update_eq by (apply nth_error_Some; congruence).
  rewrite Harr; osimpl. rewrite update_length.
  destruct (other <? List.length arr); osimpl; [|reflexivity].
  rewrite nth_error_update_neq by congruence. reflexivity.
Qed.

Lemma array_length_after_set {X : Type} (store store' : list (list (option X)))
    (handle index : nat) (v : option X) (text : string) (k : nat) :
  slot_set store handle index v text = Ok store' ->
  array_length store' k = array_length store k.
Proof.
  intros H. apply slot_set_inv in H as (arr & Harr & Hlt & ->).
  unfold array_length. destruct (Nat.eq_dec handle k) as [->|Hne].
  - rewrite nth_error_update_eq by (apply nth_error_Some; congruence).
    rewrite Harr; cbn. now rewrite update_length.
  - now rewrite nth_error_update_neq.
Qed.

Lemma view_of_data (data : ImageSetData) (v : ImageSet) :
  view_of data v -> is_data_ v = data.
Proof.
  intros Hv. destruct Hv as [|indices w H]; [reflexivity|].
  unfold ImageSet_new_indices in H.
  destruct (af_max indices) as [m| |]; osimpl_in H; try discriminate.
  destruct (m <? ImageSetData_size data); osimpl_in H; try discriminate.
  now inversion H.
Qed.

(** Unfold a call on a view at a logical index known to map to [phys]. *)
Ltac at_index H :=
  let Hlt := fresh "Hlt" in
  let Hsub := fresh "Hsub" in
  destruct (index_in_view _ _ H) as [Hlt Hsub];
  unfold ImageSet_set_beam_for_image, ImageSet_set_detector_for_image,
         ImageSet_set_goniometer_for_image, ImageSet_set_scan_for_image,
         ImageSet_get_beam_for_image, ImageSet_get_detector_for_image,
         ImageSet_get_goniometer_for_image, ImageSet_get_scan_for_image,
         ImageSet_size, bind, lift;
  rewrite ?Hlt, ?Hsub; cbn [DXTBX_ASSERT obind].

Ltac commit_inv H :=
  unfold ImageSetData_set_beam, ImageSetData_set_detector,
         ImageSetData_set_goniometer, ImageSetData_set_scan, commit in H;
  match type of H with
  | context [slot_set ?st ?hd ?i ?v ?t] =>
      let E := fresh "Eset" in
      destruct (slot_set st hd i v t) eqn:E; inversion H; subst; clear H
  end.

(* ------------------------------------------------------------------ *)
(** ** Views over one ImageSetData *)

(** C2, as amended: two views constructed from the same ImageSetData share
    its model slots, so a beam, detector, goniometer or scan set through one
    view at a physical index is what the other view reads at that index;
    each view holds its own copy of the ExternalLookup, so a write to a
    lookup item through one view changes that view's copy and leaves the
    other view's lookup as it was. *)
Theorem model_slots_shared_lookup_copied
    (Beam Goniometer : Type) (data : ImageSetData) (v1 v2 : ImageSet)
    (h : Heap Beam Goniometer) (i j phys : nat) :
  view_of data v1 ->
  view_of data v2 ->
  nth_error (is_indices_ v1) i = Some phys ->
  nth_error (is_indices_ v2) j = Some phys ->
  (forall beam h',
      ImageSet_set_beam_for_image v1 i beam h = (Ok tt, h') ->
      ImageSet_get_beam_for_image v2 h' j = Ok beam)
  /\ (forall detector h',
        ImageSet_set_detector_for_image v1 i detector h = (Ok tt, h') ->
        ImageSet_get_detector_for_image v2 h' j = Ok detector)
  /\ (forall goniometer h',
        ImageSet_set_goniometer_for_image v1 i goniometer h = (Ok tt, h') ->
        ImageSet_get_goniometer_for_image v2 h' j = Ok goniometer)
  /\ (forall scan h',
        ImageSet_set_scan_for_image v1 i scan h = (Ok tt, h') ->
        ImageSet_get_scan_for_image v2 h' j = Ok scan)
  /\ (forall f,
        ImageSet_external_lookup (ImageSet_with_external_lookup f v1)
          = f (ImageSetData_external_lookup data)
        /\ ImageSet_external_lookup v2 = ImageSetData_external_lookup data).
Proof.
  intros Hv1 Hv2 Hi Hj.
  pose proof (view_of_data Hv1) as D1. pose proof (view_of_data Hv2) as D2.
  subst data. clear Hv1 Hv2.
  repeat split.
  - intros beam h' Hset. revert Hset. at_index Hi. intros Hset. at_index Hj.
    commit_inv Hset. rewrite D2.
    unfold ImageSetData_get_beam; cbn. eapply slot_get_after_set; eauto.
  - intros detector h' Hset. revert Hset. at_index Hi. intros Hset. at_index Hj.
    commit_inv Hset. rewrite D2.
    unfold ImageSetData_get_detector; cbn. eapply slot_get_after_set; eauto.
  - intros goniometer h' Hset. revert Hset. at_index Hi. intros Hset. at_index Hj.
    commit_inv Hset. rewrite D2.
    unfold ImageSetData_get_goniometer; cbn. eapply slot_get_after_set; eauto.
  - intros scan h' Hset. revert Hset. at_index Hi.
    destruct (scan_is_null_or_single scan); osimpl; [|discriminate].
    intros Hset. at_index Hj.
    commit_inv Hset. rewrite D2.
    unfold ImageSetData_get_scan; cbn. eapply slot_get_after_set; eauto.
  - unfold ImageSet_external_lookup. now rewrite D2.
Qed.

Lemma model_slots_shared_lookup_copied_witness :
  let data := example_data 2 in
  let h := example_heap 2 in
  let v1 := ImageSet_new data in
  let v2 := mkImageSet data [1; 0] DataCache_default in
  let detector := Some (example_detector 2%float) in
  view_of data v1
  /\ view_of data v2
  /\ nth_error (is_indices_ v1) 0 = Some 0
  /\ nth_error (is_indices_ v2) 1 = Some 0
  /\ exists h',
       ImageSet_set_detector_for_image v1 0 detector h = (Ok tt, h')
       /\ ImageSet_get_detector_for_image v2 h' 1 = Ok detector.
Proof.
  cbv zeta.
  assert (Hv1 : view_of (example_data 2) (ImageSet_new (example_data 2)))
    by constructor.
  assert (Hv2 : view_of (example_data 2)
                  (mkImageSet (example_data 2) [1; 0] DataCache_default))
    by (apply view_indices with (indices := [1; 0]); reflexivity).
  split; [exact Hv1 | split; [exact Hv2 | split; [reflexivity | split; [reflexivity |]]]].
  eexists; split; [reflexivity |].
  exact (proj1 (proj2 (model_slots_shared_lookup_copied
                         (example_heap 2) 0 1 Hv1 Hv2 eq_refl eq_refl))
           (Some (example_detector 2%float)) _ eq_refl).
Defined.

(** C2 as stated fails for the ExternalLookup: two views of one
    ImageSetData, a gain map written through the first, and the second still
    reads an empty gain item. *)
Lemma lookup_write_not_visible_through_other_view :
  let data := example_data 1 in
  let v1 := ImageSet_new data in
  let v2 := ImageSet_new data in
  let img := [tile_1x2 2 4]%float in
  let v1' := ImageSet_with_external_lookup
               (with_gain (fun it => set_data it img)) v1 in
  view_of data v1
  /\ view_of data v2
  /\ get_data (el_gain_ (ImageSet_external_lookup v1')) = img
  /\ get_data (el_gain_ (ImageSet_external_lookup v2)) = []
  /\ get_data (el_gain_ (ImageSet_external_lookup v2))
     <> get_data (el_gain_ (ImageSet_external_lookup v1')).
Proof.
  cbv zeta. repeat split; try constructor. discriminate.
Qed.

(* ------------------------------------------------------------------ *)
(** ** Operations the specialised views are meant to refuse *)

(** C6 fails on the code: none of these operations throws.  Their bodies
    write [DXTBX_ERROR("...")] as a statement, without [throw], so the
    error object is dropped.  For every ImageGrid and every ImageSweep,
    complete_set and partial_set go on to [return ImageSet()], whose own
    body is again a bare [DXTBX_ERROR], and return normally a default
    image set with no image, over four new empty arrays; for every
    ImageSweep each per-image setter returns normally and the heap is the
    one the call started from. *)
Theorem specialised_views_do_not_refuse
    (Beam Goniometer : Type) (h : Heap Beam Goniometer) (first last index : nat) :
  (exists v h',
      ImageSet_default h = (Ok v, h')
      /\ ImageSet_size v = 0
      /\ beam_arrays h' = beam_arrays h ++ [[]]
      /\ detector_arrays h' = detector_arrays h ++ [[]]
      /\ goniometer_arrays h' = goniometer_arrays h ++ [[]]
      /\ scan_arrays h' = scan_arrays h ++ [[]])
  /\ (forall g : ImageGrid,
        complete_set (@Grid Beam Goniometer g) h = ImageSet_default h
        /\ partial_set (@Grid Beam Goniometer g) first last h = ImageSet_default h)
  /\ (forall w : ImageSweep Beam Goniometer,
        complete_set (Sweep w) h = ImageSet_default h
        /\ partial_set (Sweep w) first last h = ImageSet_default h
        /\ (forall beam, set_beam_for_image (Sweep w) index beam h = (Ok tt, h))
        /\ (forall detector,
              set_detector_for_image (Sweep w) index detector h = (Ok tt, h))
        /\ (forall goniometer,
              set_goniometer_for_image (Sweep w) index goniometer h = (Ok tt, h))
        /\ (forall scan, set_scan_for_image (Sweep w) index scan h = (Ok tt, h))).
Proof.
  split; [| split; [intros g | intros w]; repeat split].
  eexists; eexists. repeat split.
Qed.

(* ------------------------------------------------------------------ *)
(** ** The per-image scan setter *)

(** C8: the base set_scan_for_image throws on a non-null scan whose image
    count is not 1, before looking at the index and without touching the
    heap; plain and grid views inherit it.  With a null or one-image scan
    and an index whose physical slot exists, it stores the scan in that slot. *)
Theorem set_scan_for_image_needs_single_image
    (Beam Goniometer : Type) (this : ImageSet) (h : Heap Beam Goniometer)
    (index : nat) :
  (forall s,
      Scan_get_num_images s <> 1%Z ->
      ImageSet_set_scan_for_image this index (Some s) h
        = (Fatal "scan == NULL || scan->get_num_images() == 1", h)
      /\ set_scan_for_image (Plain this) index (Some s) h
         = (Fatal "scan == NULL || scan->get_num_images() == 1", h)
      /\ forall grid_size,
           set_scan_for_image (Grid (mkImageGrid this grid_size)) index (Some s) h
             = (Fatal "scan == NULL || scan->get_num_images() == 1", h))
  /\ (forall scan phys arr,
        scan = None \/ (exists s, scan = Some s /\ Scan_get_num_images s = 1%Z) ->
        nth_error (is_indices_ this) index = Some phys ->
        nth_error (scan_arrays h) (sd_scans_ (is_data_ this)) = Some arr ->
        phys < List.length arr ->
        exists h',
          ImageSet_set_scan_for_image this index scan h = (Ok tt, h')
          /\ ImageSet_get_scan_for_image this h' index = Ok scan).
Proof.
  split.
  - intros s Hn.
    assert (E : ImageSet_set_scan_for_image this index (Some s) h
                = (Fatal "scan == NULL || scan->get_num_images() == 1", h)).
    { unfold ImageSet_set_scan_for_image, bind, lift, scan_is_null_or_single.
      apply Z.eqb_neq in Hn. rewrite Hn. reflexivity. }
    repeat split; try exact E. intros grid_size. exact E.
  - intros scan phys arr Hscan Hidx Harr Hlt.
    assert (Hs : scan_is_null_or_single scan = true).
    { destruct Hscan as [-> | (s & -> & Hn)]; [reflexivity |].
      cbn. now apply Z.eqb_eq. }
    pose proof (slot_set_ok (scan_arrays h) (sd_scans_ (is_data_ this)) scan
                  "index < scans_.size()" Harr Hlt) as Hset.
    eexists. split.
    + at_index Hidx. rewrite Hs. osimpl.
      unfold ImageSetData_set_scan, commit. rewrite Hset. reflexivity.
    + at_index Hidx. unfold ImageSetData_get_scan. cbn [scan_arrays put_scans].
      eapply slot_get_after_set. exact Hset.
Qed.

Lemma set_scan_for_image_needs_single_image_witness :
  let this := ImageSet_new (example_data 2) in
  let h := example_heap 2 in
  Scan_get_num_images (mkScan (0, 1)%Z) <> 1%Z
  /\ ImageSet_set_scan_for_image this 1 (Some (mkScan (0, 1)%Z)) h
     = (Fatal "scan == NULL || scan->get_num_images() == 1", h)
  /\ Scan_get_num_images (mkScan (7, 7)%Z) = 1%Z
  /\ exists h',
       ImageSet_set_scan_for_image this 1 (Some (mkScan (7, 7)%Z)) h = (Ok tt, h')
       /\ ImageSet_get_scan_for_image this h' 1 = Ok (Some (mkScan (7, 7)%Z)).
Proof.
  cbv zeta.
  assert (Hn : Scan_get_num_images (mkScan (0, 1)%Z) <> 1%Z) by discriminate.
  pose proof (set_scan_for_image_needs_single_image
                (ImageSet_new (example_data 2)) (example_heap 2) 1) as [Hbad Hgood].
  split; [exact Hn | split; [exact (proj1 (Hbad _ Hn)) | split; [reflexivity |]]].
  apply (Hgood (Some (mkScan (7, 7)%Z)) 1 [None; None]).
  - right. exists (mkScan (7, 7)%Z). split; reflexivity.
  - reflexivity.
  - reflexivity.
  - cbn. lia.
Defined.

(* ------------------------------------------------------------------ *)
(** ** The gain map *)

(** In binary64 a value above zero is not at or below it. *)
Lemma positive_not_le_zero (g : double) :
  PrimFloat.ltb 0 g = true -> PrimFloat.leb g 0 = false.
Proof.
  rewrite FloatAxioms.ltb_spec, FloatAxioms.leb_spec. unfold SFltb, SFleb.
  change (Prim2SF 0) with (S754_zero false).
  destruct (Prim2SF g) as [s | s | | s m e]; cbn;
    try destruct s; try discriminate; reflexivity.
Qed.

Lemma Image_empty_nil {T : Type} (im : Image T) :
  Image_empty im = true -> im = [].
Proof. destruct im; [reflexivity | discriminate]. Qed.

(** The first loop, entered at panel [length pre] with the gains of the
    panels before it already stored. *)
Lemma gain_loop_positive (rest pre : Detector) (gpre gsuf : list double) :
  List.length gpre = List.length pre ->
  List.length gsuf = List.length rest ->
  (forall p, In p rest -> PrimFloat.leb (dp_gain p) 0 = false) ->
  gain_loop (pre ++ rest) (List.length pre) (List.length rest) (gpre ++ gsuf)
    = Ok (true, gpre ++ map dp_gain rest).
Proof.
  revert pre gpre gsuf.
  induction rest as [|p rest IH]; intros pre gpre gsuf Hg Hs Hpos.
  - destruct gsuf; [reflexivity | discriminate].
  - destruct gsuf as [|x gsuf]; [discriminate |].
    cbn [gain_loop List.length]. rewrite subscript_middle. osimpl.
    rewrite <- Hg, update_app_middle, subscript_middle. osimpl.
    rewrite Hpos by (left; reflexivity).
    specialize (IH (pre ++ [p]) (gpre ++ [dp_gain p]) gsuf).
    rewrite <- !app_assoc, !length_app in IH. cbn [app List.length] in IH.
    rewrite !Nat.add_1_r in IH. rewrite Hg. apply IH.
    + now rewrite Hg.
    + now inversion Hs.
    + intros q Hq. apply Hpos. now right.
Qed.

Lemma gain_loop_nonpositive (rest pre : Detector) (gpre gsuf : list double) :
  List.length gpre = List.length pre ->
  List.length gsuf = List.length rest ->
  (exists p, In p rest /\ PrimFloat.leb (dp_gain p) 0 = true) ->
  exists gain,
    gain_loop (pre ++ rest) (List.length pre) (List.length rest) (gpre ++ gsuf)
      = Ok (false, gain).
Proof.
  revert pre gpre gsuf.
  induction rest as [|p rest IH]; intros pre gpre gsuf Hg Hs (q & Hq & Hle).
  - destruct Hq.
  - destruct gsuf as [|x gsuf]; [discriminate |].
    cbn [gain_loop List.length]. rewrite subscript_middle. osimpl.
    rewrite <- Hg, update_app_middle, subscript_middle. osimpl.
    destruct (PrimFloat.leb (dp_gain p) 0) eqn:Hp; [eexists; reflexivity |].
    specialize (IH (pre ++ [p]) (gpre ++ [dp_gain p]) gsuf).
    rewrite <- !app_assoc, !length_app in IH. cbn [app List.length] in IH.
    rewrite !Nat.add_1_r in IH. rewrite Hg. apply IH.
    + now rewrite Hg.
    + now inversion Hs.
    + destruct Hq as [-> | Hq]; [congruence | exists q; now split].
Qed.

(** The second loop, entered at panel [length pre]. *)
Lemma gain_map_from (rest pre : Detector) (gpre : list double) (acc : Image double) :
  List.length gpre = List.length pre ->
  for_acc (List.length pre) (List.length rest)
          (gain_tile (pre ++ rest) (gpre ++ map dp_gain rest)) acc
    = Ok (acc ++ uniform_gain_map rest).
Proof.
  revert pre gpre acc.
  induction rest as [|p rest IH]; intros pre gpre acc Hg.
  - cbn. now rewrite app_nil_r.
  - cbn [for_acc List.length map]. unfold gain_tile at 1.
    rewrite subscript_middle. osimpl.
    rewrite <- Hg, subscript_middle. osimpl. unfold Image_push_back.
    specialize (IH (pre ++ [p]) (gpre ++ [dp_gain p])
                   (acc ++ [mkImageTile
                              (versa_fill (v2_1 (get_image_size (dp_panel p)),
                                           v2_0 (get_image_size (dp_panel p)))
                                          (dp_gain p))])).
    rewrite <- !app_assoc, !length_app in IH. cbn [app List.length] in IH.
    rewrite !Nat.add_1_r in IH. rewrite Hg. rewrite IH by (now rewrite Hg).
    reflexivity.
Qed.

Lemma gain_map_uniform (detector : Detector) :
  gain_map detector (map dp_gain detector) = Ok (uniform_gain_map detector).
Proof.
  exact (gain_map_from detector [] [] [] eq_refl).
Qed.

(** With the gain item filled, get_gain returns it and changes nothing. *)
Lemma get_gain_cached
    (Beam Goniometer : Type) (h : Heap Beam Goniometer) (index : nat)
    (this : ImageSet) :
  Image_empty (get_data (el_gain_ (ImageSet_external_lookup this))) = false ->
  ImageSet_get_gain h index this
    = (Ok (get_data (el_gain_ (ImageSet_external_lookup this))), this).
Proof.
  intros He. unfold ImageSet_get_gain, bind, get, ret. rewrite He. reflexivity.
Qed.

(** With an empty gain item and a panel gain at or below zero, get_gain
    leaves the view as it is and returns the empty image. *)
Lemma get_gain_skipped
    (Beam Goniometer : Type) (this : ImageSet) (h : Heap Beam Goniometer)
    (index : nat) (detector : Detector) :
  Image_empty (get_data (el_gain_ (ImageSet_external_lookup this))) = true ->
  ImageSet_get_detector_for_image this h index = Ok (Some detector) ->
  (exists p, In p detector /\ PrimFloat.leb (dp_gain p) 0 = true) ->
  ImageSet_get_gain h index this = (Ok [], this).
Proof.
  intros He Hdet Hbad.
  destruct (gain_loop_nonpositive detector [] []
              (repeat 0%float (List.length detector)) eq_refl
              (repeat_length _ _) Hbad) as [gain Hloop].
  unfold ImageSet_get_gain, bind, get, ret, lift, modify.
  rewrite He, Hdet. cbn [dereference]. cbn [app List.length] in Hloop.
  rewrite Hloop. cbn [fst snd].
  now rewrite (Image_empty_nil _ He).
Qed.

(** C3, as amended: with an empty gain item and the detector of image i at
    hand, if every panel gain is > 0 then get_gain builds one uniform tile
    per panel (the panel's gain over the panel's image size), stores it with
    an empty filename in the gain item of the view it was called on, and
    returns it; when the detector has at least one panel, every later
    get_gain through that view returns the stored map unchanged.  If some
    panel gain is <= 0, the gain item is left empty and the empty image is
    returned. *)
Theorem get_gain_synthesis
    (Beam Goniometer : Type) (this : ImageSet) (h : Heap Beam Goniometer)
    (index : nat) (detector : Detector) :
  Image_empty (get_data (el_gain_ (ImageSet_external_lookup this))) = true ->
  ImageSet_get_detector_for_image this h index = Ok (Some detector) ->
  ((forall p, In p detector -> PrimFloat.ltb 0 (dp_gain p) = true) ->
   exists this',
     ImageSet_get_gain h index this = (Ok (uniform_gain_map detector), this')
     /\ get_data (el_gain_ (ImageSet_external_lookup this'))
        = uniform_gain_map detector
     /\ get_filename (el_gain_ (ImageSet_external_lookup this')) = EmptyString
     /\ (detector <> [] ->
         forall (h2 : Heap Beam Goniometer) (j : nat),
           ImageSet_get_gain h2 j this' = (Ok (uniform_gain_map detector), this')))
  /\ ((exists p, In p detector /\ PrimFloat.leb (dp_gain p) 0 = true) ->
      ImageSet_get_gain h index this = (Ok [], this)).
Proof.
  intros He Hdet. split.
  - intros Hpos.
    assert (Hloop : gain_loop detector 0 (List.length detector)
                      (repeat 0%float (List.length detector))
                    = Ok (true, map dp_gain detector)).
    { apply (gain_loop_positive detector [] []
               (repeat 0%float (List.length detector)) eq_refl).
      - apply repeat_length.
      - intros p Hp. now apply positive_not_le_zero, Hpos. }
    eexists. split; [| split; [| split]].
    + unfold ImageSet_get_gain, bind, get, ret, lift, modify.
      rewrite He, Hdet. cbn [dereference]. rewrite Hloop. cbn [fst snd].
      rewrite gain_map_uniform. reflexivity.
    + reflexivity.
    + reflexivity.
    + intros Hne h2 j. apply get_gain_cached.
      destruct detector; [congruence | reflexivity].
  - intros Hbad. exact (get_gain_skipped this h index He Hdet Hbad).
Qed.

Lemma get_gain_synthesis_witness :
  let this := ImageSet_new (example_data 1) in
  let h := fun d => snd (ImageSet_set_detector_for_image this 0 (Some d)
                           (example_heap 1)) in
  Image_empty (get_data (el_gain_ (ImageSet_external_lookup this))) = true
  /\ ImageSet_get_detector_for_image this (h (example_detector 2%float)) 0
     = Ok (Some (example_detector 2%float))
  /\ (forall p, In p (example_detector 2%float) ->
                PrimFloat.ltb 0 (dp_gain p) = true)
  /\ fst (ImageSet_get_gain (h (example_detector 2%float)) 0 this)
     = Ok [mkImageTile (versa_fill (1, 2) 2%float)]
  /\ ImageSet_get_gain (h (example_detector 0%float)) 0 this = (Ok [], this).
Proof.
  cbv zeta.
  assert (Hpos : forall p, In p (example_detector 2%float) ->
                           PrimFloat.ltb 0 (dp_gain p) = true)
    by (intros p [<- | []]; reflexivity).
  split; [reflexivity | split; [reflexivity | split; [exact Hpos | split]]].
  - destruct (proj1 (get_gain_synthesis (ImageSet_new (example_data 1))
                       (snd (ImageSet_set_detector_for_image
                               (ImageSet_new (example_data 1)) 0
                               (Some (example_detector 2%float)) (example_heap 1)))
                       0 eq_refl eq_refl) Hpos) as (this' & Hrun & _).
    rewrite Hrun. reflexivity.
  - apply (proj2 (get_gain_synthesis (ImageSet_new (example_data 1))
                    (snd (ImageSet_set_detector_for_image
                            (ImageSet_new (example_data 1)) 0
                            (Some (example_detector 0%float)) (example_heap 1)))
                    0 eq_refl eq_refl)).
    eexists; split; [left; reflexivity | reflexivity].
Defined.

(** C3 as stated fails twice over.  A detector without panels has every
    panel gain > 0, yet after get_gain the gain item is still empty.  And
    the map is cached in the view, not in the collection: after one view has
    synthesised from a gain-2 detector, another view of the same
    ImageSetData still has an empty gain item and synthesises again, here
    from the gain-3 detector set in between, while the first view keeps
    returning its gain-2 map. *)
Lemma get_gain_cache_per_view_and_possibly_empty :
  let data := example_data 1 in
  let v1 := ImageSet_new data in
  let v2 := ImageSet_new data in
  let with_detector := fun d (h : Heap unit unit) =>
        snd (ImageSet_set_detector_for_image v1 0 (Some d) h) in
  let h_none := with_detector [] (example_heap 1) in
  let h_two := with_detector (example_detector 2%float) (example_heap 1) in
  let h_three := with_detector (example_detector 3%float) h_two in
  let v1' := snd (ImageSet_get_gain h_two 0 v1) in
  (forall p, In p ([] : Detector) -> PrimFloat.ltb 0 (dp_gain p) = true)
  /\ fst (ImageSet_get_gain h_none 0 v1) = Ok []
  /\ Image_empty (get_data (el_gain_ (ImageSet_external_lookup
                                        (snd (ImageSet_get_gain h_none 0 v1)))))
     = true
  /\ view_of data v1 /\ view_of data v2
  /\ get_data (el_gain_ (ImageSet_external_lookup v1'))
     = uniform_gain_map (example_detector 2%float)
  /\ Image_empty (get_data (el_gain_ (ImageSet_external_lookup v2))) = true
  /\ fst (ImageSet_get_gain h_three 0 v2)
     = Ok (uniform_gain_map (example_detector 3%float))
  /\ fst (ImageSet_get_gain h_three 0 v1')
     = Ok (uniform_gain_map (example_detector 2%float)).
Proof.
  cbv zeta.
  split; [intros p [] |].
  repeat split; constructor.
Qed.

(* ------------------------------------------------------------------ *)
(** ** The corrected image *)

(** C1 fails on the code: the pedestal and gain loops of get_corrected_data
    run [j] over the tile but subscript with the tile index [i].  One image
    of one tile (10, 20) with gain (2, 4) and pedestal (1, 2): tile 0 gets
    its element 0 corrected twice, ((10 - 1 - 1) / 2) / 2 = 2, and element 1
    is left raw, where (raw - pedestal) / gain is (4.5, 4.5). *)
Theorem get_corrected_data_subscripts_by_tile :
  let this := ImageSet_new example_data_with_lookups in
  let h := example_heap 1 in
  let raw := [tile_1x2 10 20]%float in
  let gain := [tile_1x2 2 4]%float in
  let pedestal := [tile_1x2 1 2]%float in
  fst (ImageSet_get_raw_data 0 this) = Ok (DoubleBuffer raw)
  /\ fst (ImageSet_get_gain h 0 this) = Ok gain
  /\ fst (ImageSet_get_pedestal 0 this) = Ok pedestal
  /\ fst (ImageSet_get_corrected_data h 0 this) = Ok [tile_1x2 2 20]%float
  /\ corrected_data_spec raw gain pedestal = [tile_1x2 4.5 4.5]%float.
Proof. cbv zeta. repeat split. Qed.

(** With two tiles of one sample each, the loops of the second tile
    subscript element 1 of one-element arrays. *)
Example get_corrected_data_second_tile_out_of_range :
  let this := ImageSet_new example_data_two_tiles in
  fst (ImageSet_get_corrected_data (example_heap 1) 0 this) = Undefined
  /\ corrected_data_spec [tile_1x1 10; tile_1x1 20]%float
                         [tile_1x1 2; tile_1x1 4]%float
                         [tile_1x1 1; tile_1x1 2]%float
     = [tile_1x1 4.5; tile_1x1 4.5]%float.
Proof. cbv zeta. split; reflexivity. Qed.

(** C4 fails on the code: with empty gain and pedestal items and a panel
    gain of 0 (no synthesis), get_gain returns the empty image and
    get_corrected_data throws on its tile-count check instead of returning
    the one-tile raw image. *)
Theorem get_corrected_data_empty_lookups_throws :
  let this := ImageSet_new (example_data 1) in
  let h := snd (ImageSet_set_detector_for_image this 0
                  (Some (example_detector 0%float)) (example_heap 1)) in
  Image_empty (get_data (el_gain_ (ImageSet_external_lookup this))) = true
  /\ Image_empty (get_data (el_pedestal_ (ImageSet_external_lookup this))) = true
  /\ ImageSet_get_detector_for_image this h 0 = Ok (Some (example_detector 0%float))
  /\ fst (ImageSet_get_raw_data 0 this) = Ok (DoubleBuffer [tile_1x2 10 20]%float)
  /\ ImageSet_get_gain h 0 this = (Ok [], this)
  /\ fst (ImageSet_get_corrected_data h 0 this)
     = Fatal "data.n_tiles() == gain.n_tiles()".
Proof. cbv zeta. repeat split. Qed.

(* ------------------------------------------------------------------ *)
(** ** Constructing a sweep *)

Lemma write_slot_set {X : Type} (store : list (list (option X)))
    (handle phys : nat) (v : option X) (text : string) (n : nat) :
  array_length store handle = Some n ->
  phys < n ->
  slot_set store handle phys v text = Ok (write_slot store handle phys v).
Proof.
  unfold array_length, write_slot. intros Hlen Hlt.
  destruct (nth_error store handle) as [arr|] eqn:Harr; [|discriminate].
  cbn in Hlen. inversion Hlen; subst.
  rewrite (nth_error_nth _ _ [] Harr). now apply slot_set_ok.
Qed.

Lemma write_slot_get {X : Type} (store : list (list (option X)))
    (handle phys : nat) (v : option X) (text : string) (n : nat) :
  array_length store handle = Some n ->
  phys < n ->
  slot_get (write_slot store handle phys v) handle phys text = Ok v.
Proof.
  intros Hlen Hlt. eapply slot_get_after_set.
  exact (write_slot_set store handle v EmptyString Hlen Hlt).
Qed.

Lemma write_slot_get_other {X : Type} (store : list (list (option X)))
    (handle phys other : nat) (v : option X) (text : string) (n : nat) :
  array_length store handle = Some n ->
  phys < n ->
  other <> phys ->
  slot_get (write_slot store handle phys v) handle other text
    = slot_get store handle other text.
Proof.
  intros Hlen Hlt Hne. eapply slot_get_after_set_other; [| exact Hne].
  exact (write_slot_set store handle v EmptyString Hlen Hlt).
Qed.

Lemma write_slot_length {X : Type} (store : list (list (option X)))
    (handle phys k : nat) (v : option X) (n : nat) :
  array_length store handle = Some n ->
  phys < n ->
  array_length (write_slot store handle phys v) k = array_length store k.
Proof.
  intros Hlen Hlt. eapply array_length_after_set.
  exact (write_slot_set store handle v EmptyString Hlen Hlt).
Qed.

Section StoreModels.
Variables Beam Goniometer : Type.
Variable h : Heap Beam Goniometer.
Variable data : ImageSetData.
Variable phys : nat.
Variable b : beam_ptr Beam.
Variable d : detector_ptr.
Variable g : goniometer_ptr Goniometer.
Variable s : scan_ptr.
Hypothesis Hal : data_allocated h data.
Hypothesis Hphys : phys < ImageSetData_size data.

Lemma store_models_allocated : data_allocated (store_models h data phys b d g s) data.
Proof.
  destruct Hal as (Hb & Hd & Hg & Hs).
  unfold data_allocated, store_models; cbn [beam_arrays detector_arrays
    goniometer_arrays scan_arrays].
  repeat split;
    (etransitivity; [eapply write_slot_length; eassumption | assumption]).
Qed.

Lemma store_models_at :
  models_at (store_models h data phys b d g s) data phys = Ok (b, d, g, s).
Proof.
  destruct Hal as (Hb & Hd & Hg & Hs).
  unfold models_at, store_models, ImageSetData_get_beam, ImageSetData_get_detector,
    ImageSetData_get_goniometer, ImageSetData_get_scan;
    cbn [beam_arrays detector_arrays goniometer_arrays scan_arrays].
  rewrite (write_slot_get _ _ b _ Hb Hphys), (write_slot_get _ _ d _ Hd Hphys),
    (write_slot_get _ _ g _ Hg Hphys), (write_slot_get _ _ s _ Hs Hphys).
  reflexivity.
Qed.

Lemma store_models_other (other : nat) :
  other <> phys ->
  models_at (store_models h data phys b d g s) data other = models_at h data other.
Proof.
  intros Hne. destruct Hal as (Hb & Hd & Hg & Hs).
  unfold models_at, store_models, ImageSetData_get_beam, ImageSetData_get_detector,
    ImageSetData_get_goniometer, ImageSetData_get_scan;
    cbn [beam_arrays detector_arrays goniometer_arrays scan_arrays].
  rewrite (write_slot_get_other _ _ b _ Hb Hphys Hne),
    (write_slot_get_other _ _ d _ Hd Hphys Hne),
    (write_slot_get_other _ _ g _ Hg Hphys Hne),
    (write_slot_get_other _ _ s _ Hs Hphys Hne).
  reflexivity.
Qed.
End StoreModels.

Lemma int_of_size_t_small (n : nat) :
  (Z.of_nat n < 2 ^ 31)%Z -> int_of_size_t n = Z.of_nat n.
Proof.
  intros Hn. unfold int_of_size_t. rewrite Z.mod_small; lia.
Qed.

Lemma size_t_of_int_small (i : Z) :
  (0 <= i < 2 ^ 31)%Z -> size_t_of_int i = i.
Proof.
  intros Hi. unfold size_t_of_int. apply Z.mod_small. lia.
Qed.

Lemma Scan_getitem_in_range (scan : Scan) (k : nat) :
  (Z.of_nat k < Scan_get_num_images scan)%Z ->
  Scan_getitem scan (Z.of_nat k)
    = Ok (mkScan ((fst (image_range_ scan) + Z.of_nat k)%Z,
                  (fst (image_range_ scan) + Z.of_nat k)%Z)).
Proof.
  intros Hk. unfold Scan_getitem.
  assert (H0 : (0 <=? Z.of_nat k)%Z = true) by (apply Z.leb_le; lia).
  apply Z.ltb_lt in Hk. rewrite H0, Hk. reflexivity.
Qed.

Lemma single_image_slice (x : Z) : Scan_get_num_images (mkScan (x, x)) = 1%Z.
Proof. unfold Scan_get_num_images; cbn [image_range_ fst snd]. lia. Qed.

(** One pass of the model-setting loop. *)
Lemma sweep_set_models_at_run
    (Beam Goniometer : Type) (h : Heap Beam Goniometer) (base : ImageSet)
    (b : beam_ptr Beam) (d : detector_ptr) (g : goniometer_ptr Goniometer)
    (scan s : Scan) (i phys : nat) :
  data_allocated h (is_data_ base) ->
  nth_error (is_indices_ base) i = Some phys ->
  phys < ImageSetData_size (is_data_ base) ->
  Scan_getitem scan (int_of_size_t i) = Ok s ->
  Scan_get_num_images s = 1%Z ->
  sweep_set_models_at base b d g scan i h
    = (Ok tt, store_models h (is_data_ base) phys b d g (Some s)).
Proof.
  intros (Hb & Hd & Hg & Hs) Hidx Hphys Hitem Hone.
  unfold sweep_set_models_at. at_index Hidx. rewrite Hitem.
  unfold scan_is_null_or_single. apply Z.eqb_eq in Hone. rewrite Hone. osimpl.
  unfold ImageSetData_set_beam, ImageSetData_set_detector,
    ImageSetData_set_goniometer, ImageSetData_set_scan, commit.
  rewrite (write_slot_set _ _ b _ Hb Hphys).
  cbn [put_beams beam_arrays detector_arrays goniometer_arrays scan_arrays].
  rewrite (write_slot_set _ _ d _ Hd Hphys).
  cbn [put_detectors beam_arrays detector_arrays goniometer_arrays scan_arrays].
  rewrite (write_slot_set _ _ g _ Hg Hphys).
  cbn [put_goniometers beam_arrays detector_arrays goniometer_arrays scan_arrays].
  rewrite (write_slot_set _ _ (Some s) _ Hs Hphys).
  reflexivity.
Qed.

Lemma nth_error_seq_at (start len k : nat) :
  k < len -> nth_error (seq start len) k = Some (start + k).
Proof.
  intros Hk. rewrite (nth_error_nth' _ 0) by (rewrite length_seq; exact Hk).
  now rewrite seq_nth.
Qed.

(** The model-setting loop over a contiguous view, entered at position
    [lo]: it ends normally, has written the slots of the positions from
    [lo] on, and has left every other slot alone. *)
Lemma sweep_set_models_loop
    (Beam Goniometer : Type) (base : ImageSet) (start len : nat)
    (b : beam_ptr Beam) (d : detector_ptr) (g : goniometer_ptr Goniometer)
    (scan : Scan) :
  is_indices_ base = seq start len ->
  start + len <= ImageSetData_size (is_data_ base) ->
  Scan_get_num_images scan = Z.of_nat len ->
  (Z.of_nat len < 2 ^ 31)%Z ->
  forall (count lo : nat) (h : Heap Beam Goniometer),
    lo + count = len ->
    data_allocated h (is_data_ base) ->
    exists h',
      for_loop lo count (sweep_set_models_at base b d g scan) h = (Ok tt, h')
      /\ data_allocated h' (is_data_ base)
      /\ (forall k, lo <= k < len ->
            models_at h' (is_data_ base) (start + k)
              = Ok (b, d, g,
                    Some (mkScan ((fst (image_range_ scan) + Z.of_nat k)%Z,
                                  (fst (image_range_ scan) + Z.of_nat k)%Z))))
      /\ (forall phys, phys < start + lo \/ start + len <= phys ->
            models_at h' (is_data_ base) phys = models_at h (is_data_ base) phys).
Proof.
  intros Hidx Hsize Hnum H31.
  induction count as [|count IH]; intros lo h Hlo Hal.
  - exists h.
    split; [reflexivity | split; [exact Hal | split; [intros k Hk; lia | reflexivity]]].
  - assert (Hi : nth_error (is_indices_ base) lo = Some (start + lo))
      by (rewrite Hidx; apply nth_error_seq_at; lia).
    assert (Hphys : start + lo < ImageSetData_size (is_data_ base)) by lia.
    assert (Hitem : Scan_getitem scan (int_of_size_t lo)
                    = Ok (mkScan ((fst (image_range_ scan) + Z.of_nat lo)%Z,
                                  (fst (image_range_ scan) + Z.of_nat lo)%Z))).
    { rewrite int_of_size_t_small by lia. apply Scan_getitem_in_range. lia. }
    pose proof (@sweep_set_models_at_run _ _ h base b d g scan _ lo _
                  Hal Hi Hphys Hitem (single_image_slice _)) as Hrun.
    assert (Hlo' : S lo + count = len) by lia.
    destruct (IH (S lo) _ Hlo'
                 (@store_models_allocated _ _ h (is_data_ base) (start + lo) b d g
                    (Some (mkScan ((fst (image_range_ scan) + Z.of_nat lo)%Z,
                                   (fst (image_range_ scan) + Z.of_nat lo)%Z)))
                    Hal Hphys))
      as (h' & Hloop & Hal' & Hnew & Hframe).
    exists h'. split; [| split; [exact Hal' | split]].
    + cbn [for_loop]. unfold bind. rewrite Hrun. exact Hloop.
    + intros k Hk. destruct (Nat.eq_dec k lo) as [-> | Hne].
      * rewrite Hframe by lia. now apply store_models_at.
      * apply Hnew. lia.
    + intros phys Hout. rewrite Hframe by lia.
      apply store_models_other; [exact Hal | exact Hphys | lia].
Qed.

Lemma models_at_inv
    (Beam Goniometer : Type) (h : Heap Beam Goniometer) (data : ImageSetData)
    (phys : nat) (b : beam_ptr Beam) (d : detector_ptr)
    (g : goniometer_ptr Goniometer) (s : scan_ptr) :
  models_at h data phys = Ok (b, d, g, s) ->
  ImageSetData_get_beam data h phys = Ok b
  /\ ImageSetData_get_detector data h phys = Ok d
  /\ ImageSetData_get_goniometer data h phys = Ok g
  /\ ImageSetData_get_scan data h phys = Ok s.
Proof.
  unfold models_at.
  destruct (ImageSetData_get_beam data h phys); osimpl; try discriminate.
  destruct (ImageSetData_get_detector data h phys); osimpl; try discriminate.
  destruct (ImageSetData_get_goniometer data h phys); osimpl; try discriminate.
  destruct (ImageSetData_get_scan data h phys); osimpl; try discriminate.
  intros H; inversion H; subst. repeat split.
Qed.

(** The sequence check is the boolean [increasing_by_one]. *)
Lemma indices_sequential_from (rest pre : list nat) (a : nat) :
  for_acc (S (List.length pre)) (List.length rest)
    (fun i _ =>
       do x <- subscript (pre ++ a :: rest) i;
       do y <- subscript (pre ++ a :: rest) (i - 1);
       DXTBX_ASSERT (x =? y + 1) "indices[i] == indices[i-1]+1")
    tt
  = if increasing_from a rest then Ok tt
    else Fatal "indices[i] == indices[i-1]+1".
Proof.
  revert pre a. induction rest as [|c rest IH]; intros pre a; [reflexivity |].
  cbn [for_acc List.length increasing_from].
  replace (S (List.length pre) - 1) with (List.length pre) by lia.
  rewrite subscript_middle.
  replace (pre ++ a :: c :: rest) with ((pre ++ [a]) ++ c :: rest)
    by (now rewrite <- app_assoc).
  replace (S (List.length pre)) with (List.length (pre ++ [a]))
    by (rewrite length_app; cbn; lia).
  rewrite subscript_middle. osimpl.
  destruct (c =? a + 1); osimpl; [| reflexivity].
  cbn [andb]. apply IH.
Qed.

Lemma indices_sequential_spec (indices : list nat) :
  indices_sequential indices
  = if increasing_by_one indices then Ok tt
    else Fatal "indices[i] == indices[i-1]+1".
Proof.
  destruct indices as [|a rest]; [reflexivity |].
  unfold indices_sequential. cbn [List.length].
  replace (S (List.length rest) - 1) with (List.length rest) by lia.
  exact (indices_sequential_from rest [] a).
Qed.

Lemma increasing_by_one_seq (rest : list nat) (a : nat) :
  increasing_by_one (a :: rest) = true ->
  a :: rest = seq a (S (List.length rest)).
Proof.
  cbn [increasing_by_one].
  revert a. induction rest as [|c rest IH]; intros a Hinc; [reflexivity |].
  cbn [increasing_from] in Hinc. apply andb_prop in Hinc as [Hc Hrest].
  apply Nat.eqb_eq in Hc. subst c.
  cbn [seq List.length]. f_equal. rewrite (IH _ Hrest).
  now rewrite Nat.add_1_r.
Qed.

Lemma fold_max_below (n : nat) (r : list nat) (x : nat) :
  x < n ->
  (forall i, In i r -> i < n) ->
  fold_left (fun result y => if result <? y then y else result) r x < n.
Proof.
  revert x. induction r as [|y r IH]; intros x Hx Hr; [exact Hx |].
  cbn [fold_left]. apply IH.
  - destruct (x <? y); [apply Hr; now left | exact Hx].
  - intros i Hi. apply Hr. now right.
Qed.

Lemma ImageSet_new_indices_in_range (data : ImageSetData) (indices : list nat) :
  indices <> [] ->
  (forall i, In i indices -> i < ImageSetData_size data) ->
  ImageSet_new_indices data indices = Ok (mkImageSet data indices DataCache_default).
Proof.
  intros Hne Hin. destruct indices as [|x r]; [congruence |].
  unfold ImageSet_new_indices, af_max. osimpl.
  assert (Hm : fold_left (fun result y => if result <? y then y else result) r x
               < ImageSetData_size data).
  { apply fold_max_below; [apply Hin; now left |].
    intros i Hi. apply Hin. now right. }
  apply Nat.ltb_lt in Hm. rewrite Hm. reflexivity.
Qed.

Lemma ImageSet_new_indices_defined (data : ImageSetData) (indices : list nat) :
  ImageSet_new_indices data indices <> Undefined.
Proof.
  unfold ImageSet_new_indices, af_max. destruct indices as [|x r]; osimpl.
  - discriminate.
  - destruct (_ <? _); osimpl; discriminate.
Qed.

(** Reading the four models of a view position from [models_at]. *)
Lemma view_reads_models
    (Beam Goniometer : Type) (h : Heap Beam Goniometer) (base : ImageSet)
    (k phys : nat) (b : beam_ptr Beam) (d : detector_ptr)
    (g : goniometer_ptr Goniometer) (s : scan_ptr) :
  nth_error (is_indices_ base) k = Some phys ->
  models_at h (is_data_ base) phys = Ok (b, d, g, s) ->
  ImageSet_get_beam_for_image base h k = Ok b
  /\ ImageSet_get_detector_for_image base h k = Ok d
  /\ ImageSet_get_goniometer_for_image base h k = Ok g
  /\ ImageSet_get_scan_for_image base h k = Ok s.
Proof.
  intros Hk Hm. apply models_at_inv in Hm as (Hb & Hd & Hg & Hs).
  at_index Hk. auto.
Qed.

(** The loop on a contiguous view leaves the heap a sweep promises. *)
Lemma sweep_set_models_broadcast
    (Beam Goniometer : Type) (h : Heap Beam Goniometer) (base : ImageSet)
    (start len : nat) (beam : Beam) (detector : Detector) (goniometer : Goniometer)
    (scan : Scan) :
  data_allocated h (is_data_ base) ->
  is_indices_ base = seq start len ->
  start + len <= ImageSetData_size (is_data_ base) ->
  Scan_get_num_images scan = Z.of_nat len ->
  (Z.of_nat len < 2 ^ 31)%Z ->
  exists h',
    sweep_set_models base (Some beam) (Some detector) (Some goniometer) scan h
      = (Ok tt, h')
    /\ sweep_broadcast h'
         (mkImageSweep base (Some beam) (Some detector) (Some goniometer) (Some scan))
         beam detector goniometer scan.
Proof.
  intros Hal Hidx Hsize Hnum H31.
  destruct (@sweep_set_models_loop Beam Goniometer base start len (Some beam)
              (Some detector) (Some goniometer) scan Hidx Hsize Hnum H31
              len 0 h (Nat.add_0_l len) Hal)
    as (h' & Hloop & _ & Hnew & _).
  exists h'. split.
  - unfold sweep_set_models, ImageSet_size. rewrite Hidx, length_seq. exact Hloop.
  - unfold sweep_broadcast; cbn [sw_beam_ sw_detector_ sw_goniometer_ sw_scan_
                                  sweep_base].
    repeat (split; [reflexivity |]).
    unfold ImageSet_size. rewrite Hidx, length_seq. intros k Hk.
    assert (Hi : nth_error (is_indices_ base) k = Some (start + k))
      by (rewrite Hidx; now apply nth_error_seq_at).
    assert (Hk0 : 0 <= k < len) by lia.
    destruct (@view_reads_models _ _ h' base k _ _ _ _ _ Hi (Hnew k Hk0))
      as (Hb & Hd & Hg & Hs).
    repeat (split; [assumption |]).
    eexists. split; [apply Scan_getitem_in_range; lia |].
    split; [apply single_image_slice | exact Hs].
Qed.

(** C5, as amended: construction throws when the scan's image count
    differs from the number of indices of the view, and the indexed
    constructor throws when the indices are not increasing by one; in both
    cases the heap is untouched.  When the counts agree (and, for the indexed
    constructor, the index list is non-empty, every index is below the data
    size and the indices increase by one), construction succeeds and every
    image of the view reads the given beam, detector and goniometer and the
    one-image slice of the scan at its position. *)
Theorem ImageSweep_construction
    (Beam Goniometer : Type) (data : ImageSetData) (h : Heap Beam Goniometer)
    (beam : Beam) (detector : Detector) (goniometer : Goniometer) (scan : Scan) :
  (0 <= Scan_get_num_images scan < 2 ^ 31)%Z ->
  (Scan_get_num_images scan <> Z.of_nat (ImageSetData_size data) ->
   ImageSweep_new data beam detector goniometer scan h
     = (Fatal "data.size() == scan.get_num_images()", h))
  /\ (forall indices,
        Scan_get_num_images scan <> Z.of_nat (List.length indices)
        \/ increasing_by_one indices = false ->
        is_fatal (fst (ImageSweep_new_indices data indices beam detector
                         goniometer scan h)) = true
        /\ snd (ImageSweep_new_indices data indices beam detector
                  goniometer scan h) = h)
  /\ (data_allocated h data ->
      Scan_get_num_images scan = Z.of_nat (ImageSetData_size data) ->
      exists sweep h',
        ImageSweep_new data beam detector goniometer scan h = (Ok sweep, h')
        /\ is_indices_ (sweep_base sweep) = seq 0 (ImageSetData_size data)
        /\ sweep_broadcast h' sweep beam detector goniometer scan)
  /\ (data_allocated h data ->
      forall indices,
        indices <> [] ->
        (forall i, In i indices -> i < ImageSetData_size data) ->
        Scan_get_num_images scan = Z.of_nat (List.length indices) ->
        increasing_by_one indices = true ->
        exists sweep h',
          ImageSweep_new_indices data indices beam detector goniometer scan h
            = (Ok sweep, h')
          /\ is_indices_ (sweep_base sweep) = indices
          /\ sweep_broadcast h' sweep beam detector goniometer scan).
Proof.
  intros Hint. pose proof (size_t_of_int_small Hint) as Hconv.
  split; [| split; [| split]].
  - intros Hne. unfold ImageSweep_new, bind, lift. rewrite Hconv.
    assert (E : (Z.of_nat (ImageSetData_size data) =? Scan_get_num_images scan)%Z
                = false) by (apply Z.eqb_neq; congruence).
    rewrite E. reflexivity.
  - intros indices Hbad. unfold ImageSweep_new_indices, bind, lift.
    pose proof (ImageSet_new_indices_defined data indices) as Hdef.
    destruct (ImageSet_new_indices data indices) as [base | w |];
      [| split; reflexivity | congruence].
    rewrite Hconv.
    destruct (Z.of_nat (List.length indices) =? Scan_get_num_images scan)%Z eqn:E;
      osimpl; [| split; reflexivity].
    destruct Hbad as [Hcount | Hinc].
    + apply Z.eqb_eq in E. congruence.
    + rewrite indices_sequential_spec, Hinc. split; reflexivity.
  - intros Hal Hnum.
    assert (H31 : (Z.of_nat (ImageSetData_size data) < 2 ^ 31)%Z) by lia.
    destruct (@sweep_set_models_broadcast Beam Goniometer h (ImageSet_new data) 0
                (ImageSetData_size data) beam detector goniometer scan
                Hal eq_refl (le_n _) Hnum H31) as (h' & Hrun & Hb).
    unfold ImageSweep_new, bind, lift, ret. rewrite Hconv, Hnum, Z.eqb_refl.
    osimpl. rewrite Hrun.
    eexists; eexists; split; [reflexivity | split; [reflexivity | exact Hb]].
  - intros Hal indices Hne Hin Hnum Hinc.
    assert (H31 : (Z.of_nat (List.length indices) < 2 ^ 31)%Z) by lia.
    destruct indices as [|a rest]; [congruence |].
    pose proof (increasing_by_one_seq rest a Hinc) as Hseq.
    assert (Hsize : a + S (List.length rest) <= ImageSetData_size data).
    { assert (Hlast : In (a + List.length rest) (a :: rest)).
      { rewrite Hseq. apply in_seq. lia. }
      apply Hin in Hlast. lia. }
    destruct (@sweep_set_models_broadcast Beam Goniometer h
                (mkImageSet data (a :: rest) DataCache_default) a
                (S (List.length rest)) beam detector goniometer scan
                Hal Hseq Hsize Hnum H31) as (h' & Hrun & Hb).
    unfold ImageSweep_new_indices, bind, lift, ret.
    rewrite (ImageSet_new_indices_in_range data Hne Hin).
    rewrite Hconv, Hnum, Z.eqb_refl. osimpl.
    rewrite indices_sequential_spec, Hinc. rewrite Hrun.
    eexists; eexists; split; [reflexivity | split; [reflexivity | exact Hb]].
Qed.

Lemma ImageSweep_construction_witness :
  let data := example_data 3 in
  let h := example_heap 3 in
  let detector := example_detector 2%float in
  let scan := mkScan (5, 6)%Z in
  (0 <= Scan_get_num_images scan < 2 ^ 31)%Z
  /\ data_allocated h data
  /\ ImageSweep_new data tt detector tt scan h
     = (Fatal "data.size() == scan.get_num_images()", h)
  /\ is_fatal (fst (ImageSweep_new_indices data [2; 1] tt detector tt scan h)) = true
  /\ exists sweep h',
       ImageSweep_new_indices data [1; 2] tt detector tt scan h = (Ok sweep, h')
       /\ is_indices_ (sweep_base sweep) = [1; 2]
       /\ sweep_broadcast h' sweep tt detector tt scan.
Proof.
  cbv zeta.
  assert (Hint : (0 <= Scan_get_num_images (mkScan (5, 6)%Z) < 2 ^ 31)%Z)
    by (cbn; lia).
  assert (Hal : data_allocated (example_heap 3) (example_data 3))
    by (repeat split).
  destruct (@ImageSweep_construction unit unit (example_data 3) (example_heap 3)
              tt (example_detector 2%float) tt (mkScan (5, 6)%Z) Hint)
    as (Hnew & Hbad & _ & Hgood).
  split; [exact Hint | split; [exact Hal | split; [| split]]].
  - apply Hnew. discriminate.
  - apply (Hbad [2; 1]). right. reflexivity.
  - apply (Hgood Hal [1; 2]).
    + discriminate.
    + intros i [<- | [<- | []]]; cbn; lia.
    + reflexivity.
    + reflexivity.
Defined.

(** C5 as stated fails for the indexed constructor: one index, a one-image
    scan, nothing out of sequence, and construction still throws, because
    index 3 is not below the data size 2 (the base ImageSet constructor
    checks it first). *)
Lemma ImageSweep_new_indices_checks_range :
  let data := example_data 2 in
  let h := example_heap 2 in
  let indices := [3] in
  let scan := mkScan (0, 0)%Z in
  data_allocated h data
  /\ Scan_get_num_images scan = Z.of_nat (List.length indices)
  /\ increasing_by_one indices = true
  /\ ImageSweep_new_indices data indices tt (example_detector 2%float) tt scan h
     = (Fatal "scitbx::af::max(indices) < data.size()", h).
Proof. cbv zeta. repeat split. Qed.

(* ------------------------------------------------------------------ *)
(** ** The tile-count check of get_corrected_data, in general *)

Lemma get_raw_data_keeps_view (index : nat) (this this1 : ImageSet)
    (raw : ImageBuffer) :
  ImageSet_get_raw_data index this = (Ok raw, this1) ->
  is_data_ this1 = is_data_ this /\ is_indices_ this1 = is_indices_ this.
Proof.
  unfold ImageSet_get_raw_data.
  destruct (size_t_of_int _ =? _)%Z.
  - intros H; inversion H; subst. now split.
  - destruct (subscript (is_indices_ this) index); intros H; inversion H; subst.
    now split.
Qed.

(** Whenever the gain item is empty and some panel gain is at or below zero,
    get_corrected_data throws on any raw image that has a tile. *)
Lemma get_corrected_data_needs_gain_tiles
    (Beam Goniometer : Type) (this this1 : ImageSet) (h : Heap Beam Goniometer)
    (index : nat) (raw : ImageBuffer) (detector : Detector) :
  ImageSet_get_raw_data index this = (Ok raw, this1) ->
  n_tiles (as_double raw) <> 0 ->
  Image_empty (get_data (el_gain_ (ImageSet_external_lookup this))) = true ->
  ImageSet_get_detector_for_image this h index = Ok (Some detector) ->
  (exists p, In p detector /\ PrimFloat.leb (dp_gain p) 0 = true) ->
  ImageSet_get_corrected_data h index this
    = (Fatal "data.n_tiles() == gain.n_tiles()", this1).
Proof.
  intros Hraw Htiles He Hdet Hbad.
  destruct (get_raw_data_keeps_view _ _ Hraw) as [Hd Hi].
  assert (He1 : Image_empty (get_data (el_gain_ (ImageSet_external_lookup this1)))
                = true)
    by (unfold ImageSet_external_lookup; now rewrite Hd).
  assert (Hdet1 : ImageSet_get_detector_for_image this1 h index
                  = Ok (Some detector)).
  { unfold ImageSet_get_detector_for_image, ImageSet_size in *.
    now rewrite Hd, Hi. }
  unfold ImageSet_get_corrected_data, bind. rewrite Hraw.
  rewrite (get_gain_skipped this1 h index He1 Hdet1 Hbad).
  unfold ImageSet_get_pedestal, bind, get, ret, lift.
  apply Nat.eqb_neq in Htiles. cbn [n_tiles List.length] in *.
  rewrite Htiles. reflexivity.
Qed.

(* ------------------------------------------------------------------ *)
(** ** What the ImageSetData constructor establishes *)

Lemma ImageSetData_new_allocated
    (Beam Goniometer : Type) (reader masker : Reader)
    (h h' : Heap Beam Goniometer) (data : ImageSetData) :
  ImageSetData_new reader masker h = (Ok data, h') ->
  data_allocated h' data
  /\ ImageSetData_size data = rd_len reader
  /\ ImageSetData_external_lookup data = ExternalLookup_default.
Proof.
  unfold ImageSetData_new.
  destruct (DXTBX_ASSERT (rd_len reader =? rd_len masker) _);
    intros H; inversion H; subst; clear H.
  unfold data_allocated, array_length, ImageSetData_size;
    cbn [sd_beams_ sd_detectors_ sd_goniometers_ sd_scans_ sd_data_
         beam_arrays detector_arrays goniometer_arrays scan_arrays].
  repeat split;
    (rewrite nth_error_app2 by lia; rewrite Nat.sub_diag; cbn [nth_error option_map];
     now rewrite repeat_length).
Qed.

(** The concrete collections used above are what the constructor builds on
    the empty heap. *)
Example example_data_constructed (n : nat) :
  ImageSetData_new (example_reader n) (example_reader n) empty_heap
    = (Ok (example_data n), example_heap n).
Proof.
  unfold ImageSetData_new. cbn [rd_len example_reader]. rewrite Nat.eqb_refl.
  reflexivity.
Qed.

(* ------------------------------------------------------------------ *)
(** ** The raw-image cache *)

Lemma fresh_cache_consistent (this : ImageSet) :
  is_data_cache_ this = DataCache_default ->
  (Z.of_nat (ImageSet_size this) < 2 ^ 64)%Z ->
  cache_consistent this.
Proof.
  intros Hc Hsize i phys Hi Hphys. rewrite Hc in Hi. cbn [dc_index DataCache_default] in Hi.
  assert (Hlt : i < ImageSet_size this)
    by (apply nth_error_Some; unfold ImageSet_size; congruence).
  unfold size_t_of_int in Hi. change ((-1) mod 2 ^ 64)%Z with (2 ^ 64 - 1)%Z in Hi.
  lia.
Qed.

(** X1: on a view whose cache is consistent, get_raw_data at a valid index
    below 2^31 returns the reader's image of the physical index behind it,
    keeps the cache consistent, and an immediate second call returns the same
    image without changing the view. *)
Theorem get_raw_data_serves_reader_image (this : ImageSet) (index phys : nat) :
  cache_consistent this ->
  nth_error (is_indices_ this) index = Some phys ->
  (Z.of_nat index < 2 ^ 31)%Z ->
  exists this',
    ImageSet_get_raw_data index this
      = (Ok (ImageSetData_get_data (is_data_ this) phys), this')
    /\ is_data_ this' = is_data_ this
    /\ is_indices_ this' = is_indices_ this
    /\ cache_consistent this'
    /\ ImageSet_get_raw_data index this'
       = (Ok (ImageSetData_get_data (is_data_ this) phys), this').
Proof.
  intros Hcons Hidx H31. unfold ImageSet_get_raw_data.
  destruct (size_t_of_int (dc_index (is_data_cache_ this)) =? Z.of_nat index)%Z eqn:Hhit.
  - apply Z.eqb_eq in Hhit. pose proof (Hcons _ _ Hhit Hidx) as Himg.
    exists this. rewrite Himg. repeat split; try assumption.
    apply Z.eqb_eq in Hhit. rewrite Hhit. reflexivity.
  - rewrite (subscript_Some _ _ Hidx).
    assert (Hself : size_t_of_int (int_of_size_t index) = Z.of_nat index).
    { rewrite int_of_size_t_small by exact H31. apply size_t_of_int_small. lia. }
    eexists. split; [reflexivity |].
    cbn [is_data_ is_indices_ is_data_cache_ dc_index dc_image].
    split; [reflexivity | split; [reflexivity | split]].
    + intros i p Hi Hp. cbn [is_data_cache_ dc_index dc_image is_data_ is_indices_] in *.
      rewrite Hself in Hi. apply Nat2Z.inj in Hi. subst i. congruence.
    + rewrite Hself, Z.eqb_refl. reflexivity.
Qed.

Lemma get_raw_data_serves_reader_image_witness :
  let this := ImageSet_new (example_data 2) in
  cache_consistent this
  /\ nth_error (is_indices_ this) 1 = Some 1
  /\ (Z.of_nat 1 < 2 ^ 31)%Z
  /\ fst (ImageSet_get_raw_data 1 this) = Ok (DoubleBuffer [tile_1x2 10 20]%float).
Proof.
  cbv zeta.
  assert (Hc : cache_consistent (ImageSet_new (example_data 2)))
    by (apply fresh_cache_consistent; [reflexivity | cbn; lia]).
  assert (H31 : (Z.of_nat 1 < 2 ^ 31)%Z) by (cbn; lia).
  split; [exact Hc | split; [reflexivity | split; [exact H31 |]]].
  destruct (@get_raw_data_serves_reader_image (ImageSet_new (example_data 2)) 1 1
              Hc eq_refl H31) as (this' & Hrun & _).
  rewrite Hrun. reflexivity.
Defined.

(* ------------------------------------------------------------------ *)
(** ** Sub-views *)

Lemma window_in_range (indices : list nat) (first count : nat) :
  first + count <= List.length indices ->
  window indices first count = Ok (firstn count (skipn first indices)).
Proof.
  intros H. unfold window. apply Nat.leb_le in H. now rewrite H.
Qed.

Lemma nth_error_window (indices : list nat) (first count k : nat) :
  k < count ->
  nth_error (firstn count (skipn first indices)) k = nth_error indices (first + k).
Proof.
  intros Hk. rewrite nth_error_firstn. apply Nat.ltb_lt in Hk. rewrite Hk.
  apply nth_error_skipn.
Qed.

Lemma In_window (indices : list nat) (first count x : nat) :
  In x (firstn count (skipn first indices)) -> In x indices.
Proof.
  intros Hin. apply In_nth_error in Hin as [k Hk].
  destruct (k <? count) eqn:Hlt.
  - apply Nat.ltb_lt in Hlt. rewrite nth_error_window in Hk by exact Hlt.
    eapply nth_error_In; eauto.
  - rewrite nth_error_firstn, Hlt in Hk. discriminate.
Qed.

(** What a view reads at an index depends on its data and on the physical
    index behind the logical one, nothing else. *)
Lemma reads_follow_physical_index
    (Beam Goniometer : Type) (h : Heap Beam Goniometer) (v w : ImageSet)
    (k k' phys : nat) :
  is_data_ v = is_data_ w ->
  nth_error (is_indices_ v) k = Some phys ->
  nth_error (is_indices_ w) k' = Some phys ->
  ImageSet_get_beam_for_image v h k = ImageSet_get_beam_for_image w h k'
  /\ ImageSet_get_detector_for_image v h k = ImageSet_get_detector_for_image w h k'
  /\ ImageSet_get_goniometer_for_image v h k = ImageSet_get_goniometer_for_image w h k'
  /\ ImageSet_get_scan_for_image v h k = ImageSet_get_scan_for_image w h k'
  /\ ImageSet_get_path v k = ImageSet_get_path w k'
  /\ ImageSet_get_image_identifier v k = ImageSet_get_image_identifier w k'.
Proof.
  intros Hd Hv Hw.
  destruct (index_in_view _ _ Hv) as [Hlv Hsv].
  destruct (index_in_view _ _ Hw) as [Hlw Hsw].
  unfold ImageSet_get_beam_for_image, ImageSet_get_detector_for_image,
    ImageSet_get_goniometer_for_image, ImageSet_get_scan_for_image,
    ImageSet_get_path, ImageSet_get_image_identifier, ImageSet_size.
  rewrite Hlv, Hlw, Hsv, Hsw, Hd. repeat split.
Qed.

(** X2: for a view whose indices are all below the data size and
    first < last <= size, partial_set(first, last) succeeds with a view of
    last - first images over the same data, whose image k is the parent's
    image first + k: same physical index, hence the same path, identifier
    and models. *)
Theorem partial_set_is_window
    (Beam Goniometer : Type) (h : Heap Beam Goniometer) (this : ImageSet)
    (first last : nat) :
  view_in_range this ->
  first < last ->
  last <= ImageSet_size this ->
  exists v,
    ImageSet_partial_set this first last = Ok v
    /\ is_data_ v = is_data_ this
    /\ ImageSet_size v = last - first
    /\ view_in_range v
    /\ forall k, k < last - first ->
         nth_error (is_indices_ v) k = nth_error (is_indices_ this) (first + k)
         /\ ImageSet_get_path v k = ImageSet_get_path this (first + k)
         /\ ImageSet_get_image_identifier v k
            = ImageSet_get_image_identifier this (first + k)
         /\ ImageSet_get_beam_for_image v h k
            = ImageSet_get_beam_for_image this h (first + k)
         /\ ImageSet_get_detector_for_image v h k
            = ImageSet_get_detector_for_image this h (first + k)
         /\ ImageSet_get_goniometer_for_image v h k
            = ImageSet_get_goniometer_for_image this h (first + k)
         /\ ImageSet_get_scan_for_image v h k
            = ImageSet_get_scan_for_image this h (first + k).
Proof.
  intros Hrange Hlt Hle. unfold ImageSet_size in Hle.
  set (w := firstn (last - first) (skipn first (is_indices_ this))).
  assert (Hlen : List.length w = last - first).
  { unfold w. rewrite length_firstn, length_skipn. lia. }
  assert (Hne : w <> []) by (intros E; rewrite E in Hlen; cbn in Hlen; lia).
  assert (Hin : forall i, In i w -> i < ImageSetData_size (is_data_ this))
    by (intros i Hi; apply Hrange; eapply In_window; exact Hi).
  exists (mkImageSet (is_data_ this) w DataCache_default).
  split.
  { unfold ImageSet_partial_set.
    rewrite (proj2 (Nat.ltb_lt first last) Hlt). osimpl.
    rewrite window_in_range by lia. osimpl.
    now apply ImageSet_new_indices_in_range. }
  split; [reflexivity | split; [exact Hlen | split; [exact Hin |]]].
  intros k Hk.
  assert (Hw : nth_error w k = nth_error (is_indices_ this) (first + k))
    by (now apply nth_error_window).
  destruct (nth_error (is_indices_ this) (first + k)) as [phys |] eqn:Hp.
  - destruct (@reads_follow_physical_index Beam Goniometer h
                (mkImageSet (is_data_ this) w DataCache_default) this
                k (first + k) phys eq_refl Hw Hp)
      as (Hb & Hd & Hg & Hs & Hpath & Hid).
    cbn [is_indices_]. rewrite Hw. repeat split; assumption.
  - apply nth_error_None in Hp. lia.
Qed.

Lemma partial_set_is_window_witness :
  let this := mkImageSet (example_data 5) [4; 2; 0; 1; 3] DataCache_default in
  view_in_range this
  /\ 1 < 3
  /\ 3 <= ImageSet_size this
  /\ exists v,
       ImageSet_partial_set this 1 3 = Ok v
       /\ ImageSet_indices v = [2; 0]
       /\ ImageSet_get_path v 0 = ImageSet_get_path this 1.
Proof.
  cbv zeta.
  assert (Hr : view_in_range (mkImageSet (example_data 5) [4; 2; 0; 1; 3]
                                DataCache_default)).
  { intros p Hp. cbn in Hp. cbn.
    destruct Hp as [<- | [<- | [<- | [<- | [<- | []]]]]]; lia. }
  assert (H13 : 1 < 3) by lia.
  assert (H35 : 3 <= ImageSet_size (mkImageSet (example_data 5) [4; 2; 0; 1; 3]
                                      DataCache_default)) by (cbn; lia).
  split; [exact Hr | split; [exact H13 | split; [exact H35 |]]].
  destruct (@partial_set_is_window unit unit (example_heap 5) _ 1 3 Hr H13 H35)
    as (v & Hrun & _ & _ & _ & Hk).
  exists v. split; [exact Hrun | split].
  - cbn in Hrun. inversion Hrun. reflexivity.
  - apply (Hk 0). lia.
Defined.

(** X3: partial_set checks last > first and nothing else about its
    arguments: with last <= first it throws, and with first < last but last
    beyond the end of the view it reads indices that are not there. *)
Theorem partial_set_checks_order_only (this : ImageSet) (first last : nat) :
  (last <= first -> ImageSet_partial_set this first last = Fatal "last > first")
  /\ (first < last -> ImageSet_size this < last ->
      ImageSet_partial_set this first last = Undefined).
Proof.
  split.
  - intros Hle. unfold ImageSet_partial_set.
    assert (E : (first <? last) = false) by (apply Nat.ltb_ge; exact Hle).
    rewrite E. reflexivity.
  - intros Hlt Hbig. unfold ImageSet_partial_set, window, ImageSet_size in *.
    apply Nat.ltb_lt in Hlt. rewrite Hlt. osimpl.
    assert (E : (first + (last - first) <=? List.length (is_indices_ this)) = false).
    { apply Nat.leb_gt. apply Nat.ltb_lt in Hlt. lia. }
    rewrite E. reflexivity.
Qed.

Lemma partial_set_checks_order_only_witness :
  let this := ImageSet_new (example_data 3) in
  ImageSet_partial_set this 2 2 = Fatal "last > first"
  /\ ImageSet_partial_set this 1 4 = Undefined.
Proof.
  cbv zeta.
  destruct (partial_set_checks_order_only (ImageSet_new (example_data 3)) 2 2)
    as [Hbad _].
  destruct (partial_set_checks_order_only (ImageSet_new (example_data 3)) 1 4)
    as [_ Hout].
  split; [apply Hbad; lia | apply Hout; cbn; lia].
Defined.

Lemma skipn_firstn_seq (n first count : nat) :
  first + count <= n ->
  firstn count (skipn first (seq 0 n)) = seq first count.
Proof.
  intros H. rewrite skipn_seq. cbn [Nat.add].
  replace (n - first) with (count + (n - first - count)) by lia.
  rewrite seq_app, firstn_app, length_seq, Nat.sub_diag. cbn [firstn].
  rewrite app_nil_r. apply firstn_all2. rewrite length_seq. lia.
Qed.

(** X4: complete_set of any view is the view of all physical indices of
    its data, 0 .. data.size()-1 in order, whatever subset or order the view
    itself has: its image k reads physical slot k, and slicing it with
    partial_set(first, last) gives exactly the physical indices
    first .. last-1. *)
Theorem complete_set_covers_collection
    (Beam Goniometer : Type) (h : Heap Beam Goniometer) (this : ImageSet) :
  exists all,
    ImageSet_complete_set this = Ok all
    /\ is_data_ all = is_data_ this
    /\ is_indices_ all = seq 0 (ImageSetData_size (is_data_ this))
    /\ (forall k, k < ImageSetData_size (is_data_ this) ->
          ImageSet_get_beam_for_image all h k
            = ImageSetData_get_beam (is_data_ this) h k
          /\ ImageSet_get_detector_for_image all h k
             = ImageSetData_get_detector (is_data_ this) h k
          /\ ImageSet_get_goniometer_for_image all h k
             = ImageSetData_get_goniometer (is_data_ this) h k
          /\ ImageSet_get_scan_for_image all h k
             = ImageSetData_get_scan (is_data_ this) h k)
    /\ (forall first last,
          first < last -> last <= ImageSetData_size (is_data_ this) ->
          exists v,
            ImageSet_partial_set all first last = Ok v
            /\ is_indices_ v = seq first (last - first)).
Proof.
  exists (ImageSet_new (is_data_ this)).
  split; [reflexivity | split; [reflexivity | split; [reflexivity | split]]].
  - intros k Hk.
    assert (Hi : nth_error (is_indices_ (ImageSet_new (is_data_ this))) k = Some k)
      by (cbn [ImageSet_new is_indices_]; now rewrite nth_error_seq_at).
    at_index Hi. repeat split.
  - intros first last Hlt Hle.
    exists (mkImageSet (is_data_ this) (seq first (last - first)) DataCache_default).
    split; [| reflexivity].
    unfold ImageSet_partial_set. rewrite (proj2 (Nat.ltb_lt first last) Hlt). osimpl.
    cbn [ImageSet_new is_indices_ is_data_].
    rewrite window_in_range by (rewrite length_seq; lia). osimpl.
    rewrite skipn_firstn_seq by lia.
    apply ImageSet_new_indices_in_range.
    + destruct (last - first) eqn:E; [lia | discriminate].
    + intros i Hi. apply in_seq in Hi. lia.
Qed.

(* ------------------------------------------------------------------ *)
(** ** Equality of image sets *)

Lemma view_paths_length (this : ImageSet) :
  List.length (view_paths this) = ImageSet_size this.
Proof.
  unfold view_paths, ImageSet_size.
  destruct (ImageSetData_has_single_file_reader _); apply length_map.
Qed.

Lemma get_path_is_view_path (this : ImageSet) (i : nat) (s : string) :
  nth_error (view_paths this) i = Some s -> ImageSet_get_path this i = Ok s.
Proof.
  intros H.
  assert (Hlt : i < ImageSet_size this)
    by (rewrite <- view_paths_length; apply nth_error_Some; congruence).
  unfold ImageSet_get_path. rewrite (proj2 (Nat.ltb_lt _ _) Hlt). osimpl.
  unfold view_paths in H. unfold ImageSet_size in Hlt.
  destruct (nth_error (is_indices_ this) i) as [phys |] eqn:Hp;
    [| apply nth_error_None in Hp; lia].
  destruct (ImageSetData_has_single_file_reader (is_data_ this)).
  - rewrite nth_error_map, Hp in H. cbn in H. congruence.
  - rewrite (subscript_Some _ _ Hp). osimpl.
    rewrite nth_error_map, Hp in H. cbn in H. congruence.
Qed.

Lemma skipn_cons_nth_error {A : Type} (l : list A) (i : nat) (x : A) :
  nth_error l i = Some x -> skipn i l = x :: skipn (S i) l.
Proof.
  revert i. induction l as [|y l IH]; intros [|i] H; cbn in *; try discriminate.
  - congruence.
  - now apply IH.
Qed.

Lemma strings_eqb_length (a b : list string) :
  strings_eqb a b = true -> List.length a = List.length b.
Proof.
  revert b. induction a as [|x a IH]; intros [|y b] H; cbn in *;
    try discriminate; [reflexivity |].
  apply andb_prop in H as [_ H]. f_equal. now apply IH.
Qed.

Lemma strings_eqb_refl (a : list string) : strings_eqb a a = true.
Proof.
  induction a as [|x a IH]; [reflexivity |].
  cbn. now rewrite String.eqb_refl, IH.
Qed.

Lemma strings_eqb_sym (a b : list string) : strings_eqb a b = strings_eqb b a.
Proof.
  revert b. induction a as [|x a IH]; intros [|y b]; cbn; try reflexivity.
  now rewrite String.eqb_sym, IH.
Qed.

Lemma same_paths_from_spec (this other : ImageSet) (count i : nat) :
  i + count = ImageSet_size this ->
  ImageSet_size this = ImageSet_size other ->
  same_paths_from this other i count
    = Ok (strings_eqb (skipn i (view_paths this)) (skipn i (view_paths other))).
Proof.
  revert i. induction count as [|count IH]; intros i Hi Hsize.
  - cbn [same_paths_from].
    rewrite !skipn_all2 by (rewrite view_paths_length; lia). reflexivity.
  - destruct (nth_error (view_paths this) i) as [a |] eqn:Ha;
      [| apply nth_error_None in Ha; rewrite view_paths_length in Ha; lia].
    destruct (nth_error (view_paths other) i) as [b |] eqn:Hb;
      [| apply nth_error_None in Hb; rewrite view_paths_length in Hb; lia].
    cbn [same_paths_from].
    rewrite (get_path_is_view_path _ _ Ha), (get_path_is_view_path _ _ Hb). osimpl.
    rewrite (skipn_cons_nth_error _ _ Ha), (skipn_cons_nth_error _ _ Hb).
    cbn [strings_eqb]. destruct (String.eqb a b); cbn [negb andb]; [| reflexivity].
    apply IH; lia.
Qed.

Lemma ImageSet_eq_is_paths_eqb (this other : ImageSet) :
  ImageSet_eq this other = Ok (strings_eqb (view_paths this) (view_paths other)).
Proof.
  unfold ImageSet_eq.
  destruct (ImageSet_size this =? ImageSet_size other) eqn:Hs.
  - apply Nat.eqb_eq in Hs.
    exact (same_paths_from_spec this other (ImageSet_size this) 0 eq_refl Hs).
  - apply Nat.eqb_neq in Hs.
    destruct (strings_eqb (view_paths this) (view_paths other)) eqn:Hp;
      [| reflexivity].
    apply strings_eqb_length in Hp. rewrite !view_paths_length in Hp. congruence.
Qed.

(** X5: operator== on two image sets never throws; it is true exactly when
    the two views present the same sequence of paths (same length, equal
    path at every position), so it is reflexive and symmetric; operator!=
    never throws either and is its negation. *)
Theorem ImageSet_eq_compares_paths (this other : ImageSet) :
  ImageSet_eq this other = Ok (strings_eqb (view_paths this) (view_paths other))
  /\ ImageSet_eq this this = Ok true
  /\ ImageSet_eq other this = ImageSet_eq this other
  /\ ImageSet_neq this other
     = Ok (negb (strings_eqb (view_paths this) (view_paths other)))
  /\ ImageSet_neq this this = Ok false
  /\ ImageSet_neq other this = ImageSet_neq this other.
Proof.
  unfold ImageSet_neq.
  rewrite !ImageSet_eq_is_paths_eqb, strings_eqb_refl,
    (strings_eqb_sym (view_paths other)).
  repeat split.
Qed.

(** X6: over a single-file reader every image has the master path, so two
    views of the same data compare equal as soon as they have the same
    number of images, whatever images they index. *)
Theorem ImageSet_eq_single_file (this other : ImageSet) :
  is_data_ this = is_data_ other ->
  ImageSetData_has_single_file_reader (is_data_ this) = true ->
  ImageSet_size this = ImageSet_size other ->
  ImageSet_eq this other = Ok true.
Proof.
  intros Hd Hs Hn. rewrite ImageSet_eq_is_paths_eqb.
  unfold view_paths. rewrite <- Hd, Hs. unfold ImageSet_size in Hn.
  generalize (ImageSetData_get_master_path (is_data_ this)). intros m.
  revert Hn. generalize (is_indices_ other). generalize (is_indices_ this).
  induction l as [|x l IH]; intros [|y l'] Hn; cbn in *; try discriminate;
    [reflexivity |].
  rewrite String.eqb_refl. cbn. apply IH. now inversion Hn.
Qed.

Lemma ImageSet_eq_single_file_witness :
  let data := example_single_file_data 4 in
  let this := mkImageSet data [0; 1] DataCache_default in
  let other := mkImageSet data [2; 3] DataCache_default in
  is_data_ this = is_data_ other
  /\ ImageSetData_has_single_file_reader (is_data_ this) = true
  /\ ImageSet_size this = ImageSet_size other
  /\ ImageSet_eq this other = Ok true
  /\ ImageSetData_get_path data 2 <> ImageSetData_get_path data 0.
Proof.
  cbv zeta.
  split; [reflexivity | split; [reflexivity | split; [reflexivity | split]]].
  - exact (@ImageSet_eq_single_file
             (mkImageSet (example_single_file_data 4) [0; 1] DataCache_default)
             (mkImageSet (example_single_file_data 4) [2; 3] DataCache_default)
             eq_refl eq_refl eq_refl).
  - discriminate.
Defined.

(* ------------------------------------------------------------------ *)
(** ** String properties *)






(* ------------------------------------------------------------------ *)
(** ** Image grids *)

Lemma int_mul_small (a b : Z) :
  (0 <= a * b < 2 ^ 31)%Z -> size_t_of_int (int_mul a b) = (a * b)%Z.
Proof.
  intros H. unfold int_mul.
  rewrite (Z.mod_small (a * b + 2 ^ 31)) by lia.
  rewrite size_t_of_int_small by lia. lia.
Qed.

(** X8: ImageGrid construction over all images of a collection throws
    when a grid dimension is not positive, throws when the product of the
    dimensions, computed in int and converted to size_t, is not the number
    of images, and otherwise succeeds with the view of all images; for a
    collection that has an image, as_imageset of the grid then gives a
    plain view from which from_imageset with the same grid size rebuilds
    the grid.  The product is the mathematical one when that is below
    2^31, and wraps around beyond. *)
Theorem ImageGrid_construction (data : ImageSetData) (grid_size : Z * Z) :
  let product := size_t_of_int (int_mul (fst grid_size) (snd grid_size)) in
  ((fst grid_size <= 0)%Z \/ (snd grid_size <= 0)%Z ->
   ImageGrid_new data grid_size = Fatal "grid_size.all_gt(0)")
  /\ ((0 < fst grid_size)%Z -> (0 < snd grid_size)%Z ->
      product <> Z.of_nat (ImageSetData_size data) ->
      ImageGrid_new data grid_size = Fatal "grid_size[0] * grid_size[1] == size()")
  /\ ((0 < fst grid_size)%Z -> (0 < snd grid_size)%Z ->
      product = Z.of_nat (ImageSetData_size data) ->
      exists grid,
        ImageGrid_new data grid_size = Ok grid
        /\ ImageGrid_get_grid_size grid = grid_size
        /\ is_indices_ (grid_base grid) = seq 0 (ImageSetData_size data)
        /\ (0 < ImageSetData_size data ->
            exists v,
              ImageGrid_as_imageset grid = Ok v
              /\ ImageGrid_from_imageset v grid_size = Ok grid))
  /\ ((0 < fst grid_size)%Z -> (0 < snd grid_size)%Z ->
      (fst grid_size * snd grid_size < 2 ^ 31)%Z ->
      product = (fst grid_size * snd grid_size)%Z).
Proof.
  destruct grid_size as [g0 g1]. cbv zeta. cbn [fst snd].
  unfold ImageGrid_new, grid_checks. cbn [fst snd].
  split; [| split; [| split]].
  - intros Hbad.
    assert (E : ((0 <? g0)%Z && (0 <? g1)%Z) = false).
    { apply andb_false_iff. destruct Hbad; [left | right]; apply Z.ltb_ge; lia. }
    rewrite E. reflexivity.
  - intros H0 H1 Hne.
    rewrite (proj2 (Z.ltb_lt 0 g0) H0), (proj2 (Z.ltb_lt 0 g1) H1). osimpl. cbn [andb].
    unfold ImageSet_size. cbn [ImageSet_new is_indices_]. rewrite length_seq.
    rewrite (proj2 (Z.eqb_neq _ _) Hne). reflexivity.
  - intros H0 H1 Heq.
    assert (Hchk : (size_t_of_int (int_mul g0 g1)
                      =? Z.of_nat (ImageSet_size (ImageSet_new data)))%Z = true).
    { unfold ImageSet_size. cbn [ImageSet_new is_indices_]. rewrite length_seq.
      now apply Z.eqb_eq. }
    exists (mkImageGrid (ImageSet_new data) (g0, g1)).
    rewrite (proj2 (Z.ltb_lt 0 g0) H0), (proj2 (Z.ltb_lt 0 g1) H1). cbn [andb]. osimpl.
    rewrite Hchk. osimpl.
    split; [reflexivity | split; [reflexivity | split; [reflexivity |]]].
    intros Hn.
    assert (Hbase : ImageSet_new_indices data (seq 0 (ImageSetData_size data))
                    = Ok (ImageSet_new data)).
    { apply ImageSet_new_indices_in_range.
      - destruct (ImageSetData_size data); [lia | discriminate].
      - intros i Hi. apply in_seq in Hi. lia. }
    exists (ImageSet_new data). split.
    + exact Hbase.
    + unfold ImageGrid_from_imageset, ImageGrid_new_indices, ImageSet_data,
        ImageSet_indices, grid_checks.
      cbn [ImageSet_new is_data_ is_indices_ fst snd]. rewrite Hbase. osimpl.
      rewrite (proj2 (Z.ltb_lt 0 g0) H0), (proj2 (Z.ltb_lt 0 g1) H1). cbn [andb]. osimpl.
      rewrite Hchk. reflexivity.
  - intros H0 H1 H31. apply int_mul_small. nia.
Qed.

Lemma ImageGrid_construction_witness :
  let data := example_data 6 in
  ImageGrid_new data (0, 6)%Z = Fatal "grid_size.all_gt(0)"
  /\ ImageGrid_new data (2, 2)%Z = Fatal "grid_size[0] * grid_size[1] == size()"
  /\ (exists grid v,
        ImageGrid_new data (2, 3)%Z = Ok grid
        /\ ImageGrid_as_imageset grid = Ok v
        /\ ImageGrid_from_imageset v (2, 3)%Z = Ok grid)
  /\ size_t_of_int (int_mul 65536 65536) = Z.of_nat (ImageSetData_size (example_data 0))
  /\ exists grid, ImageGrid_new (example_data 0) (65536, 65536)%Z = Ok grid.
Proof.
  cbv zeta.
  destruct (ImageGrid_construction (example_data 6) (0, 6)%Z) as (Hbad & _ & _).
  destruct (ImageGrid_construction (example_data 6) (2, 2)%Z) as (_ & Hne & _).
  destruct (ImageGrid_construction (example_data 6) (2, 3)%Z) as (_ & _ & Hok & _).
  destruct (ImageGrid_construction (example_data 0) (65536, 65536)%Z)
    as (_ & _ & Hwrap & _).
  cbn [fst snd] in Hbad, Hne, Hok, Hwrap.
  assert (H02 : (0 < 2)%Z) by lia.
  assert (H03 : (0 < 3)%Z) by lia.
  assert (Hbig : (0 < 65536)%Z) by lia.
  assert (Hd : size_t_of_int (int_mul 2 2)
               <> Z.of_nat (ImageSetData_size (example_data 6)))
    by discriminate.
  assert (Hs : size_t_of_int (int_mul 2 3)
               = Z.of_nat (ImageSetData_size (example_data 6)))
    by reflexivity.
  assert (Hw : size_t_of_int (int_mul 65536 65536)
               = Z.of_nat (ImageSetData_size (example_data 0)))
    by reflexivity.
  assert (Hz : (0 <= 0)%Z \/ (6 <= 0)%Z) by (left; lia).
  assert (H6 : 0 < ImageSetData_size (example_data 6)) by (cbn; lia).
  split; [exact (Hbad Hz) | split; [exact (Hne H02 H02 Hd) | split; [| split]]].
  - destruct (Hok H02 H03 Hs) as (grid & Hnew & _ & _ & Hround).
    destruct (Hround H6) as (v & Has & Hfrom).
    exists grid, v. split; [exact Hnew | split; [exact Has | exact Hfrom]].
  - exact Hw.
  - destruct (Hwrap Hbig Hbig Hw) as (grid & Hnew & _).
    exists grid. exact Hnew.
Defined.

(* ------------------------------------------------------------------ *)
(** ** Slots of an ImageSetData *)

Lemma slot_get_fresh_array {X : Type} (store : list (list (option X)))
    (n i : nat) (text : string) :
  slot_get (store ++ [repeat None n]) (List.length store) i text
  = if i <? n then Ok None else Fatal text.
Proof.
  unfold slot_get. rewrite subscript_middle. osimpl. rewrite repeat_length.
  destruct (i <? n) eqn:E; osimpl; [| reflexivity].
  apply subscript_Some, nth_error_repeat. now apply Nat.ltb_lt.
Qed.

Lemma slot_get_older_array {X : Type} (store : list (list (option X)))
    (fresh : list (option X)) (handle i n : nat) (text : string) :
  array_length store handle = Some n ->
  slot_get (store ++ [fresh]) handle i text = slot_get store handle i text.
Proof.
  unfold array_length, slot_get, subscript. intros Hlen.
  destruct (nth_error store handle) as [arr |] eqn:Harr; [| discriminate].
  rewrite nth_error_app1 by (apply nth_error_Some; congruence).
  now rewrite Harr.
Qed.

(** X9: the ImageSetData constructor throws when the reader and the masker
    differ in length; otherwise the new collection has one slot per image,
    every beam, detector, goniometer and scan slot is NULL, an index at or
    beyond the length makes each getter throw, and the slots of collections
    already in the store read as before. *)
Theorem ImageSetData_new_slots
    (Beam Goniometer : Type) (reader masker : Reader) (h : Heap Beam Goniometer) :
  (rd_len reader <> rd_len masker ->
   fst (ImageSetData_new reader masker h)
     = Fatal "boost::python::len(reader) == boost::python::len(masker)")
  /\ (rd_len reader = rd_len masker ->
      exists data h',
        ImageSetData_new reader masker h = (Ok data, h')
        /\ ImageSetData_size data = rd_len reader
        /\ data_allocated h' data
        /\ (forall i, i < rd_len reader ->
              models_at h' data i = Ok (None, None, None, None))
        /\ (forall i, rd_len reader <= i ->
              ImageSetData_get_beam data h' i = Fatal "index < beams_.size()"
              /\ ImageSetData_get_detector data h' i
                 = Fatal "index < detectors_.size()"
              /\ ImageSetData_get_goniometer data h' i
                 = Fatal "index < goniometers_.size()"
              /\ ImageSetData_get_scan data h' i = Fatal "index < scans_.size()")
        /\ (forall older i,
              data_allocated h older ->
              models_at h' older i = models_at h older i)).
Proof.
  unfold ImageSetData_new. split.
  - intros Hne. rewrite (proj2 (Nat.eqb_neq _ _) Hne). reflexivity.
  - intros Heq. rewrite (proj2 (Nat.eqb_eq _ _) Heq). cbn [DXTBX_ASSERT].
    eexists; eexists. split; [reflexivity |].
    split; [reflexivity | split; [| split; [| split]]].
    + unfold data_allocated, array_length, ImageSetData_size;
        cbn [sd_beams_ sd_detectors_ sd_goniometers_ sd_scans_ sd_data_
             beam_arrays detector_arrays goniometer_arrays scan_arrays].
      repeat split;
        (rewrite nth_error_app2 by lia; rewrite Nat.sub_diag;
         cbn [nth_error option_map]; now rewrite repeat_length).
    + intros i Hi. apply Nat.ltb_lt in Hi.
      unfold models_at, ImageSetData_get_beam, ImageSetData_get_detector,
        ImageSetData_get_goniometer, ImageSetData_get_scan;
        cbn [sd_beams_ sd_detectors_ sd_goniometers_ sd_scans_
             beam_arrays detector_arrays goniometer_arrays scan_arrays].
      rewrite (@slot_get_fresh_array Beam (beam_arrays h)),
        (@slot_get_fresh_array Detector (detector_arrays h)),
        (@slot_get_fresh_array Goniometer (goniometer_arrays h)),
        (@slot_get_fresh_array Scan (scan_arrays h)), Hi. reflexivity.
    + intros i Hi. apply Nat.ltb_ge in Hi.
      unfold ImageSetData_get_beam, ImageSetData_get_detector,
        ImageSetData_get_goniometer, ImageSetData_get_scan;
        cbn [sd_beams_ sd_detectors_ sd_goniometers_ sd_scans_
             beam_arrays detector_arrays goniometer_arrays scan_arrays].
      rewrite (@slot_get_fresh_array Beam (beam_arrays h)),
        (@slot_get_fresh_array Detector (detector_arrays h)),
        (@slot_get_fresh_array Goniometer (goniometer_arrays h)),
        (@slot_get_fresh_array Scan (scan_arrays h)), Hi. repeat split.
    + intros older i (Hb & Hd & Hg & Hs).
      unfold models_at, ImageSetData_get_beam, ImageSetData_get_detector,
        ImageSetData_get_goniometer, ImageSetData_get_scan;
        cbn [beam_arrays detector_arrays goniometer_arrays scan_arrays].
      rewrite (slot_get_older_array _ _ _ _ _ Hb),
        (slot_get_older_array _ _ _ _ _ Hd),
        (slot_get_older_array _ _ _ _ _ Hg),
        (slot_get_older_array _ _ _ _ _ Hs).
      reflexivity.
Qed.

Lemma ImageSetData_new_slots_witness :
  let h := example_heap 2 in
  fst (ImageSetData_new (example_reader 3) (example_reader 4) h)
    = Fatal "boost::python::len(reader) == boost::python::len(masker)"
  /\ exists data h',
       ImageSetData_new (example_reader 3) (example_reader 3) h = (Ok data, h')
       /\ models_at h' data 2 = Ok (None, None, None, None)
       /\ ImageSetData_get_scan data h' 3 = Fatal "index < scans_.size()"
       /\ models_at h' (example_data 2) 1 = models_at h (example_data 2) 1.
Proof.
  cbv zeta.
  destruct (@ImageSetData_new_slots unit unit (example_reader 3) (example_reader 4)
              (example_heap 2)) as [Hbad _].
  destruct (@ImageSetData_new_slots unit unit (example_reader 3) (example_reader 3)
              (example_heap 2)) as [_ Hgood].
  split; [apply Hbad; discriminate |].
  destruct (Hgood eq_refl) as (data & h' & Hnew & _ & _ & Hnull & Hout & Hold).
  exists data, h'. split; [exact Hnew | split; [| split]].
  - apply Hnull. cbn. lia.
  - apply (Hout 3). cbn. lia.
  - apply Hold. repeat split.
Defined.

Lemma slot_set_other_handle {X : Type} (store store' : list (list (option X)))
    (handle other index k : nat) (v : option X) (text text' : string) :
  slot_set store handle index v text = Ok store' ->
  other <> handle ->
  slot_get store' other k text' = slot_get store other k text'.
Proof.
  intros H Hne. apply slot_set_inv in H as (arr & Harr & Hlt & ->).
  unfold slot_get, subscript. rewrite nth_error_update_neq by congruence.
  reflexivity.
Qed.

Lemma slot_set_out_of_range {X : Type} (store : list (list (option X)))
    (handle index : nat) (v : option X) (text : string) (n : nat) :
  array_length store handle = Some n ->
  n <= index ->
  slot_set store handle index v text = Fatal text
  /\ slot_get store handle index text = Fatal text.
Proof.
  unfold array_length, slot_set, slot_get, subscript. intros Hlen Hle.
  destruct (nth_error store handle) as [arr |]; [| discriminate].
  cbn in Hlen. inversion Hlen; subst. osimpl.
  rewrite (proj2 (Nat.ltb_ge _ _) Hle). split; reflexivity.
Qed.



(** X11: a per-image setter that succeeds changes one slot of one kind:
    the slot of the physical index behind the logical one then holds the
    model set, every other slot of that kind reads as before, also in other
    collections, and the arrays of the three other kinds are untouched. *)
Theorem per_image_set_changes_one_slot
    (Beam Goniometer : Type) (this : ImageSet) (h h' : Heap Beam Goniometer)
    (index phys : nat) :
  nth_error (is_indices_ this) index = Some phys ->
  (forall beam,
      ImageSet_set_beam_for_image this index beam h = (Ok tt, h') ->
      ImageSetData_get_beam (is_data_ this) h' phys = Ok beam
      /\ (forall other, other <> phys ->
            ImageSetData_get_beam (is_data_ this) h' other
              = ImageSetData_get_beam (is_data_ this) h other)
      /\ (forall data k, sd_beams_ data <> sd_beams_ (is_data_ this) ->
            ImageSetData_get_beam data h' k = ImageSetData_get_beam data h k)
      /\ detector_arrays h' = detector_arrays h
      /\ goniometer_arrays h' = goniometer_arrays h
      /\ scan_arrays h' = scan_arrays h)
  /\ (forall detector,
        ImageSet_set_detector_for_image this index detector h = (Ok tt, h') ->
        ImageSetData_get_detector (is_data_ this) h' phys = Ok detector
        /\ (forall other, other <> phys ->
              ImageSetData_get_detector (is_data_ this) h' other
                = ImageSetData_get_detector (is_data_ this) h other)
        /\ (forall data k, sd_detectors_ data <> sd_detectors_ (is_data_ this) ->
              ImageSetData_get_detector data h' k = ImageSetData_get_detector data h k)
        /\ beam_arrays h' = beam_arrays h
        /\ goniometer_arrays h' = goniometer_arrays h
        /\ scan_arrays h' = scan_arrays h)
  /\ (forall goniometer,
        ImageSet_set_goniometer_for_image this index goniometer h = (Ok tt, h') ->
        ImageSetData_get_goniometer (is_data_ this) h' phys = Ok goniometer
        /\ (forall other, other <> phys ->
              ImageSetData_get_goniometer (is_data_ this) h' other
                = ImageSetData_get_goniometer (is_data_ this) h other)
        /\ (forall data k, sd_goniometers_ data <> sd_goniometers_ (is_data_ this) ->
              ImageSetData_get_goniometer data h' k
                = ImageSetData_get_goniometer data h k)
        /\ beam_arrays h' = beam_arrays h
        /\ detector_arrays h' = detector_arrays h
        /\ scan_arrays h' = scan_arrays h)
  /\ (forall scan,
        ImageSet_set_scan_for_image this index scan h = (Ok tt, h') ->
        ImageSetData_get_scan (is_data_ this) h' phys = Ok scan
        /\ (forall other, other <> phys ->
              ImageSetData_get_scan (is_data_ this) h' other
                = ImageSetData_get_scan (is_data_ this) h other)
        /\ (forall data k, sd_scans_ data <> sd_scans_ (is_data_ this) ->
              ImageSetData_get_scan data h' k = ImageSetData_get_scan data h k)
        /\ beam_arrays h' = beam_arrays h
        /\ detector_arrays h' = detector_arrays h
        /\ goniometer_arrays h' = goniometer_arrays h).
Proof.
  intros Hidx.
  assert (Hframe : forall X (store store' : list (list (option X))) hd v t t',
             slot_set store hd phys v t = Ok store' ->
             slot_get store' hd phys t' = Ok v
             /\ (forall other, other <> phys ->
                   slot_get store' hd other t' = slot_get store hd other t')
             /\ (forall hd' k, hd' <> hd ->
                   slot_get store' hd' k t' = slot_get store hd' k t')).
  { intros X store store' hd v t t' Hset. split; [| split].
    - eapply slot_get_after_set; eauto.
    - intros other Hne. eapply slot_get_after_set_other; eauto.
    - intros hd' k Hne. eapply slot_set_other_handle; eauto. }
  split; [| split; [| split]].
  - intros beam Hset. revert Hset. at_index Hidx. intros Hset. commit_inv Hset.
    destruct (Hframe _ _ _ _ _ _ "index < beams_.size()" Eset) as (H1 & H2 & H3).
    unfold ImageSetData_get_beam; cbn [put_beams beam_arrays detector_arrays
      goniometer_arrays scan_arrays].
    repeat split; auto.
  - intros detector Hset. revert Hset. at_index Hidx. intros Hset. commit_inv Hset.
    destruct (Hframe _ _ _ _ _ _ "index < detectors_.size()" Eset) as (H1 & H2 & H3).
    unfold ImageSetData_get_detector; cbn [put_detectors beam_arrays detector_arrays
      goniometer_arrays scan_arrays].
    repeat split; auto.
  - intros goniometer Hset. revert Hset. at_index Hidx. intros Hset. commit_inv Hset.
    destruct (Hframe _ _ _ _ _ _ "index < goniometers_.size()" Eset) as (H1 & H2 & H3).
    unfold ImageSetData_get_goniometer; cbn [put_goniometers beam_arrays
      detector_arrays goniometer_arrays scan_arrays].
    repeat split; auto.
  - intros scan Hset. revert Hset. at_index Hidx.
    destruct (scan_is_null_or_single scan); osimpl; [| discriminate].
    intros Hset. commit_inv Hset.
    destruct (Hframe _ _ _ _ _ _ "index < scans_.size()" Eset) as (H1 & H2 & H3).
    unfold ImageSetData_get_scan; cbn [put_scans beam_arrays detector_arrays
      goniometer_arrays scan_arrays].
    repeat split; auto.
Qed.

Lemma per_image_set_changes_one_slot_witness :
  let this := mkImageSet (example_data 3) [2; 0] DataCache_default in
  let h := example_heap 3 in
  let scan := Some (mkScan (4, 4)%Z) in
  exists h',
    nth_error (is_indices_ this) 0 = Some 2
    /\ ImageSet_set_scan_for_image this 0 scan h = (Ok tt, h')
    /\ ImageSetData_get_scan (is_data_ this) h' 2 = Ok scan
    /\ ImageSetData_get_scan (is_data_ this) h' 0 = Ok None
    /\ detector_arrays h' = detector_arrays h.
Proof.
  cbv zeta.
  exists (snd (ImageSet_set_scan_for_image
                 (mkImageSet (example_data 3) [2; 0] DataCache_default) 0
                 (Some (mkScan (4, 4)%Z)) (example_heap 3))).
  split; [reflexivity | split; [reflexivity |]].
  destruct (@per_image_set_changes_one_slot unit unit
              (mkImageSet (example_data 3) [2; 0] DataCache_default)
              (example_heap 3)
              (snd (ImageSet_set_scan_for_image
                      (mkImageSet (example_data 3) [2; 0] DataCache_default) 0
                      (Some (mkScan (4, 4)%Z)) (example_heap 3)))
              0 2 eq_refl) as (_ & _ & _ & Hscan).
  destruct (Hscan (Some (mkScan (4, 4)%Z)) eq_refl) as (Hget & Hother & _ & _ & Hd & _).
  split; [exact Hget | split; [| exact Hd]].
  rewrite (Hother 0) by discriminate. reflexivity.
Defined.

(* ------------------------------------------------------------------ *)
(** ** The collection-wide setters of a sweep *)

Section StoreLoop.
Variables Beam Goniometer X : Type.
(** One kind of slot array inside the heap, and what else the heap holds. *)
Variable arr : Heap Beam Goniometer -> list (list (option X)).
Variable put : list (list (option X)) -> Heap Beam Goniometer -> Heap Beam Goniometer.
Variable elsewhere : Heap Beam Goniometer -> Heap Beam Goniometer -> Prop.
Hypothesis arr_put : forall a h, arr (put a h) = a.
Hypothesis elsewhere_put : forall a h0 h, elsewhere h0 h -> elsewhere h0 (put a h).

Variable handle start len n : nat.
Variable value : nat -> option X.
Variable text : string.
Variable body : nat -> M (Heap Beam Goniometer) unit.
Hypothesis body_writes :
  forall i h, i < len ->
    body i h = commit (slot_set (arr h) handle (start + i) (value i) text) put h.
Hypothesis in_range : start + len <= n.

(** A loop that writes [value i] into slot [start + i], entered at [lo]. *)
Lemma store_loop (count lo : nat) (h0 h : Heap Beam Goniometer) :
  lo + count = len ->
  array_length (arr h) handle = Some n ->
  elsewhere h0 h ->
  exists h',
    for_loop lo count body h = (Ok tt, h')
    /\ array_length (arr h') handle = Some n
    /\ elsewhere h0 h'
    /\ (forall k text', lo <= k < len ->
          slot_get (arr h') handle (start + k) text' = Ok (value k))
    /\ (forall phys text', phys < start + lo \/ start + len <= phys ->
          slot_get (arr h') handle phys text' = slot_get (arr h) handle phys text').
Proof.
  revert lo h. induction count as [|count IH]; intros lo h Hlo Hlen Helse0.
  - exists h.
    split; [reflexivity | split; [exact Hlen | split; [exact Helse0 |]]].
    split; [intros k t Hk; lia | reflexivity].
  - assert (Hphys : start + lo < n) by lia.
    pose proof (write_slot_set (arr h) handle (value lo) text Hlen Hphys) as Hset.
    assert (Hrun : body lo h
                   = (Ok tt, put (write_slot (arr h) handle (start + lo) (value lo)) h)).
    { rewrite body_writes by lia. unfold commit. now rewrite Hset. }
    assert (Hlen1 : array_length
                      (arr (put (write_slot (arr h) handle (start + lo) (value lo)) h))
                      handle = Some n).
    { rewrite arr_put. erewrite write_slot_length; eauto. }
    assert (Hlo' : S lo + count = len) by lia.
    destruct (IH (S lo) _ Hlo' Hlen1 (elsewhere_put _ Helse0))
      as (h' & Hloop & Hlen' & Helse & Hnew & Hold).
    exists h'. split; [| split; [exact Hlen' | split; [exact Helse | split]]].
    + cbn [for_loop]. unfold bind. rewrite Hrun. exact Hloop.
    + intros k t Hk. destruct (Nat.eq_dec k lo) as [-> | Hne].
      * rewrite Hold by lia. rewrite arr_put.
        eapply write_slot_get; eauto.
      * apply Hnew. lia.
    + intros phys t Hout. rewrite Hold by lia. rewrite arr_put.
      eapply write_slot_get_other; eauto. lia.
Qed.
End StoreLoop.

Section SweepSetters.
Variables Beam Goniometer : Type.
Variable h : Heap Beam Goniometer.
Variable base : ImageSet.
Variables start len : nat.
Hypothesis Hsweep : sweep_contiguous h base start len.

Lemma sweep_position (i : nat) :
  i < len -> nth_error (is_indices_ base) i = Some (start + i).
Proof.
  intros Hi. destruct Hsweep as (_ & Hidx & _). rewrite Hidx.
  now apply nth_error_seq_at.
Qed.

Lemma sweep_size : ImageSet_size base = len.
Proof.
  destruct Hsweep as (_ & Hidx & _). unfold ImageSet_size.
  now rewrite Hidx, length_seq.
Qed.

Lemma set_beam_everywhere (beam : beam_ptr Beam) :
  exists h',
    for_loop 0 len (fun i => ImageSet_set_beam_for_image base i beam) h = (Ok tt, h')
    /\ sweep_contiguous h' base start len
    /\ detector_arrays h' = detector_arrays h
    /\ goniometer_arrays h' = goniometer_arrays h
    /\ scan_arrays h' = scan_arrays h
    /\ (forall k, k < len -> ImageSet_get_beam_for_image base h' k = Ok beam)
    /\ (forall phys, phys < start \/ start + len <= phys ->
          ImageSetData_get_beam (is_data_ base) h' phys
            = ImageSetData_get_beam (is_data_ base) h phys).
Proof.
  destruct Hsweep as ((Hb & Hd & Hg & Hs) & Hidx & Hsize).
  destruct (@store_loop Beam Goniometer Beam (@beam_arrays Beam Goniometer)
              (@put_beams Beam Goniometer)
              (fun h0 h1 => detector_arrays h1 = detector_arrays h0
                            /\ goniometer_arrays h1 = goniometer_arrays h0
                            /\ scan_arrays h1 = scan_arrays h0)
              (fun _ _ => eq_refl) (fun _ _ _ H => H)
              (sd_beams_ (is_data_ base)) start len (ImageSetData_size (is_data_ base))
              (fun _ => beam) "index < beams_.size()"
              (fun i => ImageSet_set_beam_for_image base i beam))
    with (count := len) (lo := 0) (h0 := h) (h := h)
    as (h' & Hloop & Hlen & (Ed & Eg & Es) & Hnew & Hold);
    try solve [auto | lia].
  - intros i h1 Hi. pose proof (sweep_position Hi) as Hp. at_index Hp. reflexivity.
  - exists h'. split; [exact Hloop |].
    split; [| split; [exact Ed | split; [exact Eg | split; [exact Es | split]]]].
    + split; [| split; assumption].
      unfold data_allocated. rewrite Ed, Eg, Es. repeat split; assumption.
    + intros k Hk. pose proof (sweep_position Hk) as Hp. at_index Hp.
      apply Hnew. lia.
    + intros phys Hout. apply Hold. lia.
Qed.

Lemma set_detector_everywhere (detector : detector_ptr) :
  exists h',
    for_loop 0 len (fun i => ImageSet_set_detector_for_image base i detector) h
      = (Ok tt, h')
    /\ sweep_contiguous h' base start len
    /\ beam_arrays h' = beam_arrays h
    /\ goniometer_arrays h' = goniometer_arrays h
    /\ scan_arrays h' = scan_arrays h
    /\ (forall k, k < len -> ImageSet_get_detector_for_image base h' k = Ok detector)
    /\ (forall phys, phys < start \/ start + len <= phys ->
          ImageSetData_get_detector (is_data_ base) h' phys
            = ImageSetData_get_detector (is_data_ base) h phys).
Proof.
  destruct Hsweep as ((Hb & Hd & Hg & Hs) & Hidx & Hsize).
  destruct (@store_loop Beam Goniometer Detector (@detector_arrays Beam Goniometer)
              (@put_detectors Beam Goniometer)
              (fun h0 h1 => beam_arrays h1 = beam_arrays h0
                            /\ goniometer_arrays h1 = goniometer_arrays h0
                            /\ scan_arrays h1 = scan_arrays h0)
              (fun _ _ => eq_refl) (fun _ _ _ H => H)
              (sd_detectors_ (is_data_ base)) start len
              (ImageSetData_size (is_data_ base))
              (fun _ => detector) "index < detectors_.size()"
              (fun i => ImageSet_set_detector_for_image base i detector))
    with (count := len) (lo := 0) (h0 := h) (h := h)
    as (h' & Hloop & Hlen & (Eb & Eg & Es) & Hnew & Hold);
    try solve [auto | lia].
  - intros i h1 Hi. pose proof (sweep_position Hi) as Hp. at_index Hp. reflexivity.
  - exists h'. split; [exact Hloop |].
    split; [| split; [exact Eb | split; [exact Eg | split; [exact Es | split]]]].
    + split; [| split; assumption].
      unfold data_allocated. rewrite Eb, Eg, Es. repeat split; assumption.
    + intros k Hk. pose proof (sweep_position Hk) as Hp. at_index Hp.
      apply Hnew. lia.
    + intros phys Hout. apply Hold. lia.
Qed.

Lemma set_goniometer_everywhere (goniometer : goniometer_ptr Goniometer) :
  exists h',
    for_loop 0 len (fun i => ImageSet_set_goniometer_for_image base i goniometer) h
      = (Ok tt, h')
    /\ sweep_contiguous h' base start len
    /\ beam_arrays h' = beam_arrays h
    /\ detector_arrays h' = detector_arrays h
    /\ scan_arrays h' = scan_arrays h
    /\ (forall k, k < len ->
          ImageSet_get_goniometer_for_image base h' k = Ok goniometer)
    /\ (forall phys, phys < start \/ start + len <= phys ->
          ImageSetData_get_goniometer (is_data_ base) h' phys
            = ImageSetData_get_goniometer (is_data_ base) h phys).
Proof.
  destruct Hsweep as ((Hb & Hd & Hg & Hs) & Hidx & Hsize).
  destruct (@store_loop Beam Goniometer Goniometer
              (@goniometer_arrays Beam Goniometer)
              (@put_goniometers Beam Goniometer)
              (fun h0 h1 => beam_arrays h1 = beam_arrays h0
                            /\ detector_arrays h1 = detector_arrays h0
                            /\ scan_arrays h1 = scan_arrays h0)
              (fun _ _ => eq_refl) (fun _ _ _ H => H)
              (sd_goniometers_ (is_data_ base)) start len
              (ImageSetData_size (is_data_ base))
              (fun _ => goniometer) "index < goniometers_.size()"
              (fun i => ImageSet_set_goniometer_for_image base i goniometer))
    with (count := len) (lo := 0) (h0 := h) (h := h)
    as (h' & Hloop & Hlen & (Eb & Ed & Es) & Hnew & Hold);
    try solve [auto | lia].
  - intros i h1 Hi. pose proof (sweep_position Hi) as Hp. at_index Hp. reflexivity.
  - exists h'. split; [exact Hloop |].
    split; [| split; [exact Eb | split; [exact Ed | split; [exact Es | split]]]].
    + split; [| split; assumption].
      unfold data_allocated. rewrite Eb, Ed, Es. repeat split; assumption.
    + intros k Hk. pose proof (sweep_position Hk) as Hp. at_index Hp.
      apply Hnew. lia.
    + intros phys Hout. apply Hold. lia.
Qed.
End SweepSetters.

(** X12: on a sweep whose view is the contiguous physical range
    start .. start+len-1 of an allocated collection, set_beam,
    set_detector and set_goniometer each succeed, replace the sweep's own
    member, and leave every image of the sweep reading the new model; the
    slots of the same kind outside the sweep's range and the arrays of the
    other three kinds are what they were. *)
Theorem sweep_setters_reach_every_image (Beam Goniometer : Type)
    (w : ImageSweep Beam Goniometer) (h : Heap Beam Goniometer)
    (start len : nat) :
  sweep_contiguous h (sweep_base w) start len ->
  (forall beam, exists w' h',
     ImageSweep_set_beam beam (w, h) = (Ok tt, (w', h'))
     /\ w' = mkImageSweep (sweep_base w) (Some beam) (sw_detector_ w)
                          (sw_goniometer_ w) (sw_scan_ w)
     /\ sweep_contiguous h' (sweep_base w') start len
     /\ (forall k, k < ImageSet_size (sweep_base w') ->
           ImageSet_get_beam_for_image (sweep_base w') h' k = Ok (Some beam))
     /\ (forall phys, phys < start \/ start + len <= phys ->
           ImageSetData_get_beam (is_data_ (sweep_base w)) h' phys
             = ImageSetData_get_beam (is_data_ (sweep_base w)) h phys)
     /\ detector_arrays h' = detector_arrays h
     /\ goniometer_arrays h' = goniometer_arrays h
     /\ scan_arrays h' = scan_arrays h)
  /\ (forall detector, exists w' h',
     ImageSweep_set_detector detector (w, h) = (Ok tt, (w', h'))
     /\ w' = mkImageSweep (sweep_base w) (sw_beam_ w) (Some detector)
                          (sw_goniometer_ w) (sw_scan_ w)
     /\ sweep_contiguous h' (sweep_base w') start len
     /\ (forall k, k < ImageSet_size (sweep_base w') ->
           ImageSet_get_detector_for_image (sweep_base w') h' k
             = Ok (Some detector))
     /\ (forall phys, phys < start \/ start + len <= phys ->
           ImageSetData_get_detector (is_data_ (sweep_base w)) h' phys
             = ImageSetData_get_detector (is_data_ (sweep_base w)) h phys)
     /\ beam_arrays h' = beam_arrays h
     /\ goniometer_arrays h' = goniometer_arrays h
     /\ scan_arrays h' = scan_arrays h)
  /\ (forall goniometer, exists w' h',
     ImageSweep_set_goniometer goniometer (w, h) = (Ok tt, (w', h'))
     /\ w' = mkImageSweep (sweep_base w) (sw_beam_ w) (sw_detector_ w)
                          (Some goniometer) (sw_scan_ w)
     /\ sweep_contiguous h' (sweep_base w') start len
     /\ (forall k, k < ImageSet_size (sweep_base w') ->
           ImageSet_get_goniometer_for_image (sweep_base w') h' k
             = Ok (Some goniometer))
     /\ (forall phys, phys < start \/ start + len <= phys ->
           ImageSetData_get_goniometer (is_data_ (sweep_base w)) h' phys
             = ImageSetData_get_goniometer (is_data_ (sweep_base w)) h phys)
     /\ beam_arrays h' = beam_arrays h
     /\ detector_arrays h' = detector_arrays h
     /\ scan_arrays h' = scan_arrays h).
Proof.
  intros Hsweep. pose proof (sweep_size Hsweep) as Hsize.
  split; [| split].
  - intros beam.
    destruct (set_beam_everywhere Hsweep (Some beam))
      as (h' & Hloop & Hc & Ed & Eg & Es & Hnew & Hold).
    eexists; exists h'. unfold ImageSweep_set_beam. cbn [fst snd sweep_base].
    rewrite Hsize, Hloop. cbn [fst snd].
    split; [reflexivity | split; [reflexivity |]]. cbn [sweep_base].
    rewrite Hsize.
    split; [exact Hc | split; [exact Hnew | split; [exact Hold |]]].
    repeat split; assumption.
  - intros detector.
    destruct (set_detector_everywhere Hsweep (Some detector))
      as (h' & Hloop & Hc & Eb & Eg & Es & Hnew & Hold).
    eexists; exists h'. unfold ImageSweep_set_detector. cbn [fst snd sweep_base].
    rewrite Hsize, Hloop. cbn [fst snd].
    split; [reflexivity | split; [reflexivity |]]. cbn [sweep_base].
    rewrite Hsize.
    split; [exact Hc | split; [exact Hnew | split; [exact Hold |]]].
    repeat split; assumption.
  - intros goniometer.
    destruct (set_goniometer_everywhere Hsweep (Some goniometer))
      as (h' & Hloop & Hc & Eb & Ed & Es & Hnew & Hold).
    eexists; exists h'. unfold ImageSweep_set_goniometer. cbn [fst snd sweep_base].
    rewrite Hsize, Hloop. cbn [fst snd].
    split; [reflexivity | split; [reflexivity |]]. cbn [sweep_base].
    rewrite Hsize.
    split; [exact Hc | split; [exact Hnew | split; [exact Hold |]]].
    repeat split; assumption.
Qed.

Lemma sweep_setters_reach_every_image_witness :
  let detector := example_detector 2%float in
  sweep_contiguous (example_heap 3) (sweep_base example_sweep) 1 2
  /\ exists w' h',
       ImageSweep_set_detector detector (example_sweep, example_heap 3)
         = (Ok tt, (w', h'))
       /\ ImageSweep_get_detector w' = Some detector
       /\ ImageSet_get_detector_for_image (sweep_base w') h' 1 = Ok (Some detector)
       /\ ImageSetData_get_detector (example_data 3) h' 0 = Ok None.
Proof.
  cbv zeta.
  assert (Hc : sweep_contiguous (example_heap 3) (sweep_base example_sweep) 1 2).
  { split; [repeat split | split; [reflexivity | cbn; lia]]. }
  split; [exact Hc |].
  destruct (@sweep_setters_reach_every_image unit unit example_sweep
              (example_heap 3) 1 2 Hc) as (_ & Hdet & _).
  destruct (Hdet (example_detector 2%float))
    as (w' & h' & Hrun & Hw & _ & Hnew & Hold & _).
  exists w', h'. split; [exact Hrun |]. split; [rewrite Hw; reflexivity |].
  split.
  - apply Hnew. rewrite Hw. cbn. lia.
  - change (example_data 3) with (is_data_ (sweep_base example_sweep)).
    rewrite (Hold 0) by (left; lia). reflexivity.
Defined.

Lemma set_scan_everywhere (Beam Goniometer : Type) (h : Heap Beam Goniometer)
    (base : ImageSet) (start len : nat) (scan : Scan) :
  sweep_contiguous h base start len ->
  Scan_get_num_images scan = Z.of_nat len ->
  (Z.of_nat len < 2 ^ 31)%Z ->
  let slice k := mkScan ((fst (image_range_ scan) + Z.of_nat k)%Z,
                         (fst (image_range_ scan) + Z.of_nat k)%Z) in
  exists h',
    for_loop 0 len
      (fun i =>
         (s <- lift (Scan_getitem scan (int_of_size_t i)) ;;
          ImageSet_set_scan_for_image base i (Some s))%call) h = (Ok tt, h')
    /\ sweep_contiguous h' base start len
    /\ beam_arrays h' = beam_arrays h
    /\ detector_arrays h' = detector_arrays h
    /\ goniometer_arrays h' = goniometer_arrays h
    /\ (forall k, k < len ->
          ImageSet_get_scan_for_image base h' k = Ok (Some (slice k)))
    /\ (forall phys, phys < start \/ start + len <= phys ->
          ImageSetData_get_scan (is_data_ base) h' phys
            = ImageSetData_get_scan (is_data_ base) h phys).
Proof.
  intros Hsweep Hnum Hint slice.
  pose proof Hsweep as ((Hb & Hd & Hg & Hs) & Hidx & Hsize).
  destruct (@store_loop Beam Goniometer Scan (@scan_arrays Beam Goniometer)
              (@put_scans Beam Goniometer)
              (fun h0 h1 => beam_arrays h1 = beam_arrays h0
                            /\ detector_arrays h1 = detector_arrays h0
                            /\ goniometer_arrays h1 = goniometer_arrays h0)
              (fun _ _ => eq_refl) (fun _ _ _ H => H)
              (sd_scans_ (is_data_ base)) start len
              (ImageSetData_size (is_data_ base))
              (fun k => Some (slice k)) "index < scans_.size()"
              (fun i =>
                 (s <- lift (Scan_getitem scan (int_of_size_t i)) ;;
                  ImageSet_set_scan_for_image base i (Some s))%call))
    with (count := len) (lo := 0) (h0 := h) (h := h)
    as (h' & Hloop & Hlen & (Eb & Ed & Eg) & Hnew & Hold);
    try solve [auto | lia].
  - intros i h1 Hi. pose proof (sweep_position Hsweep Hi) as Hp.
    rewrite int_of_size_t_small by lia.
    unfold bind, lift. rewrite Scan_getitem_in_range by lia.
    fold (slice i). unfold ImageSet_set_scan_for_image.
    unfold scan_is_null_or_single. unfold slice at 1.
    rewrite single_image_slice.
    change (1 =? 1)%Z with true. at_index Hp. reflexivity.
  - exists h'. split; [exact Hloop |].
    split; [| split; [exact Eb | split; [exact Ed | split; [exact Eg | split]]]].
    + split; [| split; assumption].
      unfold data_allocated. rewrite Eb, Ed, Eg. repeat split; assumption.
    + intros k Hk. pose proof (sweep_position Hsweep Hk) as Hp. at_index Hp.
      apply Hnew. lia.
    + intros phys Hout. apply Hold. lia.
Qed.

(** X13: ImageSweep::set_scan.  A scan whose image count differs from the
    sweep's size is refused before anything is changed: the sweep keeps its
    scan member and the heap is untouched.  A scan of exactly size() images
    replaces the member, and image k of the sweep then reads the one-image
    slice scan[k]; beams, detectors and goniometers and the scan slots
    outside the sweep's range are what they were. *)
Theorem sweep_set_scan_slices (Beam Goniometer : Type)
    (w : ImageSweep Beam Goniometer) (h : Heap Beam Goniometer) (scan : Scan) :
  (size_t_of_int (Scan_get_num_images scan)
     <> Z.of_nat (ImageSet_size (sweep_base w)) ->
   ImageSweep_set_scan scan (w, h)
     = (Fatal "scan.get_num_images() == size()", (w, h)))
  /\ (forall start len,
        sweep_contiguous h (sweep_base w) start len ->
        Scan_get_num_images scan = Z.of_nat len ->
        (Z.of_nat len < 2 ^ 31)%Z ->
        exists w' h',
          ImageSweep_set_scan scan (w, h) = (Ok tt, (w', h'))
          /\ w' = mkImageSweep (sweep_base w) (sw_beam_ w) (sw_detector_ w)
                               (sw_goniometer_ w) (Some scan)
          /\ sweep_contiguous h' (sweep_base w') start len
          /\ (forall k, k < ImageSet_size (sweep_base w') ->
                exists s,
                  Scan_getitem scan (Z.of_nat k) = Ok s
                  /\ Scan_get_num_images s = 1%Z
                  /\ ImageSet_get_scan_for_image (sweep_base w') h' k
                     = Ok (Some s))
          /\ (forall phys, phys < start \/ start + len <= phys ->
                ImageSetData_get_scan (is_data_ (sweep_base w)) h' phys
                  = ImageSetData_get_scan (is_data_ (sweep_base w)) h phys)
          /\ beam_arrays h' = beam_arrays h
          /\ detector_arrays h' = detector_arrays h
          /\ goniometer_arrays h' = goniometer_arrays h).
Proof.
  split.
  - intros Hne. unfold ImageSweep_set_scan. cbn [fst snd].
    apply Z.eqb_neq in Hne. rewrite Hne. destruct w. reflexivity.
  - intros start len Hsweep Hnum Hint.
    pose proof (sweep_size Hsweep) as Hsize.
    destruct (set_scan_everywhere scan Hsweep Hnum Hint)
      as (h' & Hloop & Hc & Eb & Ed & Eg & Hnew & Hold).
    eexists; exists h'. unfold ImageSweep_set_scan. cbn [fst snd sweep_base].
    rewrite Hsize, Hnum, size_t_of_int_small by lia.
    rewrite Z.eqb_refl. cbn [DXTBX_ASSERT]. rewrite Hloop. cbn [fst snd].
    split; [reflexivity | split; [reflexivity |]]. cbn [sweep_base].
    rewrite Hsize.
    split; [exact Hc | split; [| split; [exact Hold |]]].
    + intros k Hk. eexists. split; [apply Scan_getitem_in_range; lia |].
      split; [apply single_image_slice | apply Hnew; exact Hk].
    + repeat split; assumption.
Qed.

Lemma sweep_set_scan_slices_witness :
  let h := example_heap 3 in
  (forall scan, scan = mkScan (5, 7)%Z ->
     size_t_of_int (Scan_get_num_images scan)
       <> Z.of_nat (ImageSet_size (sweep_base example_sweep))
     /\ ImageSweep_set_scan scan (example_sweep, h)
        = (Fatal "scan.get_num_images() == size()", (example_sweep, h)))
  /\ (forall scan, scan = mkScan (5, 6)%Z ->
     sweep_contiguous h (sweep_base example_sweep) 1 2
     /\ Scan_get_num_images scan = Z.of_nat 2
     /\ exists w' h',
          ImageSweep_set_scan scan (example_sweep, h) = (Ok tt, (w', h'))
          /\ ImageSweep_get_scan w' = Some scan
          /\ ImageSet_get_scan_for_image (sweep_base w') h' 1
             = Ok (Some (mkScan (6, 6)%Z))).
Proof.
  cbv zeta. split; intros scan ->.
  - assert (Hne : size_t_of_int (Scan_get_num_images (mkScan (5, 7)%Z))
                  <> Z.of_nat (ImageSet_size (sweep_base example_sweep)))
      by (vm_compute; discriminate).
    split; [exact Hne |].
    exact (proj1 (@sweep_set_scan_slices unit unit example_sweep (example_heap 3)
                    (mkScan (5, 7)%Z)) Hne).
  - assert (Hc : sweep_contiguous (example_heap 3) (sweep_base example_sweep) 1 2).
    { split; [repeat split | split; [reflexivity | cbn; lia]]. }
    assert (Hnum : Scan_get_num_images (mkScan (5, 6)%Z) = Z.of_nat 2)
      by reflexivity.
    assert (Hint : (Z.of_nat 2 < 2 ^ 31)%Z) by (cbn; lia).
    split; [exact Hc | split; [exact Hnum |]].
    destruct (proj2 (@sweep_set_scan_slices unit unit example_sweep (example_heap 3)
                       (mkScan (5, 6)%Z)) 1 2 Hc Hnum Hint)
      as (w' & h' & Hrun & Hw & _ & Hnew & _).
    exists w', h'. split; [exact Hrun |]. split; [rewrite Hw; reflexivity |].
    destruct (Hnew 1) as (s & Hs & _ & Hget); [rewrite Hw; cbn; lia |].
    cbn in Hs. injection Hs as <-. exact Hget.
Defined.

(* ------------------------------------------------------------------ *)
(** ** A sweep seen as a plain image set *)

(** X14: as_imageset on a non-empty sweep returns a plain view of the same
    data and indices, through which the models of the sweep's images can be
    replaced one by one: set_beam_for_image and set_detector_for_image
    called on the sweep return with the heap as it was, so that every image
    reads what it read before, and called on the plain view they store the
    model, after which the sweep's own image k reads the model set through
    the plain view, whatever the sweep's beam or detector member says. *)
Theorem sweep_as_imageset_replaces_models (Beam Goniometer : Type)
    (w : ImageSweep Beam Goniometer) (h : Heap Beam Goniometer)
    (start len k : nat) :
  sweep_contiguous h (sweep_base w) start len ->
  k < len ->
  exists v,
    ImageSweep_as_imageset w = Ok v
    /\ is_data_ v = is_data_ (sweep_base w)
    /\ is_indices_ v = is_indices_ (sweep_base w)
    /\ (forall beam,
          set_beam_for_image (Sweep w) k beam h = (Ok tt, h)
          /\ exists h',
               set_beam_for_image (Plain v) k beam h = (Ok tt, h')
               /\ ImageSet_get_beam_for_image (sweep_base w) h' k = Ok beam)
    /\ (forall detector,
          set_detector_for_image (Sweep w) k detector h = (Ok tt, h)
          /\ exists h',
               set_detector_for_image (Plain v) k detector h = (Ok tt, h')
               /\ ImageSet_get_detector_for_image (sweep_base w) h' k
                  = Ok detector).
Proof.
  intros Hsweep Hk.
  pose proof Hsweep as ((Hb & Hd & Hg & Hs) & Hidx & Hsize).
  pose proof (sweep_position Hsweep Hk) as Hp.
  exists (mkImageSet (is_data_ (sweep_base w)) (is_indices_ (sweep_base w))
                     DataCache_default).
  split.
  { unfold ImageSweep_as_imageset. apply ImageSet_new_indices_in_range.
    - rewrite Hidx. destruct len; [lia | discriminate].
    - intros i Hi. rewrite Hidx in Hi. apply in_seq in Hi. lia. }
  split; [reflexivity | split; [reflexivity |]].
  assert (Hphys : start + k < ImageSetData_size (is_data_ (sweep_base w))) by lia.
  split.
  - intros beam. split; [reflexivity |].
    exists (put_beams (write_slot (beam_arrays h) (sd_beams_ (is_data_ (sweep_base w)))
                          (start + k) beam) h).
    cbn [set_beam_for_image base_of]. split.
    + unfold ImageSet_set_beam_for_image, ImageSet_size.
      cbn [is_data_ is_indices_]. at_index Hp.
      unfold ImageSetData_set_beam, commit.
      rewrite (write_slot_set _ _ beam _ Hb Hphys). reflexivity.
    + at_index Hp. unfold ImageSetData_get_beam. cbn [put_beams beam_arrays].
      exact (write_slot_get _ _ beam _ Hb Hphys).
  - intros detector. split; [reflexivity |].
    exists (put_detectors
              (write_slot (detector_arrays h) (sd_detectors_ (is_data_ (sweep_base w)))
                          (start + k) detector) h).
    cbn [set_detector_for_image base_of]. split.
    + unfold ImageSet_set_detector_for_image, ImageSet_size.
      cbn [is_data_ is_indices_]. at_index Hp.
      unfold ImageSetData_set_detector, commit.
      rewrite (write_slot_set _ _ detector _ Hd Hphys). reflexivity.
    + at_index Hp. unfold ImageSetData_get_detector.
      cbn [put_detectors detector_arrays].
      exact (write_slot_get _ _ detector _ Hd Hphys).
Qed.

Lemma sweep_as_imageset_replaces_models_witness :
  let w := mkImageSweep (sweep_base example_sweep) None
                        (Some (example_detector 2%float)) None None in
  let h := example_heap 3 in
  let other := Some (example_detector 3%float) in
  sweep_contiguous h (sweep_base w) 1 2
  /\ 1 < 2
  /\ exists v h',
       ImageSweep_as_imageset w = Ok v
       /\ set_detector_for_image (Sweep w) 1 other h = (Ok tt, h)
       /\ set_detector_for_image (Plain v) 1 other h = (Ok tt, h')
       /\ ImageSet_get_detector_for_image (sweep_base w) h' 1 = Ok other
       /\ ImageSweep_get_detector w = Some (example_detector 2%float).
Proof.
  cbv zeta.
  assert (Hc : sweep_contiguous (example_heap 3) (sweep_base example_sweep) 1 2).
  { split; [repeat split | split; [reflexivity | cbn; lia]]. }
  assert (Hk : 1 < 2) by lia.
  split; [exact Hc | split; [exact Hk |]].
  destruct (@sweep_as_imageset_replaces_models unit unit
              (mkImageSweep (sweep_base example_sweep) None
                            (Some (example_detector 2%float)) None None)
              (example_heap 3) 1 2 1 Hc Hk)
    as (v & Hv & _ & _ & _ & Hdet).
  destruct (Hdet (Some (example_detector 3%float))) as (Hsame & h' & Hset & Hget).
  exists v, h'. repeat split; assumption.
Defined.

(* ------------------------------------------------------------------ *)
(** ** What get_corrected_data changes *)

Lemma agree_except_refl {A : Type} (i : nat) (a : list A) : agree_except i a a.
Proof. split; auto. Qed.

Lemma agree_except_trans {A : Type} (i : nat) (a b c : list A) :
  agree_except i a b -> agree_except i b c -> agree_except i a c.
Proof.
  intros [Hl1 H1] [Hl2 H2]. split; [congruence |].
  intros k Hk. rewrite (H1 k Hk). now apply H2.
Qed.

Lemma agree_except_update {A : Type} (i : nat) (v : A) (a : list A) :
  agree_except i a (update i v a).
Proof.
  split; [now rewrite update_length |].
  intros k Hk. rewrite nth_error_update_neq by congruence. reflexivity.
Qed.

Lemma for_acc_related {A : Type} (R : A -> A -> Prop)
    (body : nat -> A -> outcome A) :
  (forall a, R a a) ->
  (forall a b c, R a b -> R b c -> R a c) ->
  (forall j a a', body j a = Ok a' -> R a a') ->
  forall count lo a a', for_acc lo count body a = Ok a' -> R a a'.
Proof.
  intros Hrefl Htrans Hbody. induction count as [|count IH]; intros lo a a' H.
  - cbn in H. inversion H; subst. apply Hrefl.
  - cbn [for_acc] in H. destruct (body lo a) as [b| |] eqn:Hb; try discriminate.
    cbn [obind] in H. eapply Htrans; [eapply Hbody; exact Hb | eapply IH; exact H].
Qed.

Lemma pedestal_step_agree (i : nat) (p : list double) (j : nat) (c c' : list double) :
  pedestal_step i p j c = Ok c' -> agree_except i c c'.
Proof.
  unfold pedestal_step. destruct (subscript c i); try discriminate. osimpl.
  destruct (subscript p i); try discriminate. osimpl.
  intros H; inversion H; subst. apply agree_except_update.
Qed.

Lemma gain_step_agree (i : nat) (g : list double) (j : nat) (c c' : list double) :
  gain_step i g j c = Ok c' -> agree_except i c c'.
Proof.
  unfold gain_step. destruct (subscript g i); try discriminate. osimpl.
  destruct (PrimFloat.ltb 0 a); try discriminate. osimpl.
  destruct (subscript c i); try discriminate. osimpl.
  intros H; inversion H; subst. apply agree_except_update.
Qed.

Lemma Image_tile_inv {T : Type} (im : Image T) (i : nat) (t : ImageTile T) :
  Image_tile im i = Ok t -> nth_error im i = Some t.
Proof.
  unfold Image_tile, subscript. destruct (i <? n_tiles im); [| discriminate].
  osimpl. destruct (nth_error im i); [| discriminate]. congruence.
Qed.

Lemma correct_tile_inv (data gain pedestal : Image double) (i : nat)
    (result result' : Image double) :
  correct_tile data gain pedestal i result = Ok result' ->
  exists rt c,
    nth_error data i = Some rt
    /\ result' = result ++ [mkImageTile (mkversa (accessor (tile_data rt)) c)]
    /\ agree_except i (elems (tile_data rt)) c.
Proof.
  unfold correct_tile.
  destruct (Image_tile data i) as [rt| |] eqn:Hr; try discriminate. osimpl.
  destruct (Image_tile gain i) as [gt| |]; try discriminate. osimpl.
  destruct (Image_tile pedestal i) as [pt| |]; try discriminate. osimpl.
  destruct (_ || _); try discriminate. osimpl.
  destruct (_ || _); try discriminate. osimpl.
  destruct (if 0 <? versa_size (tile_data pt) then _ else _) as [c1| |] eqn:Hp;
    try discriminate. osimpl.
  destruct (if 0 <? versa_size (tile_data gt) then _ else _) as [c2| |] eqn:Hg;
    try discriminate. osimpl.
  intros H; inversion H; subst. exists rt, c2.
  split; [now apply Image_tile_inv | split; [reflexivity |]].
  apply agree_except_trans with (b := c1).
  - destruct (0 <? versa_size (tile_data pt)).
    + eapply (@for_acc_related _ (agree_except i));
        [apply agree_except_refl | apply agree_except_trans | | exact Hp].
      intros j a a'. apply pedestal_step_agree.
    + inversion Hp; subst. apply agree_except_refl.
  - destruct (0 <? versa_size (tile_data gt)).
    + eapply (@for_acc_related _ (agree_except i));
        [apply agree_except_refl | apply agree_except_trans | | exact Hg].
      intros j a a'. apply gain_step_agree.
    + inversion Hg; subst. apply agree_except_refl.
Qed.

(** The tile loop, entered at tile [lo] with the tiles before it done. *)
Lemma correct_tiles_inv (data gain pedestal : Image double) :
  let done (result : Image double) (n : nat) :=
    List.length result = n
    /\ forall i ct, nth_error result i = Some ct ->
         exists rt, nth_error data i = Some rt
           /\ accessor (tile_data ct) = accessor (tile_data rt)
           /\ agree_except i (elems (tile_data rt)) (elems (tile_data ct)) in
  forall count lo result result',
    for_acc lo count (correct_tile data gain pedestal) result = Ok result' ->
    done result lo -> done result' (lo + count).
Proof.
  intros done. induction count as [|count IH]; intros lo result result' H Hdone.
  - cbn in H. inversion H; subst. now rewrite Nat.add_0_r.
  - cbn [for_acc] in H.
    destruct (correct_tile data gain pedestal lo result) as [r1| |] eqn:Hstep;
      try discriminate.
    cbn [obind] in H. apply IH in H; [now rewrite Nat.add_succ_r |].
    destruct (correct_tile_inv _ _ _ _ _ Hstep) as (rt & c & Hrt & -> & Hagree).
    destruct Hdone as [Hlen Hall]. split.
    + rewrite length_app, Hlen. cbn. lia.
    + intros i ct Hi. destruct (Nat.lt_ge_cases i lo) as [Hlt | Hge].
      * rewrite nth_error_app1 in Hi by lia. now apply Hall.
      * rewrite nth_error_app2 in Hi by lia. rewrite Hlen in Hi.
        destruct (i - lo) as [|d] eqn:Hd.
        -- assert (i = lo) by lia. subst i. cbn in Hi. inversion Hi; subst.
           exists rt. cbn [tile_data accessor elems]. auto.
        -- cbn in Hi. destruct d; discriminate.
Qed.

(** X15: whatever gain and pedestal maps are in force, an image returned by
    get_corrected_data has the tiles of the raw image, in number and in
    shape, and tile i holds the raw samples at every position other than
    position i: the correction reaches at most one sample of each tile. *)
Theorem get_corrected_data_reaches_one_sample_per_tile
    (Beam Goniometer : Type) (h : Heap Beam Goniometer) (this this' : ImageSet)
    (index : nat) (result : Image double) :
  ImageSet_get_corrected_data h index this = (Ok result, this') ->
  exists raw this1,
    ImageSet_get_raw_data index this = (Ok raw, this1)
    /\ n_tiles result = n_tiles (as_double raw)
    /\ forall i ct, nth_error result i = Some ct ->
         exists rt, nth_error (as_double raw) i = Some rt
           /\ accessor (tile_data ct) = accessor (tile_data rt)
           /\ agree_except i (elems (tile_data rt)) (elems (tile_data ct)).
Proof.
  unfold ImageSet_get_corrected_data, bind.
  destruct (ImageSet_get_raw_data index this) as [[raw| |] this1] eqn:Hraw;
    try discriminate.
  destruct (ImageSet_get_gain h index this1) as [[gain| |] this2]; try discriminate.
  destruct (ImageSet_get_pedestal index this2) as [[pedestal| |] this3];
    try discriminate.
  unfold lift.
  destruct (DXTBX_ASSERT (n_tiles (as_double raw) =? n_tiles gain) _);
    try discriminate.
  destruct (DXTBX_ASSERT (n_tiles (as_double raw) =? n_tiles pedestal) _);
    try discriminate.
  intros H. inversion H as [[Hloop Hst]]; clear H.
  exists raw, this1. split; [reflexivity |].
  apply (correct_tiles_inv (as_double raw) gain pedestal) in Hloop.
  - exact Hloop.
  - split; [reflexivity |]. intros i ct Hi. destruct i; discriminate.
Qed.

Lemma get_corrected_data_reaches_one_sample_per_tile_witness :
  let this := ImageSet_new example_data_with_lookups in
  let h := example_heap 1 in
  let result := [tile_1x2 2 20]%float in
  ImageSet_get_corrected_data h 0 this
    = (Ok result, snd (ImageSet_get_corrected_data h 0 this))
  /\ exists raw this1,
       ImageSet_get_raw_data 0 this = (Ok raw, this1)
       /\ raw = DoubleBuffer [tile_1x2 10 20]%float
       /\ n_tiles result = n_tiles (as_double raw)
       /\ exists rt, nth_error (as_double raw) 0 = Some rt
            /\ nth_error (elems (tile_data rt)) 1 = Some 20%float.
Proof.
  cbv zeta.
  assert (Hrun : ImageSet_get_corrected_data (example_heap 1) 0
                   (ImageSet_new example_data_with_lookups)
                 = (Ok [tile_1x2 2 20]%float,
                    snd (ImageSet_get_corrected_data (example_heap 1) 0
                           (ImageSet_new example_data_with_lookups))))
    by (apply injective_projections; reflexivity).
  split; [exact Hrun |].
  destruct (@get_corrected_data_reaches_one_sample_per_tile unit unit
              (example_heap 1) (ImageSet_new example_data_with_lookups) _ 0
              [tile_1x2 2 20]%float Hrun)
    as (raw & this1 & Hraw & Hn & Hall).
  assert (Hr : raw = DoubleBuffer [tile_1x2 10 20]%float).
  { apply (f_equal fst) in Hraw. cbn [fst] in Hraw.
    assert (E : fst (ImageSet_get_raw_data 0
                       (ImageSet_new example_data_with_lookups))
                = Ok (DoubleBuffer [tile_1x2 10 20]%float)) by reflexivity.
    rewrite E in Hraw. now inversion Hraw. }
  exists raw, this1.
  split; [exact Hraw | split; [exact Hr | split; [exact Hn |]]].
  destruct (Hall 0 (tile_1x2 2 20)%float eq_refl) as (rt & Hrt & _ & _ & Hsame).
  exists rt. split; [exact Hrt |].
  rewrite (Hsame 1) by discriminate. reflexivity.
Defined.

(* ------------------------------------------------------------------ *)
(** ** The mask of an image *)

Lemma and_elems_length (a b : list bool) :
  List.length (and_elems a b) = List.length a.
Proof.
  revert b; induction a as [|x a IH]; intros [|y b]; cbn; auto.
Qed.

Lemma and_elems_nil_r (a : list bool) : and_elems a [] = a.
Proof. destruct a; reflexivity. Qed.

Lemma and_images_nil_r (a : Image bool) : and_images a [] = a.
Proof. destruct a; reflexivity. Qed.

(** The sample loop, entered at position [length done]. *)
Lemma and_step_loop (rest rest2 pre2 done : list bool) :
  List.length done = List.length pre2 ->
  List.length rest = List.length rest2 ->
  for_acc (List.length done) (List.length rest) (and_step (pre2 ++ rest2))
          (done ++ rest)
    = Ok (done ++ and_elems rest rest2).
Proof.
  revert rest2 pre2 done.
  induction rest as [|x rest IH]; intros [|y rest2] pre2 done Hd Hr;
    try discriminate.
  - reflexivity.
  - cbn [List.length for_acc and_elems]. unfold and_step.
    rewrite subscript_middle. osimpl.
    assert (Hnext : forall v,
               for_acc (S (List.length done)) (List.length rest)
                       (and_step (pre2 ++ y :: rest2)) (done ++ v :: rest)
               = Ok (done ++ v :: and_elems rest rest2)).
    { intros v.
      specialize (IH rest2 (pre2 ++ [y]) (done ++ [v])).
      rewrite !length_app, <- !app_assoc in IH. cbn [List.length app] in IH.
      rewrite Nat.add_1_r in IH. apply IH; [lia | now inversion Hr]. }
    destruct x.
    + rewrite Hd, subscript_middle. osimpl. rewrite <- Hd, update_app_middle.
      cbn [obind andb]. apply Hnext.
    + rewrite update_app_middle. cbn [obind andb]. apply Hnext.
Qed.

Lemma and_step_all (m1 m2 : list bool) :
  List.length m1 = List.length m2 ->
  for_acc 0 (List.length m1) (and_step m2) m1 = Ok (and_elems m1 m2).
Proof.
  intros H. exact (and_step_loop m1 m2 [] [] eq_refl H).
Qed.

Lemma Image_tile_middle {T : Type} (pre : Image T) (t : ImageTile T) (suf : Image T) :
  Image_tile (pre ++ t :: suf) (List.length pre) = Ok t.
Proof.
  unfold Image_tile, n_tiles.
  assert (H : (List.length pre <? List.length (pre ++ t :: suf)) = true)
    by (apply Nat.ltb_lt; rewrite length_app; cbn; lia).
  rewrite H. osimpl. apply subscript_middle.
Qed.

Lemma and_tile_compatible (a b c : ImageTile bool) :
  tile_compatible a b -> tile_compatible a c -> tile_compatible (and_tile a b) c.
Proof.
  intros (Hab & Ha & Hb) (Hac & _ & Hc). unfold tile_compatible, and_tile.
  cbn [tile_data elems accessor]. unfold versa_size in *.
  cbn [accessor]. rewrite and_elems_length. auto.
Qed.

(** The tile loop of a combining block, entered at tile [length done]. *)
Lemma combine_tile_loop (rest orest opre done : Image bool) :
  List.length done = List.length opre ->
  Forall2 tile_compatible rest orest ->
  for_acc (List.length done) (List.length rest) (combine_tile (opre ++ orest))
          (done ++ rest)
    = Ok (done ++ and_images rest orest).
Proof.
  intros Hd Hc. revert opre done Hd.
  induction Hc as [|t1 t2 rest orest (Hsize & H1 & H2) Hc IH]; intros opre done Hd.
  - reflexivity.
  - cbn [List.length for_acc and_images]. unfold combine_tile.
    rewrite Image_tile_middle. osimpl.
    rewrite Hd, Image_tile_middle. osimpl.
    apply Nat.eqb_eq in Hsize. rewrite Hsize. osimpl.
    rewrite <- H1, and_step_all by (apply Nat.eqb_eq in Hsize; congruence).
    osimpl. rewrite <- Hd, update_app_middle. cbn [obind].
    specialize (IH (opre ++ [t2]) (done ++ [and_tile t1 t2])).
    rewrite !length_app, <- !app_assoc in IH. cbn [List.length app] in IH.
    rewrite Nat.add_1_r in IH. apply IH. lia.
Qed.

Lemma combine_mask_and (mask other : Image bool) (text : string) :
  masks_compatible mask other ->
  combine_mask (n_tiles mask) other text mask = Ok (and_images mask other).
Proof.
  intros [-> | Hc].
  - rewrite and_images_nil_r. reflexivity.
  - unfold combine_mask. destruct other as [|t other].
    + rewrite and_images_nil_r. reflexivity.
    + change (negb (Image_empty (t :: other))) with true. cbv iota.
      pose proof (Forall2_length Hc) as Hlen. unfold n_tiles.
      rewrite <- Hlen, Nat.eqb_refl. osimpl.
      exact (combine_tile_loop [] [] eq_refl Hc).
Qed.

Section MaskFacts.
Variable get_trusted_range_mask : DetectorPanel -> versa double -> outcome (versa bool).

(** The first loop of get_mask, entered at panel [length done]. *)
Lemma trusted_tile_loop (drest : Detector) (trest dpre_data : Image double)
    (dpre : Detector) (done : Image bool) :
  List.length done = List.length dpre ->
  List.length done = List.length dpre_data ->
  List.length drest = List.length trest ->
  for_acc (List.length done) (List.length drest)
          (trusted_tile get_trusted_range_mask (dpre ++ drest) (dpre_data ++ trest))
          done
    = do rest <- trusted_masks get_trusted_range_mask drest trest;
      Ok (done ++ rest).
Proof.
  revert trest dpre_data dpre done.
  induction drest as [|panel drest IH]; intros [|t trest] tpre dpre done Hd Ht Hr;
    try discriminate.
  - cbn. now rewrite app_nil_r.
  - cbn [List.length for_acc trusted_masks]. unfold trusted_tile at 1.
    assert (Hsub : subscript (dpre ++ panel :: drest) (List.length done) = Ok panel)
      by (rewrite Hd; apply subscript_middle).
    assert (Htile : Image_tile (tpre ++ t :: trest) (List.length done) = Ok t)
      by (rewrite Ht; apply Image_tile_middle).
    rewrite Hsub, Htile. osimpl.
    destruct (get_trusted_range_mask panel (tile_data t)) as [m| |]; try reflexivity.
    osimpl. unfold Image_push_back.
    specialize (IH trest (tpre ++ [t]) (dpre ++ [panel]) (done ++ [mkImageTile m])).
    rewrite !length_app, <- !app_assoc in IH. cbn [List.length app] in IH.
    rewrite Nat.add_1_r in IH. cbn [obind].
    rewrite IH by (try lia; now inversion Hr).
    destruct (trusted_masks get_trusted_range_mask drest trest); try reflexivity.
    osimpl. now rewrite <- app_assoc.
Qed.

End MaskFacts.

Lemma and_images_length (a b : Image bool) :
  n_tiles (and_images a b) = n_tiles a.
Proof.
  unfold n_tiles. revert b; induction a as [|x a IH]; intros [|y b]; cbn; auto.
Qed.

Lemma and_images_compatible (a b c : Image bool) :
  masks_compatible a b -> masks_compatible a c ->
  masks_compatible (and_images a b) c.
Proof.
  intros [-> | Hab] [-> | Hac]; try (now left).
  - rewrite and_images_nil_r. now right.
  - right. revert c Hac.
    induction Hab as [|x y a b Hxy Hab IH]; intros c Hac.
    + exact Hac.
    + inversion Hac as [|x' z a' c' Hxz Hac']; subst. cbn [and_images].
      constructor; [now apply and_tile_compatible | now apply IH].
Qed.

Section MaskOfImage.
Variable get_trusted_range_mask : DetectorPanel -> versa double -> outcome (versa bool).

Lemma trusted_masks_length (detector : Detector) (data : Image double)
    (trusted : Image bool) :
  List.length detector = List.length data ->
  trusted_masks get_trusted_range_mask detector data = Ok trusted ->
  n_tiles trusted = List.length detector.
Proof.
  unfold n_tiles. revert data trusted.
  induction detector as [|panel detector IH]; intros [|t data] trusted Hlen H;
    try discriminate.
  - cbn in H. now inversion H.
  - cbn [trusted_masks] in H.
    destruct (get_trusted_range_mask panel (tile_data t)); try discriminate.
    osimpl_in H.
    destruct (trusted_masks get_trusted_range_mask detector data) as [rest| |] eqn:Hrest;
      try discriminate.
    osimpl_in H. inversion H; subst. cbn [List.length]. f_equal.
    eapply IH; [| exact Hrest]. now inversion Hlen.
Qed.

(** X16: get_mask returns the conjunction of three masks.  For an image
    whose detector is set and has one panel per tile of the raw image, the
    result is, sample by sample, the panels' trusted-range mask AND the
    reader's dynamic mask AND the external lookup mask; a dynamic or
    external mask that is empty is left out of the conjunction.  The call
    leaves the raw image in the view's cache and stores nothing else. *)
Theorem get_mask_is_conjunction (Beam Goniometer : Type)
    (h : Heap Beam Goniometer) (this this1 : ImageSet) (index phys : nat)
    (raw : ImageBuffer) (detector : Detector) (trusted : Image bool) :
  ImageSet_get_raw_data index this = (Ok raw, this1) ->
  nth_error (is_indices_ this) index = Some phys ->
  ImageSetData_get_detector (is_data_ this) h phys = Ok (Some detector) ->
  n_tiles (as_double raw) = List.length detector ->
  trusted_masks get_trusted_range_mask detector (as_double raw) = Ok trusted ->
  let dyn_mask := ImageSetData_get_mask (is_data_ this) phys in
  let ext_mask := get_data (el_mask_ (ImageSet_external_lookup this)) in
  masks_compatible trusted dyn_mask ->
  masks_compatible trusted ext_mask ->
  ImageSet_get_mask get_trusted_range_mask h index this
    = (Ok (and_images (and_images trusted dyn_mask) ext_mask), this1).
Proof.
  intros Hraw Hidx Hdet Hn Htrusted dyn_mask ext_mask Hdyn Hext.
  destruct (get_raw_data_keeps_view _ _ Hraw) as [Hd Hi].
  pose proof (trusted_masks_length _ _ (eq_sym Hn) Htrusted) as Hlen.
  unfold ImageSet_get_mask, bind, get, lift. rewrite Hraw.
  unfold ImageSet_get_detector_for_image, ImageSet_size, ImageSet_external_lookup.
  rewrite Hd, Hi. destruct (index_in_view _ _ Hidx) as [Hlt Hsub].
  rewrite Hlt, Hsub. osimpl. rewrite Hdet. cbn [dereference].
  rewrite Hn, Nat.eqb_refl. cbn [DXTBX_ASSERT].
  pose proof (trusted_tile_loop get_trusted_range_mask detector (as_double raw)
                [] [] [] eq_refl eq_refl (eq_sym Hn)) as Hloop.
  cbn [app List.length] in Hloop. rewrite Hloop, Htrusted. osimpl.
  rewrite <- Hlen.
  rewrite (combine_mask_and _ Hdyn).
  rewrite <- (and_images_length trusted dyn_mask).
  rewrite (combine_mask_and _ (and_images_compatible Hdyn Hext)).
  reflexivity.
Qed.

(** X17: what get_mask refuses.  With no detector stored for the image the
    detector pointer is dereferenced unchecked; a detector whose number of
    panels differs from the number of tiles of the raw image, and a
    non-empty dynamic mask whose number of tiles differs from the number of
    panels, are refused with an error.  In each case the raw image stays
    in the view's cache. *)
Theorem get_mask_checks_tile_counts (Beam Goniometer : Type)
    (h : Heap Beam Goniometer) (this this1 : ImageSet) (index phys : nat)
    (raw : ImageBuffer) :
  ImageSet_get_raw_data index this = (Ok raw, this1) ->
  nth_error (is_indices_ this) index = Some phys ->
  (ImageSetData_get_detector (is_data_ this) h phys = Ok None ->
   ImageSet_get_mask get_trusted_range_mask h index this = (Undefined, this1))
  /\ (forall detector,
        ImageSetData_get_detector (is_data_ this) h phys = Ok (Some detector) ->
        n_tiles (as_double raw) <> List.length detector ->
        ImageSet_get_mask get_trusted_range_mask h index this
          = (Fatal "data.n_tiles() == detector.size()", this1))
  /\ (forall detector trusted,
        ImageSetData_get_detector (is_data_ this) h phys = Ok (Some detector) ->
        n_tiles (as_double raw) = List.length detector ->
        trusted_masks get_trusted_range_mask detector (as_double raw) = Ok trusted ->
        let dyn_mask := ImageSetData_get_mask (is_data_ this) phys in
        dyn_mask <> [] ->
        n_tiles dyn_mask <> List.length detector ->
        ImageSet_get_mask get_trusted_range_mask h index this
          = (Fatal "dyn_mask.n_tiles() == detector.size()", this1)).
Proof.
  intros Hraw Hidx.
  destruct (get_raw_data_keeps_view _ _ Hraw) as [Hd Hi].
  destruct (index_in_view _ _ Hidx) as [Hlt Hsub].
  assert (Hstart : forall ptr,
             ImageSetData_get_detector (is_data_ this) h phys = Ok ptr ->
             ImageSet_get_detector_for_image this1 h index = Ok ptr).
  { intros ptr Hptr. unfold ImageSet_get_detector_for_image, ImageSet_size.
    rewrite Hd, Hi, Hlt, Hsub. osimpl. exact Hptr. }
  split; [| split].
  - intros Hnull. unfold ImageSet_get_mask, bind, get, lift.
    rewrite Hraw, (Hstart _ Hnull). reflexivity.
  - intros detector Hdet Hne. unfold ImageSet_get_mask, bind, get, lift.
    rewrite Hraw, (Hstart _ Hdet). cbn [dereference].
    apply Nat.eqb_neq in Hne. rewrite Hne. reflexivity.
  - intros detector trusted Hdet Hn Htrusted dyn_mask Hdyn Hne.
    unfold ImageSet_get_mask, bind, get, lift.
    rewrite Hraw, (Hstart _ Hdet). cbn [dereference].
    rewrite Hn, Nat.eqb_refl. cbn [DXTBX_ASSERT].
    pose proof (trusted_tile_loop get_trusted_range_mask detector (as_double raw)
                  [] [] [] eq_refl eq_refl (eq_sym Hn)) as Hloop.
    cbn [app List.length] in Hloop. rewrite Hloop, Htrusted. osimpl.
    rewrite Hi, Hsub, Hd. fold dyn_mask. unfold combine_mask.
    destruct dyn_mask as [|t rest] eqn:Hmask; [congruence |].
    change (negb (Image_empty (t :: rest))) with true. cbv iota.
    apply Nat.eqb_neq in Hne. rewrite Hne. reflexivity.
Qed.
End MaskOfImage.

Lemma get_mask_is_conjunction_witness :
  let this := ImageSet_new example_masked_data in
  let raw := DoubleBuffer [mkImageTile (mkversa (1, 3) [10; 20; 70000]%float)] in
  let this1 := mkImageSet example_masked_data [0] (mkDataCache raw 0) in
  let trusted := [mkImageTile (mkversa (1, 3) [true; true; false])] in
  ImageSet_get_raw_data 0 this = (Ok raw, this1)
  /\ trusted_masks example_trusted_range_mask (example_detector 1%float)
                   (as_double raw) = Ok trusted
  /\ ImageSet_get_mask example_trusted_range_mask example_masked_heap 0 this
     = (Ok [mkImageTile (mkversa (1, 3) [true; false; false])], this1).
Proof.
  cbv zeta.
  assert (Hraw : ImageSet_get_raw_data 0 (ImageSet_new example_masked_data)
                 = (Ok (DoubleBuffer
                          [mkImageTile (mkversa (1, 3) [10; 20; 70000]%float)]),
                    mkImageSet example_masked_data [0]
                      (mkDataCache
                         (DoubleBuffer
                            [mkImageTile (mkversa (1, 3) [10; 20; 70000]%float)])
                         0)))
    by reflexivity.
  assert (Htrusted :
            trusted_masks example_trusted_range_mask (example_detector 1%float)
              (as_double
                 (DoubleBuffer
                    [mkImageTile (mkversa (1, 3) [10; 20; 70000]%float)]))
            = Ok [mkImageTile (mkversa (1, 3) [true; true; false])])
    by reflexivity.
  split; [exact Hraw | split; [exact Htrusted |]].
  apply (@get_mask_is_conjunction example_trusted_range_mask unit unit
           example_masked_heap (ImageSet_new example_masked_data) _ 0 0 _
           (example_detector 1%float) _ Hraw eq_refl eq_refl eq_refl Htrusted).
  - right. constructor; [repeat split | constructor].
  - right. constructor; [repeat split | constructor].
Defined.

Lemma get_mask_checks_tile_counts_witness :
  let this := ImageSet_new example_masked_data in
  let raw := DoubleBuffer [mkImageTile (mkversa (1, 3) [10; 20; 70000]%float)] in
  let this1 := mkImageSet example_masked_data [0] (mkDataCache raw 0) in
  let unset := mkHeap [[None]] [[None]] [[None]] [[None]] : Heap unit unit in
  let two_panels :=
    mkHeap [[None]] [[Some (example_detector 1 ++ example_detector 1)%float]]
           [[None]] [[None]] : Heap unit unit in
  ImageSet_get_raw_data 0 this = (Ok raw, this1)
  /\ nth_error (is_indices_ this) 0 = Some 0
  /\ ImageSet_get_mask example_trusted_range_mask unset 0 this = (Undefined, this1)
  /\ ImageSet_get_mask example_trusted_range_mask two_panels 0 this
     = (Fatal "data.n_tiles() == detector.size()", this1).
Proof.
  cbv zeta.
  assert (Hraw : ImageSet_get_raw_data 0 (ImageSet_new example_masked_data)
                 = (Ok (DoubleBuffer
                          [mkImageTile (mkversa (1, 3) [10; 20; 70000]%float)]),
                    mkImageSet example_masked_data [0]
                      (mkDataCache
                         (DoubleBuffer
                            [mkImageTile (mkversa (1, 3) [10; 20; 70000]%float)])
                         0)))
    by reflexivity.
  assert (Hidx : nth_error (is_indices_ (ImageSet_new example_masked_data)) 0
                 = Some 0) by reflexivity.
  split; [exact Hraw | split; [exact Hidx | split]].
  - exact (proj1 (@get_mask_checks_tile_counts example_trusted_range_mask unit unit
                    (mkHeap [[None]] [[None]] [[None]] [[None]])
                    _ _ 0 0 _ Hraw Hidx) eq_refl).
  - refine (proj1 (proj2 (@get_mask_checks_tile_counts example_trusted_range_mask
                            unit unit
                            (mkHeap [[None]]
                               [[Some (example_detector 1 ++ example_detector 1)%float]]
                               [[None]] [[None]])
                            _ _ 0 0 _ Hraw Hidx))
                  (example_detector 1 ++ example_detector 1)%float eq_refl _).
    cbn. discriminate.
Defined.

(* ------------------------------------------------------------------ *)
(** ** The trusted range of a panel, in binary64 *)

Lemma SFcompare_antisym (a b : spec_float) :
  SFcompare b a = option_map CompOpp (SFcompare a b).
Proof.
  destruct a as [sa|sa| |sa ma ea], b as [sb|sb| |sb mb eb]; cbn;
    try reflexivity;
    try (destruct sa; reflexivity); try (destruct sb; reflexivity);
    try (destruct sa, sb; reflexivity).
  destruct sa, sb; try reflexivity.
  - rewrite (Z.compare_antisym ea eb).
    destruct (ea ?= eb)%Z eqn:E; cbn; try reflexivity.
    f_equal. f_equal.
    change (PosDef.Pos.compare_cont Eq mb ma) with (Pos.compare_cont Eq mb ma).
    change (PosDef.Pos.compare_cont Eq ma mb) with (Pos.compare_cont Eq ma mb).
    now rewrite (Pos.compare_cont_antisym ma mb Eq).
  - rewrite (Z.compare_antisym ea eb).
    destruct (ea ?= eb)%Z eqn:E; cbn; try reflexivity.
    f_equal.
    change (PosDef.Pos.compare_cont Eq mb ma) with (Pos.compare_cont Eq mb ma).
    change (PosDef.Pos.compare_cont Eq ma mb) with (Pos.compare_cont Eq ma mb).
    now rewrite (Pos.compare_cont_antisym ma mb Eq).
Qed.

Lemma double_leb_not_gt (x y : double) :
  PrimFloat.leb x y = true -> PrimFloat.ltb y x = false.
Proof.
  rewrite FloatAxioms.leb_spec, FloatAxioms.ltb_spec. unfold SFleb, SFltb.
  rewrite (SFcompare_antisym (Prim2SF x) (Prim2SF y)).
  destruct (SFcompare (Prim2SF x) (Prim2SF y)) as [[| |]|]; cbn; congruence.
Qed.

Lemma double_ltb_irrefl (x : double) : PrimFloat.ltb x x = false.
Proof.
  destruct (PrimFloat.leb x x) eqn:E.
  - now apply double_leb_not_gt.
  - rewrite FloatAxioms.leb_spec in E. rewrite FloatAxioms.ltb_spec.
    unfold SFleb, SFltb in *.
    destruct (SFcompare (Prim2SF x) (Prim2SF x)) as [[| |]|]; congruence.
Qed.

Lemma double_nan_is_nan (x : double) :
  PrimFloat.is_nan x = true -> Prim2SF x = S754_nan.
Proof.
  unfold PrimFloat.is_nan. rewrite FloatAxioms.eqb_spec. unfold SFeqb. intros H.
  destruct (Prim2SF x) as [s|s| |s m e]; cbn in H; try reflexivity.
  - discriminate.
  - destruct s; discriminate.
  - rewrite Z.compare_refl, Pos.compare_cont_refl in H. destruct s; discriminate.
Qed.

Lemma double_ltb_leb_refl (x y : double) :
  PrimFloat.ltb x y = true -> PrimFloat.leb x x = true.
Proof.
  rewrite FloatAxioms.leb_spec, FloatAxioms.ltb_spec. unfold SFleb, SFltb.
  destruct (Prim2SF x) as [s|s| |s m e]; cbn.
  - reflexivity.
  - destruct s; reflexivity.
  - discriminate.
  - rewrite Z.compare_refl, Pos.compare_cont_refl. destruct s; reflexivity.
Qed.

(** X18: the trusted range of a panel is half open, in binary64 as in the
    reals: the upper end is never trusted, the lower end is whenever the
    range is not empty, a NaN sample is never trusted, and a panel whose
    range has equal ends, as the default-constructed one has, trusts no
    value at all. *)
Theorem trusted_range_is_half_open (p : Panel double) :
  is_value_in_trusted_range p (v2_1 (trusted_range_ p)) = false
  /\ (PrimFloat.ltb (v2_0 (trusted_range_ p)) (v2_1 (trusted_range_ p)) = true ->
      is_value_in_trusted_range p (v2_0 (trusted_range_ p)) = true)
  /\ (forall value, PrimFloat.is_nan value = true ->
        is_value_in_trusted_range p value = false)
  /\ (v2_0 (trusted_range_ p) = v2_1 (trusted_range_ p) ->
      forall value, is_value_in_trusted_range p value = false)
  /\ (forall value, is_value_in_trusted_range Panel_default value = false).
Proof.
  assert (Hequal : forall lo value : double,
             PrimFloat.leb lo value && PrimFloat.ltb value lo = false).
  { intros lo value. destruct (PrimFloat.leb lo value) eqn:E; [| reflexivity].
    cbn [andb]. now apply double_leb_not_gt. }
  unfold is_value_in_trusted_range. cbn [s_leb s_ltb double_Scalar].
  split; [| split; [| split; [| split]]].
  - rewrite double_ltb_irrefl. apply andb_false_r.
  - intros Hlt. rewrite Hlt, (double_ltb_leb_refl Hlt). reflexivity.
  - intros value Hnan. apply double_nan_is_nan in Hnan.
    rewrite FloatAxioms.ltb_spec, Hnan. apply andb_false_r.
  - intros Hsame value. rewrite <- Hsame. apply Hequal.
  - intros value. apply (Hequal 0%float).
Qed.

Lemma trusted_range_is_half_open_witness :
  let p := example_panel (mkvec2 2 1) in
  PrimFloat.ltb (v2_0 (trusted_range_ p)) (v2_1 (trusted_range_ p)) = true
  /\ is_value_in_trusted_range p 0%float = true
  /\ is_value_in_trusted_range p 65535%float = false
  /\ PrimFloat.is_nan nan = true
  /\ is_value_in_trusted_range p nan = false.
Proof.
  cbv zeta.
  destruct (trusted_range_is_half_open (example_panel (mkvec2 2 1)))
    as (Hupper & Hlower & Hnan & _).
  split; [reflexivity | split; [exact (Hlower eq_refl) | split; [exact Hupper |]]].
  split; [reflexivity | exact (Hnan nan eq_refl)].
Defined.

(* ------------------------------------------------------------------ *)
(** ** MultiPanelDetector *)

Section MultiPanelFacts.
Variable panel_type : Type.
Variable panel_eq : panel_type -> panel_type -> bool.
Variable panel_is_value_in_trusted_range : panel_type -> double -> bool.
Variable panel_is_coord_valid : panel_type -> vec2 double -> bool.
Variable panel_millimeter_to_pixel : panel_type -> vec2 double -> vec2 double.
Variable panel_pixel_to_millimeter : panel_type -> vec2 double -> vec2 double.

(** X19: the two checks of a multi-panel detector guard the panel number
    and answer false for a panel that does not exist, where the two
    coordinate mappings subscript the panel list unchecked: for a panel
    number of the list all four go to that panel, and for any other one
    is_value_in_trusted_range and is_coord_valid return false while
    millimeter_to_pixel and pixel_to_millimeter read outside the list. *)
Theorem multi_panel_checks_guard_the_panel_number
    (this : MultiPanelDetector panel_type) (panel : Z) (value : double)
    (xy : vec2 double) :
  (- 2 ^ 31 <= panel < 2 ^ 31)%Z ->
  (Z.of_nat (MultiPanelDetector_num_panels this) < 2 ^ 63)%Z ->
  ((0 <= panel < Z.of_nat (MultiPanelDetector_num_panels this))%Z ->
   exists p,
     nth_error (panel_list_ this) (Z.to_nat panel) = Some p
     /\ MultiPanelDetector_is_value_in_trusted_range
          panel_is_value_in_trusted_range this panel value
        = Ok (panel_is_value_in_trusted_range p value)
     /\ MultiPanelDetector_is_coord_valid panel_is_coord_valid this (panel, xy)
        = Ok (panel_is_coord_valid p xy)
     /\ MultiPanelDetector_millimeter_to_pixel panel_millimeter_to_pixel this
          (panel, xy)
        = Ok (panel_millimeter_to_pixel p xy)
     /\ MultiPanelDetector_pixel_to_millimeter panel_pixel_to_millimeter this
          (panel, xy)
        = Ok (panel_pixel_to_millimeter p xy))
  /\ ((panel < 0 \/ Z.of_nat (MultiPanelDetector_num_panels this) <= panel)%Z ->
      MultiPanelDetector_is_value_in_trusted_range
        panel_is_value_in_trusted_range this panel value = Ok false
      /\ MultiPanelDetector_is_coord_valid panel_is_coord_valid this (panel, xy)
         = Ok false
      /\ MultiPanelDetector_millimeter_to_pixel panel_millimeter_to_pixel this
           (panel, xy) = Undefined
      /\ MultiPanelDetector_pixel_to_millimeter panel_pixel_to_millimeter this
           (panel, xy) = Undefined).
Proof.
  intros Hint Hsize. unfold MultiPanelDetector_num_panels in *.
  unfold MultiPanelDetector_is_value_in_trusted_range,
    MultiPanelDetector_is_coord_valid, MultiPanelDetector_millimeter_to_pixel,
    MultiPanelDetector_pixel_to_millimeter, panel_subscript, subscript.
  cbn [fst snd]. split.
  - intros Hin.
    assert (Hconv : size_t_of_int panel = panel)
      by (unfold size_t_of_int; apply Z.mod_small; lia).
    rewrite Hconv.
    destruct (nth_error (panel_list_ this) (Z.to_nat panel)) as [p|] eqn:Hp.
    + exists p. split; [reflexivity |].
      rewrite (proj2 (Z.leb_le 0 panel)) by lia.
      rewrite (proj2 (Z.ltb_lt panel _)) by lia.
      osimpl. repeat split.
    + apply nth_error_None in Hp. lia.
  - intros Hout.
    assert (Hnone : nth_error (panel_list_ this) (Z.to_nat (size_t_of_int panel))
                    = None).
    { apply nth_error_None. unfold size_t_of_int.
      destruct Hout as [Hneg | Hbig].
      - replace (panel mod 2 ^ 64)%Z with (panel + 2 ^ 64)%Z
          by (apply Z.mod_unique with (q := (-1)%Z); lia).
        lia.
      - rewrite Z.mod_small by lia. lia. }
    rewrite Hnone. osimpl.
    destruct Hout as [Hneg | Hbig].
    + rewrite (proj2 (Z.leb_gt 0 panel)) by lia. repeat split.
    + assert (Hconv : size_t_of_int panel = panel)
        by (unfold size_t_of_int; apply Z.mod_small; lia).
      rewrite Hconv, (proj2 (Z.ltb_ge panel _)) by lia.
      destruct (0 <=? panel)%Z; repeat split.
Qed.

(** The loop of operator==, entered at panel [length pre] with the panels
    before it found equal or not. *)
Lemma panels_eq_loop (rest orest pre opre : list panel_type) (same : bool) :
  List.length pre = List.length opre ->
  List.length rest = List.length orest ->
  for_acc (List.length pre) (List.length rest)
    (fun (i : nat) (same : bool) =>
       if same then
         do a <- subscript (pre ++ rest) i;
         do b <- subscript (opre ++ orest) i;
         Ok (panel_eq a b)
       else Ok false)
    same
  = Ok (same && panels_eqb panel_eq rest orest).
Proof.
  revert orest pre opre same.
  induction rest as [|x rest IH]; intros [|y orest] pre opre same Hp Hr;
    try discriminate.
  - cbn. now rewrite andb_true_r.
  - cbn [List.length for_acc panels_eqb].
    specialize (IH orest (pre ++ [x]) (opre ++ [y])).
    rewrite !length_app, <- !app_assoc in IH. cbn [List.length app] in IH.
    rewrite Nat.add_1_r in IH.
    destruct same.
    + rewrite subscript_middle. osimpl. rewrite Hp, subscript_middle. osimpl.
      rewrite <- Hp. cbn [obind]. rewrite IH by (try lia; now inversion Hr).
      reflexivity.
    + cbn [obind]. rewrite IH by (try lia; now inversion Hr). reflexivity.
Qed.

Lemma panels_eqb_length (a b : list panel_type) :
  panels_eqb panel_eq a b = true -> List.length a = List.length b.
Proof.
  revert b; induction a as [|x a IH]; intros [|y b] H; cbn in *;
    try discriminate; auto.
  apply andb_prop in H. f_equal. now apply IH.
Qed.

(** X20: operator== of two multi-panel detectors always returns, and is
    true exactly when the two panel lists have the same length and the
    panels are pairwise equal; the type strings of the two detectors are
    not compared. *)
Theorem multi_panel_eq_compares_panels (this detector : MultiPanelDetector panel_type) :
  MultiPanelDetector_eq panel_eq this detector
    = Ok (panels_eqb panel_eq (panel_list_ this) (panel_list_ detector))
  /\ forall type1 type2,
       MultiPanelDetector_eq panel_eq
         (mkMultiPanelDetector type1 (panel_list_ this))
         (mkMultiPanelDetector type2 (panel_list_ detector))
       = MultiPanelDetector_eq panel_eq this detector.
Proof.
  assert (Hmain : forall a b : MultiPanelDetector panel_type,
             MultiPanelDetector_eq panel_eq a b
             = Ok (panels_eqb panel_eq (panel_list_ a) (panel_list_ b))).
  { intros a b. unfold MultiPanelDetector_eq.
    destruct (List.length (panel_list_ a) =? List.length (panel_list_ b)) eqn:Hlen.
    - apply Nat.eqb_eq in Hlen.
      exact (panels_eq_loop (panel_list_ a) (panel_list_ b) [] [] true eq_refl Hlen).
    - apply Nat.eqb_neq in Hlen.
      destruct (panels_eqb panel_eq (panel_list_ a) (panel_list_ b)) eqn:E;
        [| reflexivity].
      apply panels_eqb_length in E. contradiction. }
  split; [apply Hmain |].
  intros type1 type2. now rewrite !Hmain.
Qed.

(** X21: add_panel appends: the detector has one panel more, the new
    panel is the last one and the panels before it are unchanged; removing
    the last panel again gives the detector back, remove_panels leaves no
    panel, and remove_panel does not check its index. *)
Theorem multi_panel_add_remove (this : MultiPanelDetector panel_type)
    (panel : panel_type) :
  let added := MultiPanelDetector_add_panel this panel in
  MultiPanelDetector_num_panels added = S (MultiPanelDetector_num_panels this)
  /\ MultiPanelDetector_at added (MultiPanelDetector_num_panels this) = Ok panel
  /\ (forall i, i < MultiPanelDetector_num_panels this ->
        MultiPanelDetector_at added i = MultiPanelDetector_at this i)
  /\ MultiPanelDetector_remove_panel added (MultiPanelDetector_num_panels this)
     = Ok this
  /\ MultiPanelDetector_num_panels (MultiPanelDetector_remove_panels added) = 0
  /\ (forall i, MultiPanelDetector_num_panels this <= i ->
        MultiPanelDetector_remove_panel this i = Undefined).
Proof.
  destruct this as [type panels]. cbv zeta.
  unfold MultiPanelDetector_add_panel, MultiPanelDetector_num_panels,
    MultiPanelDetector_at, MultiPanelDetector_remove_panel,
    MultiPanelDetector_remove_panels.
  cbn [panel_list_ mpd_type_].
  split; [rewrite length_app; cbn; lia |].
  split; [apply subscript_middle |].
  split; [intros i Hi; unfold subscript; now rewrite nth_error_app1 |].
  split.
  - assert (Hlt : (List.length panels <? List.length (panels ++ [panel])) = true)
      by (apply Nat.ltb_lt; rewrite length_app; cbn; lia).
    rewrite Hlt. do 2 f_equal.
    rewrite firstn_app, Nat.sub_diag, firstn_all. cbn [firstn].
    rewrite skipn_all2 by (rewrite length_app; cbn; lia).
    now rewrite !app_nil_r.
  - split; [reflexivity |].
    intros i Hi. now rewrite (proj2 (Nat.ltb_ge i _) Hi).
Qed.
End MultiPanelFacts.

Lemma multi_panel_checks_guard_the_panel_number_witness :
  let this := mkMultiPanelDetector "Unknown" [example_panel (mkvec2 2 1)] in
  let xy := mkvec2 1%float 1%float in
  (- 2 ^ 31 <= 1 < 2 ^ 31)%Z
  /\ (Z.of_nat (MultiPanelDetector_num_panels this) < 2 ^ 63)%Z
  /\ MultiPanelDetector_is_value_in_trusted_range
       is_value_in_trusted_range this 1 10%float = Ok false
  /\ MultiPanelDetector_millimeter_to_pixel millimeter_to_pixel this (1%Z, xy)
     = Undefined.
Proof.
  cbv zeta.
  assert (Hint : (- 2 ^ 31 <= 1 < 2 ^ 31)%Z) by lia.
  assert (Hsize : (Z.of_nat (MultiPanelDetector_num_panels
                               (mkMultiPanelDetector "Unknown"
                                  [example_panel (mkvec2 2%nat 1%nat)])) < 2 ^ 63)%Z)
    by (cbn; lia).
  split; [exact Hint | split; [exact Hsize |]].
  destruct (@multi_panel_checks_guard_the_panel_number (Panel double)
              is_value_in_trusted_range (fun _ _ => true)
              millimeter_to_pixel pixel_to_millimeter
              (mkMultiPanelDetector "Unknown" [example_panel (mkvec2 2 1)])
              1%Z 10%float (mkvec2 1%float 1%float) Hint Hsize) as [_ Hout].
  destruct Hout as (Hv & _ & Hm & _); [right; cbn; lia |].
  split; [exact Hv | exact Hm].
Defined.

(* ------------------------------------------------------------------ *)
(** ** The maps get_corrected_data needs *)

Lemma get_gain_keeps_pedestal
    (Beam Goniometer : Type) (h : Heap Beam Goniometer) (index : nat)
    (this this' : ImageSet) (o : outcome (Image double)) :
  ImageSet_get_gain h index this = (o, this') ->
  el_pedestal_ (ImageSet_external_lookup this')
    = el_pedestal_ (ImageSet_external_lookup this)
  /\ forall gain, o = Ok gain ->
       gain = get_data (el_gain_ (ImageSet_external_lookup this')).
Proof.
  unfold ImageSet_get_gain, bind, get, ret, lift, modify.
  destruct (Image_empty (get_data (el_gain_ (ImageSet_external_lookup this)))).
  - destruct (ImageSet_get_detector_for_image this h index) as [ptr| |];
      try (intros H; inversion H; subst; split; [reflexivity | discriminate]).
    destruct (dereference ptr) as [detector| |];
      try (intros H; inversion H; subst; split; [reflexivity | discriminate]).
    destruct (gain_loop detector 0 (List.length detector) _) as [ug| |];
      try (intros H; inversion H; subst; split; [reflexivity | discriminate]).
    destruct (fst ug).
    + destruct (gain_map detector (snd ug)) as [result| |];
        try (intros H; inversion H; subst; split; [reflexivity | discriminate]).
      intros H; inversion H; subst. split; [reflexivity |].
      intros gain Hg. now inversion Hg.
    + intros H; inversion H; subst. split; [reflexivity |].
      intros gain Hg. now inversion Hg.
  - intros H; inversion H; subst. split; [reflexivity |].
    intros gain Hg. now inversion Hg.
Qed.

(** X22: get_corrected_data returns an image only when both maps have one
    tile per tile of the raw image: the image it returns has as many tiles
    as the pedestal item of the view held at the call, which no call
    changes, and as the gain item holds afterwards.  With no pedestal map
    in the lookup a returned image therefore has no tile at all. *)
Theorem get_corrected_data_needs_both_maps
    (Beam Goniometer : Type) (h : Heap Beam Goniometer) (this this' : ImageSet)
    (index : nat) (result : Image double) :
  ImageSet_get_corrected_data h index this = (Ok result, this') ->
  n_tiles result
    = n_tiles (get_data (el_pedestal_ (ImageSet_external_lookup this)))
  /\ n_tiles result
     = n_tiles (get_data (el_gain_ (ImageSet_external_lookup this')))
  /\ el_pedestal_ (ImageSet_external_lookup this')
     = el_pedestal_ (ImageSet_external_lookup this)
  /\ (Image_empty (get_data (el_pedestal_ (ImageSet_external_lookup this))) = true ->
      result = []).
Proof.
  unfold ImageSet_get_corrected_data, bind.
  destruct (ImageSet_get_raw_data index this) as [[raw| |] this1] eqn:Hraw;
    try discriminate.
  destruct (ImageSet_get_gain h index this1) as [[gain| |] this2] eqn:Hgain;
    try discriminate.
  unfold ImageSet_get_pedestal, bind, get, ret, lift.
  destruct (n_tiles (as_double raw) =? n_tiles gain) eqn:Hg; try discriminate.
  cbn [DXTBX_ASSERT].
  destruct (n_tiles (as_double raw)
              =? n_tiles (get_data (el_pedestal_ (ImageSet_external_lookup this2))))
    eqn:Hp; try discriminate.
  cbn [DXTBX_ASSERT].
  intros H. inversion H as [[Hloop Hst]]; clear H. subst this'.
  destruct (get_raw_data_keeps_view _ _ Hraw) as [Hd _].
  destruct (get_gain_keeps_pedestal _ _ _ Hgain) as [Hped Hgain'].
  assert (Hsame : el_pedestal_ (ImageSet_external_lookup this2)
                  = el_pedestal_ (ImageSet_external_lookup this)).
  { rewrite Hped. unfold ImageSet_external_lookup. now rewrite Hd. }
  apply Nat.eqb_eq in Hg, Hp.
  assert (Hn : n_tiles result = n_tiles (as_double raw)).
  { apply (correct_tiles_inv (as_double raw) gain
             (get_data (el_pedestal_ (ImageSet_external_lookup this2)))) in Hloop.
    - exact (proj1 Hloop).
    - split; [reflexivity |]. intros i ct Hi. destruct i; discriminate. }
  assert (Hpn : n_tiles result
                = n_tiles (get_data (el_pedestal_ (ImageSet_external_lookup this))))
    by (rewrite <- Hsame; congruence).
  split; [exact Hpn |].
  split; [rewrite <- (Hgain' gain eq_refl); congruence |].
  split; [exact Hsame |].
  intros He. unfold Image_empty in He. apply Nat.eqb_eq in He.
  rewrite He in Hpn. now destruct result.
Qed.

Lemma get_corrected_data_needs_both_maps_witness :
  let this := ImageSet_new example_data_with_lookups in
  let h := example_heap 1 in
  let result := [tile_1x2 2 20]%float in
  ImageSet_get_corrected_data h 0 this
    = (Ok result, snd (ImageSet_get_corrected_data h 0 this))
  /\ n_tiles result
     = n_tiles (get_data (el_pedestal_ (ImageSet_external_lookup this))).
Proof.
  cbv zeta.
  assert (Hrun : ImageSet_get_corrected_data (example_heap 1) 0
                   (ImageSet_new example_data_with_lookups)
                 = (Ok [tile_1x2 2 20]%float,
                    snd (ImageSet_get_corrected_data (example_heap 1) 0
                           (ImageSet_new example_data_with_lookups))))
    by (apply injective_projections; reflexivity).
  split; [exact Hrun |].
  exact (proj1 (@get_corrected_data_needs_both_maps unit unit (example_heap 1)
                  (ImageSet_new example_data_with_lookups) _ 0
                  [tile_1x2 2 20]%float Hrun)).
Defined.

(* ------------------------------------------------------------------ *)
(** ** complete_sweep and partial_sweep *)

(** A loop that ends normally has run its body at every index. *)
Lemma for_acc_reaches {A : Type} (body : nat -> A -> outcome A) :
  forall count lo acc r,
    for_acc lo count body acc = Ok r ->
    forall i, lo <= i < lo + count -> exists a a', body i a = Ok a'.
Proof.
  induction count as [|count IH]; intros lo acc r H i Hi; [lia |].
  cbn [for_acc] in H. destruct (body lo acc) as [a'| |] eqn:Hb; try discriminate.
  cbn [obind] in H. destruct (Nat.eq_dec i lo) as [-> | Hne].
  - now exists acc, a'.
  - apply (IH _ _ _ H). lia.
Qed.

Section SweepSliceFacts.
Variables Beam Goniometer : Type.
Variable scan_append : Scan -> Scan -> outcome Scan.

Lemma merge_scan_out_of_view (h : Heap Beam Goniometer) (base : ImageSet)
    (i : nat) (scan : Scan) :
  ImageSet_size base <= i ->
  merge_scan scan_append (ImageSet_get_scan_for_image base h) i scan
    = Fatal "index < indices_.size()".
Proof.
  intros Hi. unfold merge_scan, ImageSet_get_scan_for_image.
  now rewrite (proj2 (Nat.ltb_ge i _) Hi).
Qed.

(** X23: partial_sweep checks both ends of its range and complete_sweep
    reads the whole collection.  partial_sweep(first, last) with
    last <= first throws and leaves the heap alone; with last beyond the
    size of the sweep it never returns a sweep and never reads outside
    the index array, because every image of the range goes through the
    checked per-image getter; complete_sweep throws when physical image 0
    of the collection holds no scan, whether that image belongs to the
    sweep or not. *)
Theorem sweep_of_sweep_checks (this : ImageSweep Beam Goniometer)
    (h : Heap Beam Goniometer) (first last : nat) :
  (last <= first ->
   ImageSweep_partial_sweep scan_append this first last h
     = (Fatal "last > first", h))
  /\ (first < last -> ImageSet_size (sweep_base this) < last ->
      (forall phys, In phys (is_indices_ (sweep_base this)) ->
         ImageSetData_get_scan (is_data_ (sweep_base this)) h phys <> Undefined) ->
      (forall a b, scan_append a b <> Undefined) ->
      exists what, ImageSweep_partial_sweep scan_append this first last h
                   = (Fatal what, h))
  /\ (ImageSetData_get_scan (is_data_ (sweep_base this)) h 0 = Ok None ->
      ImageSweep_complete_sweep scan_append this h = (Fatal "item != NULL", h)).
Proof.
  split; [| split].
  - intros Hle. unfold ImageSweep_partial_sweep, bind, lift.
    now rewrite (proj2 (Nat.ltb_ge first last) Hle).
  - intros Hlt Hbig Hdef Happ.
    unfold ImageSweep_partial_sweep, bind, lift.
    rewrite (proj2 (Nat.ltb_lt first last) Hlt). cbn [DXTBX_ASSERT].
    set (base := sweep_base this) in *.
    assert (Hget : forall i,
               ImageSet_get_scan_for_image base h i <> Undefined).
    { intros i. unfold ImageSet_get_scan_for_image, subscript.
      destruct (i <? ImageSet_size base) eqn:Hi; osimpl; [| discriminate].
      destruct (nth_error (is_indices_ base) i) as [phys|] eqn:Hp.
      - osimpl. apply Hdef. eapply nth_error_In; exact Hp.
      - apply Nat.ltb_lt in Hi. apply nth_error_None in Hp.
        unfold ImageSet_size in Hi. lia. }
    assert (Hbody : forall i scan,
               merge_scan scan_append (ImageSet_get_scan_for_image base h) i scan
               <> Undefined).
    { intros i scan. unfold merge_scan.
      destruct (ImageSet_get_scan_for_image base h i) as [[s|]| |] eqn:Hg; osimpl;
        try discriminate; [apply Happ | now apply Hget in Hg]. }
    assert (Hloop : forall count lo acc,
               for_acc lo count
                 (merge_scan scan_append (ImageSet_get_scan_for_image base h)) acc
               <> Undefined).
    { induction count as [|count IH]; intros lo acc; [discriminate |].
      cbn [for_acc].
      destruct (merge_scan scan_append (ImageSet_get_scan_for_image base h) lo acc)
        as [a| |] eqn:Hb; osimpl; try discriminate; [apply IH |].
      now apply Hbody in Hb. }
    destruct (ImageSet_get_scan_for_image base h first) as [[scan0|]| |] eqn:Hfirst;
      cbn [obind safe_dereference DXTBX_ASSERT].
    + destruct (for_acc (first + 1) (last - (first + 1))
                  (merge_scan scan_append (ImageSet_get_scan_for_image base h)) scan0)
        as [scan| |] eqn:Hl.
      * exfalso.
        assert (Hin : first < ImageSet_size base).
        { unfold ImageSet_get_scan_for_image in Hfirst.
          destruct (first <? ImageSet_size base) eqn:E; [now apply Nat.ltb_lt in E |].
          discriminate. }
        destruct (@for_acc_reaches _ _ _ _ _ _ Hl (ImageSet_size base))
          as (a & a' & Hb); [lia |].
        rewrite merge_scan_out_of_view in Hb by lia. discriminate.
      * eexists; reflexivity.
      * now apply Hloop in Hl.
    + eexists; reflexivity.
    + eexists; reflexivity.
    + now apply Hget in Hfirst.
  - intros Hnull. unfold ImageSweep_complete_sweep, bind, lift.
    rewrite Hnull. reflexivity.
Qed.
End SweepSliceFacts.

Lemma window_of_seq (start len first count : nat) :
  first + count <= len ->
  firstn count (skipn first (seq start len)) = seq (start + first) count.
Proof.
  intros H. rewrite skipn_seq.
  replace (len - first) with (count + (len - first - count)) by lia.
  rewrite seq_app, firstn_app, length_seq, Nat.sub_diag. cbn [firstn].
  rewrite app_nil_r. apply firstn_all2. rewrite length_seq. lia.
Qed.

Lemma increasing_from_seq (n a : nat) : increasing_from a (seq (S a) n) = true.
Proof.
  revert a. induction n as [|n IH]; intros a; [reflexivity |].
  cbn [seq increasing_from]. rewrite Nat.add_1_r, Nat.eqb_refl. apply IH.
Qed.

Lemma increasing_by_one_of_seq (a n : nat) : increasing_by_one (seq a n) = true.
Proof.
  destruct n as [|n]; [reflexivity |]. cbn [seq increasing_by_one].
  apply increasing_from_seq.
Qed.

Section SweepRebuild.
Variables Beam Goniometer : Type.
Variable scan_append : Scan -> Scan -> outcome Scan.
Hypothesis append_next : forall a b : Z,
  scan_append (mkScan (a, b)) (mkScan ((b + 1)%Z, (b + 1)%Z))
    = Ok (mkScan (a, (b + 1)%Z)).

(** The merging loop over one-image scans of consecutive images. *)
Lemma merge_scan_loop (get_scan : nat -> outcome scan_ptr) (f a : Z) :
  forall count lo,
    (forall i, lo <= i < lo + count ->
       get_scan i = Ok (Some (mkScan ((f + Z.of_nat i)%Z, (f + Z.of_nat i)%Z)))) ->
    for_acc lo count (merge_scan scan_append get_scan)
            (mkScan (a, (f + Z.of_nat lo - 1)%Z))
      = Ok (mkScan (a, (f + Z.of_nat (lo + count) - 1)%Z)).
Proof.
  induction count as [|count IH]; intros lo Hget.
  - cbn [for_acc]. now rewrite Nat.add_0_r.
  - cbn [for_acc]. unfold merge_scan at 1. rewrite Hget by lia.
    cbn [obind safe_dereference].
    assert (Hstep : scan_append (mkScan (a, (f + Z.of_nat lo - 1)%Z))
                      (mkScan ((f + Z.of_nat lo)%Z, (f + Z.of_nat lo)%Z))
                    = Ok (mkScan (a, (f + Z.of_nat (S lo) - 1)%Z))).
    { pose proof (append_next a (f + Z.of_nat lo - 1)) as H.
      replace (f + Z.of_nat lo - 1 + 1)%Z with (f + Z.of_nat lo)%Z in H by lia.
      rewrite H. do 3 f_equal. lia. }
    rewrite Hstep. cbn [obind].
    rewrite IH by (intros i Hi; apply Hget; lia).
    now rewrite Nat.add_succ_r.
Qed.

(** X24: on a sweep as its constructor leaves it, over the contiguous
    physical range start .. start+len-1 with image k holding the one-image
    scan of image f+k, and with a scan append that joins a scan to the
    one-image scan that follows it: partial_sweep(first, last) for
    first < last <= size() returns a sweep of the images first .. last-1
    whose scan covers the images f+first .. f+last-1, and complete_sweep,
    when the sweep covers the whole collection, returns a sweep of all of
    it whose scan covers f .. f+len-1; both carry the beam, detector and
    goniometer of the sweep they were taken from, and every image of the
    new sweep reads those models and its own slice of the merged scan. *)
Theorem sweep_of_sweep_rebuilds (w : ImageSweep Beam Goniometer)
    (h : Heap Beam Goniometer) (start len : nat) (f : Z)
    (beam : Beam) (detector : Detector) (goniometer : Goniometer) :
  sweep_contiguous h (sweep_base w) start len ->
  scans_sliced h (sweep_base w) f ->
  ImageSweep_get_beam w = Some beam ->
  ImageSweep_get_detector w = Some detector ->
  ImageSweep_get_goniometer w = Some goniometer ->
  (Z.of_nat len < 2 ^ 31)%Z ->
  (forall first last, first < last -> last <= len ->
     exists w' h',
       ImageSweep_partial_sweep scan_append w first last h = (Ok w', h')
       /\ is_data_ (sweep_base w') = is_data_ (sweep_base w)
       /\ is_indices_ (sweep_base w') = seq (start + first) (last - first)
       /\ sweep_broadcast h' w' beam detector goniometer
            (mkScan ((f + Z.of_nat first)%Z, (f + Z.of_nat last - 1)%Z)))
  /\ (start = 0 -> len = ImageSetData_size (is_data_ (sweep_base w)) -> 0 < len ->
      exists w' h',
        ImageSweep_complete_sweep scan_append w h = (Ok w', h')
        /\ sweep_base w' = ImageSet_new (is_data_ (sweep_base w))
        /\ sweep_broadcast h' w' beam detector goniometer
             (mkScan (f, (f + Z.of_nat len - 1)%Z))).
Proof.
  intros Hsweep Hscans Hbeam Hdet Hgon H31.
  pose proof Hsweep as (Hal & Hidx & Hsize).
  pose proof (sweep_size Hsweep) as Hlen.
  split.
  - intros first last Hlt Hle.
    unfold ImageSweep_partial_sweep, bind, lift.
    rewrite (proj2 (Nat.ltb_lt first last) Hlt). cbn [DXTBX_ASSERT].
    rewrite Hscans by (rewrite Hlen; lia). cbn [obind safe_dereference].
    replace (mkScan ((f + Z.of_nat first)%Z, (f + Z.of_nat first)%Z))
      with (mkScan ((f + Z.of_nat first)%Z, (f + Z.of_nat (first + 1) - 1)%Z))
      by (do 2 f_equal; lia).
    rewrite (merge_scan_loop (ImageSet_get_scan_for_image (sweep_base w) h) f)
      by (intros i Hi; apply Hscans; rewrite Hlen; lia).
    replace (first + 1 + (last - (first + 1))) with last by lia.
    rewrite Hidx, window_in_range by (rewrite length_seq; lia).
    rewrite window_of_seq by lia.
    rewrite Hbeam, Hdet, Hgon. cbn [safe_dereference].
    unfold ImageSweep_new_indices, bind, lift.
    rewrite ImageSet_new_indices_in_range.
    + rewrite length_seq.
      assert (Hnum : Scan_get_num_images
                       (mkScan ((f + Z.of_nat first)%Z, (f + Z.of_nat last - 1)%Z))
                     = Z.of_nat (last - first))
        by (unfold Scan_get_num_images; cbn [image_range_ fst snd]; lia).
      rewrite Hnum, size_t_of_int_small, Z.eqb_refl by lia. cbn [DXTBX_ASSERT].
      rewrite indices_sequential_spec, increasing_by_one_of_seq.
      destruct (@sweep_set_models_broadcast Beam Goniometer h
                  (mkImageSet (is_data_ (sweep_base w))
                     (seq (start + first) (last - first)) DataCache_default)
                  (start + first) (last - first) beam detector goniometer
                  (mkScan ((f + Z.of_nat first)%Z, (f + Z.of_nat last - 1)%Z)))
        as (h' & Hrun & Hbroad);
        try solve [assumption | reflexivity | cbn [is_data_]; lia | lia].
      rewrite Hrun. unfold ret. eexists; exists h'.
      split; [reflexivity | split; [reflexivity | split; [reflexivity |]]].
      exact Hbroad.
    + destruct (last - first) eqn:E; [lia | discriminate].
    + intros i Hi. apply in_seq in Hi. lia.
  - intros -> Hall Hpos.
    set (data := is_data_ (sweep_base w)) in *.
    assert (Hphys : forall i, i < len ->
               ImageSetData_get_scan data h i
               = Ok (Some (mkScan ((f + Z.of_nat i)%Z, (f + Z.of_nat i)%Z)))).
    { intros i Hi. rewrite <- Hscans by (rewrite Hlen; exact Hi).
      pose proof (sweep_position Hsweep Hi) as Hp. cbn [Nat.add] in Hp.
      at_index Hp. reflexivity. }
    unfold ImageSweep_complete_sweep, bind, lift. fold data.
    rewrite Hphys by lia. cbn [obind safe_dereference].
    replace (mkScan ((f + Z.of_nat 0)%Z, (f + Z.of_nat 0)%Z))
      with (mkScan (f, (f + Z.of_nat 1 - 1)%Z)) by (do 2 f_equal; lia).
    rewrite (merge_scan_loop (ImageSetData_get_scan data h) f)
      by (intros i Hi; apply Hphys; lia).
    replace (1 + (ImageSetData_size data - 1)) with len by lia.
    rewrite Hbeam, Hdet, Hgon. cbn [safe_dereference].
    unfold ImageSweep_new, bind, lift.
    assert (Hnum : Scan_get_num_images (mkScan (f, (f + Z.of_nat len - 1)%Z))
                   = Z.of_nat len)
      by (unfold Scan_get_num_images; cbn [image_range_ fst snd]; lia).
    rewrite Hnum, size_t_of_int_small, <- Hall, Z.eqb_refl by lia.
    cbn [DXTBX_ASSERT].
    destruct (@sweep_set_models_broadcast Beam Goniometer h (ImageSet_new data)
                0 len beam detector goniometer
                (mkScan (f, (f + Z.of_nat len - 1)%Z)))
      as (h' & Hrun & Hbroad);
      try solve [assumption | lia
                | unfold ImageSet_new; cbn [is_data_ is_indices_];
                  rewrite <- ?Hall; first [reflexivity | lia] ].
    rewrite Hrun. unfold ret. eexists; exists h'.
    split; [reflexivity | split; [reflexivity |]]. exact Hbroad.
Qed.
End SweepRebuild.

Lemma example_scan_append_next (a b : Z) :
  example_scan_append (mkScan (a, b)) (mkScan ((b + 1)%Z, (b + 1)%Z))
    = Ok (mkScan (a, (b + 1)%Z)).
Proof.
  unfold example_scan_append. cbn [image_range_ fst snd].
  now rewrite Z.eqb_refl.
Qed.

Lemma example_built_sweep_contiguous :
  sweep_contiguous example_built_heap (sweep_base example_built_sweep) 1 2.
Proof. split; [repeat split | split; [reflexivity | cbn; lia]]. Qed.

Lemma sweep_of_sweep_rebuilds_witness :
  (forall a b : Z,
     example_scan_append (mkScan (a, b)) (mkScan ((b + 1)%Z, (b + 1)%Z))
       = Ok (mkScan (a, (b + 1)%Z)))
  /\ sweep_contiguous example_built_heap (sweep_base example_built_sweep) 1 2
  /\ scans_sliced example_built_heap (sweep_base example_built_sweep) 5
  /\ exists w' h',
       ImageSweep_partial_sweep example_scan_append example_built_sweep 0 2
         example_built_heap = (Ok w', h')
       /\ is_indices_ (sweep_base w') = [1; 2]
       /\ ImageSweep_get_scan w' = Some (mkScan (5, 6)%Z)
       /\ ImageSet_get_scan_for_image (sweep_base w') h' 1
          = Ok (Some (mkScan (6, 6)%Z)).
Proof.
  assert (Hscans : scans_sliced example_built_heap (sweep_base example_built_sweep) 5).
  { intros k Hk. cbn in Hk. destruct k as [|[|k]]; [reflexivity | reflexivity | lia]. }
  assert (H31 : (Z.of_nat 2 < 2 ^ 31)%Z) by (cbn; lia).
  split; [exact example_scan_append_next |].
  split; [exact example_built_sweep_contiguous | split; [exact Hscans |]].
  destruct (@sweep_of_sweep_rebuilds unit unit example_scan_append
              example_scan_append_next example_built_sweep example_built_heap
              1 2 5%Z tt (example_detector 2%float) tt
              example_built_sweep_contiguous Hscans eq_refl eq_refl eq_refl H31)
    as [Hpartial _].
  destruct (Hpartial 0 2) as (w' & h' & Hrun & _ & Hidx & Hbroad); [lia | lia |].
  exists w', h'. split; [exact Hrun | split; [exact Hidx |]].
  destruct Hbroad as (_ & _ & _ & Hscan & Hall). split; [exact Hscan |].
  assert (Hsize : 1 < ImageSet_size (sweep_base w'))
    by (unfold ImageSet_size; rewrite Hidx; cbn; lia).
  destruct (Hall 1 Hsize) as (_ & _ & _ & s & Hs & _ & Hget).
  cbn in Hs. injection Hs as <-. exact Hget.
Defined.

Lemma sweep_of_sweep_checks_witness :
  (forall phys, In phys (is_indices_ (sweep_base example_built_sweep)) ->
     ImageSetData_get_scan (is_data_ (sweep_base example_built_sweep))
       example_built_heap phys <> Undefined)
  /\ (forall a b, example_scan_append a b <> Undefined)
  /\ ImageSweep_partial_sweep example_scan_append example_built_sweep 2 1
       example_built_heap = (Fatal "last > first", example_built_heap)
  /\ (exists what,
        ImageSweep_partial_sweep example_scan_append example_built_sweep 0 3
          example_built_heap = (Fatal what, example_built_heap))
  /\ ImageSweep_complete_sweep example_scan_append example_built_sweep
       example_built_heap = (Fatal "item != NULL", example_built_heap).
Proof.
  assert (Hdef : forall phys,
             In phys (is_indices_ (sweep_base example_built_sweep)) ->
             ImageSetData_get_scan (is_data_ (sweep_base example_built_sweep))
               example_built_heap phys <> Undefined)
    by (intros phys [<- | [<- | []]]; discriminate).
  assert (Happ : forall a b, example_scan_append a b <> Undefined).
  { intros a b. unfold example_scan_append.
    destruct (_ =? _)%Z; discriminate. }
  destruct (@sweep_of_sweep_checks unit unit example_scan_append
              example_built_sweep example_built_heap 2 1) as (Horder & _ & Hzero).
  destruct (@sweep_of_sweep_checks unit unit example_scan_append
              example_built_sweep example_built_heap 0 3) as (_ & Hrange & _).
  split; [exact Hdef | split; [exact Happ |]].
  split; [apply Horder; lia |].
  split; [apply Hrange; [lia | cbn; lia | exact Hdef | exact Happ] |].
  apply Hzero. reflexivity.
Defined.
